(** * TinyShell (tsh.c): the job table, the builtins and the signal handlers

    A shallow embedding of the job-control kernel of [tsh.c].  The job
    list is the array [job_list[MAXJOBS]]; a [struct job_t *] into it is
    an index, the NULL pointer is [None], and reading through NULL is the
    outcome [Fault].  C [int]s and [pid_t]s are integers of [Z] (the job
    ids and pids that occur stay far below [INT_MAX]); the one number that
    the user types, the argument of [fg] and [bg], is read by [atoi] into
    the range of an [int].  The effects of the
    shell (the job list, [nextjid], what has been written to standard
    output, the signals sent with [kill]) are threaded through a
    state-and-fault monad.  What the kernel decides (the pid that [fork]
    returns, the statuses that [waitpid] reports, whether [execve] and
    [open] succeed) is an input.

    The tokenizer [parseline] works on the text of the line; [eval_cmdline]
    is [eval] as [main] calls it, tokenizer first.

    The file has four parts: the definitions, read off the source
    function by function; the lemmas; the theorems on the claims C1 to
    C10 of the specification, with the properties X1 to X4 that they lean
    on; and the further properties X5 to X29 of the code. *)

From Stdlib Require Import ZArith Ascii String.
From stdpp Require Import base tactics option list numbers strings.
From Stdlib Require Import Lia.

Local Open Scope string_scope.
Local Open Scope Z_scope.

(** ** Manifest constants *)

Definition MAXJOBS : nat := 16.            (* max jobs at any point in time *)
Definition MAXJID : Z := Z.shiftl 1 16.    (* max job ID *)

Definition UNDEF : Z := 0.                 (* undefined *)
Definition FG : Z := 1.                    (* running in foreground *)
Definition BG : Z := 2.                    (* running in background *)
Definition ST : Z := 3.                    (* stopped *)

(** Signal numbers of <signal.h> (Linux values). *)
Definition SIGINT : Z := 2.
Definition SIGCONT : Z := 18.
Definition SIGTSTP : Z := 20.

(** ** Data model *)

Record job_t := mkjob {
  pid : Z;            (* job PID *)
  jid : Z;            (* job ID [1, 2, ...] *)
  state : Z;          (* UNDEF, BG, FG, or ST *)
  cmdline : string    (* command line *)
}.

Inductive builtins_t :=
  BUILTIN_NONE | BUILTIN_QUIT | BUILTIN_JOBS | BUILTIN_BG | BUILTIN_FG.

Record cmdline_tokens := mktok {
  argc : Z;                     (* number of arguments *)
  argv : list string;           (* the arguments; argv[argc] is NULL *)
  infile : option string;       (* the input file, NULL when absent *)
  outfile : option string;      (* the output file, NULL when absent *)
  builtins : builtins_t
}.

(** The status that [waitpid] hands back, as the wait macros read it. *)
Inductive wstatus :=
| WStopped (sig : Z)      (* WIFSTOPPED, WSTOPSIG = sig *)
| WSignaled (sig : Z)     (* WIFSIGNALED, WTERMSIG = sig *)
| WExited (code : Z)      (* WIFEXITED *)
| WOther.                 (* none of the three *)

(** The shell process: its globals and its visible effects. *)
Record shell := mkshell {
  job_list : list job_t;        (* struct job_t job_list[MAXJOBS] *)
  nextjid : Z;                  (* next job ID to allocate *)
  verbose : bool;               (* if true, print additional output *)
  sio_out : string;             (* bytes written with write(2) on fd 1 *)
  stdio_out : string;           (* text handed to printf *)
  sent : list (Z * Z);          (* kill(target, sig) calls, oldest first *)
  files : list (string * string) (* what was written to opened files *)
}.

Definition set_jobs (jl : list job_t) (s : shell) : shell :=
  mkshell jl (nextjid s) (verbose s) (sio_out s) (stdio_out s) (sent s)
          (files s).
Definition set_nextjid (n : Z) (s : shell) : shell :=
  mkshell (job_list s) n (verbose s) (sio_out s) (stdio_out s) (sent s)
          (files s).
Definition set_state (st : Z) (j : job_t) : job_t :=
  mkjob (pid j) (jid j) st (cmdline j).

(** Globals are zero-initialised; [main] then runs [initjobs]. *)
Definition zero_job : job_t := mkjob 0 0 0 "".

(** The newline character, written [\n] in the C source. *)
Definition nl : string := String (ascii_of_nat 10) EmptyString.

(** ** Number formatting and parsing *)

Definition char_of_Z (z : Z) : ascii := ascii_of_N (Z.to_N (z mod 256)).

(** The do-while loop of [sio_ltoa]: digits are produced least significant
    first.  [fuel] bounds the iterations that follow the first one. *)
Fixpoint ltoa_loop (fuel : nat) (v b : Z) : list ascii :=
  let c := Z.rem v b in
  let ch := if c <? 10 then char_of_Z (c + 48) else char_of_Z (c - 10 + 97) in
  let v' := Z.quot v b in
  match fuel with
  | O => [ch]
  | S f => if 0 <? v' then ch :: ltoa_loop f v' b else [ch]
  end.

(** [sio_ltoa] followed by [sio_reverse]; a number [v] has at most
    [log2 v + 1] digits in any base. *)
Definition sio_ltoa (v b : Z) : string :=
  string_of_list_ascii (rev (ltoa_loop (Z.to_nat (Z.log2 v)) v b)).

(** libc's [atoi] returns an [int], and [execute_fg] and [execute_bg]
    store it in [int jid, pid]: glibc defines it as
    [(int) strtol (nptr, NULL, 10)].  [strtol] reads optional white space,
    an optional sign, then the longest run of decimal digits (0 when there
    is none); a number that does not fit a [long] (64 bits on Linux) gives
    LONG_MAX or LONG_MIN.  The conversion to [int] keeps the low 32 bits,
    in two's complement: the text 4294967396 reads as 100. *)
Definition INT_MIN : Z := - 2 ^ 31.
Definition INT_MAX : Z := 2 ^ 31 - 1.
Definition LONG_MIN : Z := - 2 ^ 63.
Definition LONG_MAX : Z := 2 ^ 63 - 1.

Definition isspace (c : ascii) : bool :=
  let n := N_of_ascii c in ((9 <=? n) && (n <=? 13))%N || (n =? 32)%N.

Definition digit_val (c : ascii) : option Z :=
  let n := N_of_ascii c in
  if ((48 <=? n) && (n <=? 57))%N then Some (Z.of_N n - 48) else None.

Fixpoint atoi_digits (acc : Z) (s : string) : Z :=
  match s with
  | String c s' =>
      match digit_val c with
      | Some d => atoi_digits (10 * acc + d) s'
      | None => acc
      end
  | EmptyString => acc
  end.

(** The number that the text denotes, before any bound applies. *)
Fixpoint numeral (s : string) : Z :=
  match s with
  | String c s' =>
      if isspace c then numeral s'
      else if Ascii.eqb c "-" then - atoi_digits 0 s'
      else if Ascii.eqb c "+" then atoi_digits 0 s'
      else atoi_digits 0 s
  | EmptyString => 0
  end.

(** [strtol] in base 10, with its answer on overflow. *)
Definition strtol (s : string) : Z :=
  Z.max LONG_MIN (Z.min LONG_MAX (numeral s)).

(** The conversion of a [long] to [int]. *)
Definition int_of_long (v : Z) : Z := (v + 2 ^ 31) mod 2 ^ 32 - 2 ^ 31.

Definition atoi (s : string) : Z := int_of_long (strtol s).

(** [printf]'s [%d]. *)
Definition fmt_d (v : Z) : string :=
  if v <? 0 then "-" +:+ sio_ltoa (- v) 10 else sio_ltoa v 10.

Arguments sio_ltoa : simpl never.
Arguments fmt_d : simpl never.
Arguments atoi : simpl never.
Arguments String.append : simpl never.

(** ** The state-and-fault monad

    A computation of the process either returns, or dereferences a NULL
    pointer (the process dies of SIGSEGV), or calls [exit], or replaces
    its image with [execve]. *)

Inductive outcome (A : Type) : Type :=
| Ret (a : A) (s : shell)
| Fault (s : shell)
| Exit (code : Z) (s : shell)
| Exec (path : string) (args : list string) (s : shell).
Arguments Ret {A} a s.
Arguments Fault {A} s.
Arguments Exit {A} code s.
Arguments Exec {A} path args s.

Definition M (A : Type) : Type := shell -> outcome A.

Definition ret {A} (a : A) : M A := fun s => Ret a s.
Definition bind {A B} (m : M A) (f : A -> M B) : M B := fun s =>
  match m s with
  | Ret a s' => f a s'
  | Fault s' => Fault s'
  | Exit c s' => Exit c s'
  | Exec f a s' => Exec f a s'
  end.

Declare Scope shell_scope.
Delimit Scope shell_scope with sh.
Bind Scope shell_scope with M.
Notation "'do' x <- m ; k" := (bind m (fun x => k))
  (at level 10, x name, m at level 100, k at level 200) : shell_scope.
Notation "'run' m ; k" := (bind m (fun _ => k))
  (at level 10, m at level 100, k at level 200) : shell_scope.
Local Open Scope shell_scope.

Definition fault {A} : M A := fun s => Fault s.
Definition exit {A} (code : Z) : M A := fun s => Exit code s.
Definition exec_image {A} (path : string) (args : list string) : M A :=
  fun s => Exec path args s.
Definition get_jobs : M (list job_t) := fun s => Ret (job_list s) s.
Definition put_jobs (jl : list job_t) : M unit := fun s => Ret () (set_jobs jl s).
Definition get_nextjid : M Z := fun s => Ret (nextjid s) s.
Definition put_nextjid (n : Z) : M unit := fun s => Ret () (set_nextjid n s).
Definition get_verbose : M bool := fun s => Ret (verbose s) s.

(** [write(STDOUT_FILENO, s, strlen s)] *)
Definition add_sio (str : string) (s : shell) : shell :=
  mkshell (job_list s) (nextjid s) (verbose s) (sio_out s +:+ str)
          (stdio_out s) (sent s) (files s).
Definition sio_puts (str : string) : M unit := fun s => Ret () (add_sio str s).
Definition sio_putl (v : Z) : M unit := sio_puts (sio_ltoa v 10).

Definition add_stdio (str : string) (s : shell) : shell :=
  mkshell (job_list s) (nextjid s) (verbose s) (sio_out s)
          (stdio_out s +:+ str) (sent s) (files s).
Definition printf (str : string) : M unit :=
  fun s => Ret () (add_stdio str s).

Definition add_sent (target sig : Z) (s : shell) : shell :=
  mkshell (job_list s) (nextjid s) (verbose s) (sio_out s)
          (stdio_out s) (sent s ++ [(target, sig)]) (files s).
Definition kill (target sig : Z) : M unit :=
  fun s => Ret () (add_sent target sig s).

Definition add_file (name text : string) (s : shell) : shell :=
  mkshell (job_list s) (nextjid s) (verbose s) (sio_out s)
          (stdio_out s) (sent s) (files s ++ [(name, text)]).
Definition write_file (name text : string) : M unit :=
  fun s => Ret () (add_file name text s).

(** Reading through a job pointer: [job->field]. *)
Definition deref (job : option nat) : M job_t := fun s =>
  match job with
  | Some i =>
      match job_list s !! i with
      | Some j => Ret j s
      | None => Fault s
      end
  | None => Fault s
  end.

(** [job->state = st] *)
Definition store_state (job : option nat) (st : Z) : M unit :=
  do j <- deref job;
  do jl <- get_jobs;
  match job with
  | Some i => put_jobs (<[i := set_state st j]> jl)
  | None => fault
  end.

(** ** Helper routines that manipulate the job list *)

Definition clearjob (j : job_t) : job_t := mkjob 0 0 UNDEF "".

Definition initjobs (jl : list job_t) : list job_t := map clearjob jl.

Fixpoint maxjid_from (max : Z) (jl : list job_t) : Z :=
  match jl with
  | [] => max
  | j :: jl' => maxjid_from (if max <? jid j then jid j else max) jl'
  end.

Definition maxjid (jl : list job_t) : Z := maxjid_from 0 jl.

Definition addjob (p : Z) (st : Z) (cmd : string) : M Z :=
  if p <? 1 then ret 0
  else
    do jl <- get_jobs;
    match list_find (fun j => pid j = 0) jl with
    | Some (i, _) =>
        do n <- get_nextjid;
        run put_jobs (<[i := mkjob p n st cmd]> jl);
        run put_nextjid (if Z.of_nat MAXJOBS <? n + 1 then 1 else n + 1);
        do v <- get_verbose;
        run (if v then
               printf ("Added job [" +:+ fmt_d n +:+ "] " +:+ fmt_d p +:+ " "
                       +:+ cmd +:+ nl)
             else ret ());
        ret 1
    | None =>
        run printf ("Tried to create too many jobs" +:+ nl);
        ret 0
    end.

Definition deletejob (p : Z) : M Z :=
  if p <? 1 then ret 0
  else
    do jl <- get_jobs;
    match list_find (fun j => pid j = p) jl with
    | Some (i, j) =>
        let jl' := <[i := clearjob j]> jl in
        run put_jobs jl';
        run put_nextjid (maxjid jl' + 1);
        ret 1
    | None => ret 0
    end.

Definition fgpid (jl : list job_t) : Z :=
  match list_find (fun j => state j = FG) jl with
  | Some (_, j) => pid j
  | None => 0
  end.

Definition getjobpid (jl : list job_t) (p : Z) : option nat :=
  if p <? 1 then None
  else fst <$> list_find (fun j => pid j = p) jl.

Definition getjobjid (jl : list job_t) (id : Z) : option nat :=
  if id <? 1 then None
  else fst <$> list_find (fun j => jid j = id) jl.

Definition pid2jid (jl : list job_t) (p : Z) : Z :=
  if p <? 1 then 0
  else
    match list_find (fun j => pid j = p) jl with
    | Some (_, j) => jid j
    | None => 0
    end.

Definition listjobs_row (i : nat) (j : job_t) : string :=
  if decide (pid j = 0) then ""
  else
    "[" +:+ fmt_d (jid j) +:+ "] (" +:+ fmt_d (pid j) +:+ ") "
    +:+ (if decide (state j = BG) then "Running    "
         else if decide (state j = FG) then "Foreground "
         else if decide (state j = ST) then "Stopped    "
         else "listjobs: Internal error: job[" +:+ fmt_d (Z.of_nat i)
              +:+ "].state=" +:+ fmt_d (state j) +:+ " ")
    +:+ cmdline j +:+ nl.

Definition listjobs (jl : list job_t) : string :=
  String.concat "" (imap listjobs_row jl).

(** ** What the operating system answers during one [eval] *)

Record os := mkos {
  fork_pid : Z;                     (* what fork() returns in this process *)
  fork_err : string;                (* strerror text when fork fails *)
  reaped : list (Z * wstatus);      (* successive waitpid results in quit *)
  open_in_err : option string;      (* strerror text when open(infile) fails *)
  open_out_err : option string;     (* strerror text when open(outfile) fails *)
  execve_ok : bool                  (* does execve find and start the program *)
}.

(** [unix_error]: print the message and the error text, then [exit(1)]. *)
Definition unix_error {A} (msg err : string) : M A :=
  run printf (msg +:+ ": " +:+ err +:+ nl);
  exit 1.

(** [Open] as the callers use it: the descriptor is only passed on. *)
Definition Open (err : option string) : M unit :=
  match err with
  | Some e => unix_error "Open error" e
  | None => ret ()
  end.

(** [sio_puts(tok->argv[k])]: the argument may be the NULL that ends argv. *)
Definition sio_puts_arg (a : option string) : M unit :=
  match a with
  | Some str => sio_puts str
  | None => fault
  end.

Definition first_char_is (c : ascii) (str : string) : bool :=
  match str with
  | String c' _ => Ascii.eqb c' c
  | EmptyString => false
  end.

(** [ID_str + 1] *)
Definition str_tail (str : string) : string :=
  match str with
  | String _ rest => rest
  | EmptyString => EmptyString
  end.

(** ** Builtin executors *)

(** What the main flow does once a command has run up to its wait loop. *)
Inductive pending :=
| Done                     (* the command has returned *)
| WaitWhileFgIs (p : Z)    (* eval: while (pid == fgpid(job_list)) *)
| WaitWhileFg.             (* execute_fg: while (fgpid(job_list)) *)

(** [execute_quit]: reap what can be reaped, then leave. *)
Fixpoint execute_quit (evs : list (Z * wstatus)) : M unit :=
  match evs with
  | (p, status) :: evs' =>
      if 0 <? p then
        run (match status with
             | WStopped _ => kill (- p) SIGINT
             | _ => run deletejob p; ret ()
             end);
        execute_quit evs'
      else exit 0
  | [] => exit 0
  end.

(** [execute_fg], from its entry to the last check before the job is
    touched: it yields the resolved job pointer and pid, or nothing when
    it has already returned with a message. *)
Definition execute_fg_lookup (tok : cmdline_tokens)
  : M (option (option nat * Z)) :=
  let ID_str := argv tok !! 1%nat in
  if decide (argc tok <> 2) then
    run sio_puts_arg (argv tok !! 0%nat);
    run sio_puts (" please input one and only one ID argument" +:+ nl);
    ret None
  else
    match ID_str with
    | None => fault
    | Some str =>
        do r <-
          (if first_char_is "%" str then
             let id := atoi (str_tail str) in
             if decide (id = 0) then
               run sio_puts_arg (argv tok !! 0%nat);
               run sio_puts (": argument must be a nonzero %%jobid" +:+ nl);
               ret None
             else
               do jl <- get_jobs;
               let target_job := getjobjid jl id in
               do tj <- deref target_job;
               let p := pid tj in
               match target_job with
               | None =>
                   run sio_puts "[";
                   run sio_putl id;
                   run sio_puts ("]: job with this jid do not exist" +:+ nl);
                   ret None
               | Some _ => ret (Some (target_job, p))
               end
           else
             let p := atoi str in
             if decide (p = 0) then
               run sio_puts_arg (argv tok !! 0%nat);
               run sio_puts (": argument must be a nonzero PID" +:+ nl);
               ret None
             else
               do jl <- get_jobs;
               let target_job := getjobpid jl p in
               match target_job with
               | None =>
                   run sio_puts "(";
                   run sio_putl p;
                   run sio_puts ("): process with this pid do not exist" +:+ nl);
                   ret None
               | Some _ => ret (Some (target_job, p))
               end);
        match r with
        | None => ret None
        | Some (target_job, p) =>
            do tj <- deref target_job;
            if decide (state tj = UNDEF) then
              run sio_puts ("error: trying to fg a process not exist" +:+ nl);
              ret None
            else ret (Some (target_job, p))
        end
    end.

(** [execute_fg], the two statements that act on the resolved job. *)
Definition execute_fg_commit (target_job : option nat) (p : Z) : M unit :=
  do tj <- deref target_job;
  run (if decide (state tj = ST) then kill (- p) SIGCONT else ret ());
  store_state target_job FG.

Definition execute_fg (tok : cmdline_tokens) : M pending :=
  do r <- execute_fg_lookup tok;
  match r with
  | Some (target_job, p) =>
      run execute_fg_commit target_job p;
      ret WaitWhileFg
  | None => ret Done
  end.

Definition execute_bg (tok : cmdline_tokens) : M unit :=
  let ID_str := argv tok !! 1%nat in
  if decide (argc tok <> 2) then
    run sio_puts_arg (argv tok !! 0%nat);
    sio_puts (" please input one and only one ID argument" +:+ nl)
  else
    match ID_str with
    | None => fault
    | Some str =>
        do r <-
          (if first_char_is "%" str then
             let id := atoi (str_tail str) in
             if decide (id = 0) then
               run sio_puts_arg (argv tok !! 0%nat);
               run sio_puts (": argument must be a %%jobid" +:+ nl);
               ret None
             else
               do jl <- get_jobs;
               let target_job := getjobjid jl id in
               do tj <- deref target_job;
               let p := pid tj in
               match target_job with
               | None =>
                   run sio_puts "[";
                   run sio_putl id;
                   run sio_puts ("]: job with this jid do not exist" +:+ nl);
                   ret None
               | Some _ => ret (Some (target_job, p))
               end
           else
             let p := atoi str in
             if decide (p = 0) then
               run sio_puts_arg (argv tok !! 0%nat);
               run sio_puts (": argument must be a PID" +:+ nl);
               ret None
             else
               do jl <- get_jobs;
               let target_job := getjobpid jl p in
               match target_job with
               | None =>
                   run sio_puts "(";
                   run sio_putl p;
                   run sio_puts ("): process with this pid do not exist" +:+ nl);
                   ret None
               | Some _ => ret (Some (target_job, p))
               end);
        match r with
        | None => ret ()
        | Some (target_job, p) =>
            (* if (target_job == UNDEF): the pointer is compared with 0 *)
            match target_job with
            | None =>
                sio_puts ("error: trying to bg a process not exist" +:+ nl)
            | Some _ =>
                do tj <- deref target_job;
                run (if decide (state tj = ST) then kill (- p) SIGCONT
                     else ret ());
                run store_state target_job BG;
                run sio_puts "[";
                do tj1 <- deref target_job;
                run sio_putl (jid tj1);
                run sio_puts "] (";
                do tj2 <- deref target_job;
                run sio_putl (pid tj2);
                run sio_puts ") ";
                do tj3 <- deref target_job;
                run sio_puts (cmdline tj3);
                sio_puts nl
            end
        end
    end.

(** [builtin_command]: 1 when argv[0] is a builtin, which has then run up
    to its wait loop.  The writes of [listjobs] and [Close] are taken to
    succeed. *)
Definition builtin_command (tok : cmdline_tokens) (o : os) : M (Z * pending) :=
  match builtins tok with
  | BUILTIN_QUIT =>
      run execute_quit (reaped o);
      ret (0, Done)
  | BUILTIN_JOBS =>
      do jl <- get_jobs;
      run (match outfile tok with
           | Some name =>
               run Open (open_out_err o);
               write_file name (listjobs jl)
           | None => sio_puts (listjobs jl)
           end);
      ret (1, Done)
  | BUILTIN_FG =>
      do w <- execute_fg tok;
      ret (1, w)
  | BUILTIN_BG =>
      run execute_bg tok;
      ret (1, Done)
  | BUILTIN_NONE => ret (0, Done)
  end.

(** ** eval

    [parseline] is the tokenizer: its result, the background flag [bg]
    (-1 on a parse error) and the tokens, is given.  [Fork] returns twice;
    the forked child goes on with [eval_child] in its own copy of the
    state, the shell goes on with [eval_parent].  The signal mask, the
    process groups and the descriptors that [dup2] moves are not part of
    the state: which handler may run when is the business of [step]
    below. *)

Definition eval_child (tok : cmdline_tokens) (o : os) : M pending :=
  run (match infile tok with
       | Some _ => Open (open_in_err o)
       | None => ret ()
       end);
  run (match outfile tok with
       | Some _ => Open (open_out_err o)
       | None => ret ()
       end);
  run (match argv tok !! 0%nat, execve_ok o with
       | Some path, true => exec_image path (argv tok)
       | _, _ =>
           (* execve(...) < 0 *)
           run sio_puts_arg (argv tok !! 0%nat);
           sio_puts ("s: Command not found." +:+ nl)
       end);
  exit 0.

Definition eval_parent (bg p : Z) (cmd : string) : M pending :=
  run addjob p (bg + 1) cmd;
  do jl <- get_jobs;
  let id := pid2jid jl p in
  if decide (bg = 0) then ret (WaitWhileFgIs p)
  else
    run sio_puts "[";
    run sio_putl id;
    run sio_puts "] (";
    run sio_putl p;
    run sio_puts ") ";
    run sio_puts cmd;
    run sio_puts nl;
    ret Done.

Definition eval (cmd : string) (bg : Z) (tok : cmdline_tokens) (o : os)
  : M pending :=
  if decide (bg = -1) then ret Done
  else
    match argv tok !! 0%nat with
    | None => ret Done
    | Some _ =>
        do b <- builtin_command tok o;
        if decide (b.1 = 0) then
          if fork_pid o <? 0 then unix_error "Fork error" (fork_err o)
          else if decide (fork_pid o = 0) then eval_child tok o
          else eval_parent bg (fork_pid o) cmd
        else ret b.2
    end.

(** ** Signal handlers *)

(** One round of the reaping loop of [sigchld_handler]. *)
Definition sigchld_reap (p : Z) (status : wstatus) : M unit :=
  do jl <- get_jobs;
  let job := getjobpid jl p in
  match status with
  | WStopped sig =>
      do j <- deref job;
      if decide (state j <> ST) then
        run sio_puts "Job [";
        do j1 <- deref job;
        run sio_putl (jid j1);
        run sio_puts "] (";
        do j2 <- deref job;
        run sio_putl (pid j2);
        run sio_puts ") stopped by signal ";
        run sio_putl sig;
        run sio_puts nl;
        store_state job ST
      else ret ()
  | WSignaled sig =>
      run sio_puts "Job [";
      do j1 <- deref job;
      run sio_putl (jid j1);
      run sio_puts "] (";
      do j2 <- deref job;
      run sio_putl (pid j2);
      run sio_puts ") terminated by signal ";
      run sio_putl sig;
      run sio_puts nl;
      run deletejob p;
      ret ()
  | WExited _ =>
      run deletejob p;
      ret ()
  | WOther => ret ()
  end.

(** [sigchld_handler]: [evs] are the successive results of
    [waitpid(-1, &status, WNOHANG | WUNTRACED)]; the loop ends at the
    first one that is not positive. *)
Fixpoint sigchld_handler (evs : list (Z * wstatus)) : M unit :=
  match evs with
  | (p, status) :: evs' =>
      if 0 <? p then
        run sigchld_reap p status;
        sigchld_handler evs'
      else ret ()
  | [] => ret ()
  end.

Definition sigint_handler (sig : Z) : M unit :=
  do jl <- get_jobs;
  let p := fgpid jl in
  if decide (p <> 0) then kill (- p) sig else ret ().

Definition sigtstp_handler (sig : Z) : M unit :=
  do jl <- get_jobs;
  let p := fgpid jl in
  let id := pid2jid jl p in
  let job := getjobpid jl p in
  if decide (p <> 0) then
    run sio_puts "Job [";
    run sio_putl id;
    run sio_puts "] (";
    run sio_putl p;
    run sio_puts ") stopped by signal ";
    run sio_putl sig;
    run sio_puts nl;
    run store_state job ST;
    kill (- p) sig
  else ret ().

(** The shell right after [main] has run [initjobs]. *)
Definition init_shell (v : bool) : shell :=
  mkshell (initjobs (replicate MAXJOBS zero_job)) 1 v "" "" [] [].

Arguments deletejob : simpl never.
Arguments addjob : simpl never.
Arguments store_state : simpl never.
Arguments fgpid : simpl never.
Arguments getjobpid : simpl never.
Arguments getjobjid : simpl never.
Arguments pid2jid : simpl never.
Arguments maxjid : simpl never.

(** ** parseline *)

Definition MAXLINE : nat := 1024.          (* max line size *)
Definition MAXARGS : nat := 128.           (* max args on a command line *)

(** Parsing states, used for [parseline]. *)
Definition ST_NORMAL : Z := 0.
Definition ST_INFILE : Z := 1.
Definition ST_OUTFILE : Z := 2.

(** A C string ends at its first NUL: what [strncpy] copies and [strlen]
    measures. *)
Fixpoint c_str (s : string) : string :=
  match s with
  | String c s' => if Ascii.eqb c zero then EmptyString else String c (c_str s')
  | EmptyString => EmptyString
  end.

(** [delims], the white space that separates arguments: blank, tab,
    carriage return, newline. *)
Definition is_delim (c : ascii) : bool :=
  Ascii.eqb c " " || Ascii.eqb c (ascii_of_nat 9)
  || Ascii.eqb c (ascii_of_nat 13) || Ascii.eqb c (ascii_of_nat 10).

(** [buf += strspn(buf, delims)] *)
Fixpoint skip_delims (buf : string) : string :=
  match buf with
  | String c buf' => if is_delim c then skip_delims buf' else buf
  | EmptyString => EmptyString
  end.

(** [next = buf + strcspn(buf, delims)]: the text before [next] and the
    text from [next] on. *)
Fixpoint strcspn_delims (buf : string) : string * string :=
  match buf with
  | String c buf' =>
      if is_delim c then (EmptyString, buf)
      else let r := strcspn_delims buf' in (String c r.1, r.2)
  | EmptyString => (EmptyString, EmptyString)
  end.

(** [next = strchr(buf, q)]: NULL when [q] does not occur. *)
Fixpoint strchr (buf : string) (q : ascii) : option (string * string) :=
  match buf with
  | String c buf' =>
      if Ascii.eqb c q then Some (EmptyString, buf)
      else match strchr buf' q with
           | Some r => Some (String c r.1, r.2)
           | None => None
           end
  | EmptyString => None
  end.

(** The locals and the fields of [tok] that the loop of [parseline]
    updates. *)
Record parse_state := mkparse {
  p_argv : list string;
  p_infile : option string;
  p_outfile : option string;
  parsing_state : Z
}.

(** How the loop is left: by [return -1] after a message on stderr, or
    through its end or a [break]. *)
Inductive loop_exit :=
| LoopReturn (msg : string)
| LoopEnd (st : parse_state).

(** The messages that [parseline] prints on stderr. *)
Definition ambiguous : string := "Error: Ambiguous I/O redirection" +:+ nl.
Definition unmatched (q : ascii) : string :=
  "Error: unmatched " +:+ String q "" +:+ "." +:+ nl.
Definition must_provide : string :=
  "Error: must provide file name for redirection" +:+ nl.

(** The [while (buf < endbuf)] loop; [buf] is the text from the pointer
    [buf] up to [endbuf].  Every round moves [buf] forward, so a round per
    character (and one more to see the end) is enough: [fuel] counts the
    rounds, [None] says that it ran out. *)
Fixpoint parseline_loop (fuel : nat) (buf : string) (st : parse_state)
  : option loop_exit :=
  match fuel with
  | O => None
  | S fuel' =>
      match buf with
      | EmptyString => Some (LoopEnd st)
      | String _ _ =>
          match skip_delims buf with
          | EmptyString => Some (LoopEnd st)
          | String c rest =>
              if Ascii.eqb c "<" then
                match p_infile st with
                | Some _ => Some (LoopReturn ambiguous)
                | None =>
                    parseline_loop fuel' rest
                      (mkparse (p_argv st) (p_infile st) (p_outfile st)
                               (Z.lor (parsing_state st) ST_INFILE))
                end
              else if Ascii.eqb c ">" then
                match p_outfile st with
                | Some _ => Some (LoopReturn ambiguous)
                | None =>
                    parseline_loop fuel' rest
                      (mkparse (p_argv st) (p_infile st) (p_outfile st)
                               (Z.lor (parsing_state st) ST_OUTFILE))
                end
              else
                let next :=
                  if Ascii.eqb c "'" || Ascii.eqb c (ascii_of_nat 34)
                  then strchr rest c
                  else Some (strcspn_delims (String c rest)) in
                match next with
                | None => Some (LoopReturn (unmatched c))
                | Some (token, from_next) =>
                    let recorded :=
                      if decide (parsing_state st = ST_NORMAL) then
                        Some (mkparse (p_argv st ++ [token]) (p_infile st)
                                      (p_outfile st) ST_NORMAL)
                      else if decide (parsing_state st = ST_INFILE) then
                        Some (mkparse (p_argv st) (Some token)
                                      (p_outfile st) ST_NORMAL)
                      else if decide (parsing_state st = ST_OUTFILE) then
                        Some (mkparse (p_argv st) (p_infile st)
                                      (Some token) ST_NORMAL)
                      else None in
                    match recorded with
                    | None => Some (LoopReturn ambiguous)
                    | Some st' =>
                        if (MAXARGS - 1 <=? length (p_argv st'))%nat
                        then Some (LoopEnd st')
                        else parseline_loop fuel' (str_tail from_next) st'
                    end
                end
          end
      end
  end.

(** The chain of [strcmp] on [argv[0]]. *)
Definition builtin_of (arg0 : string) : builtins_t :=
  if String.eqb arg0 "quit" then BUILTIN_QUIT
  else if String.eqb arg0 "jobs" then BUILTIN_JOBS
  else if String.eqb arg0 "bg" then BUILTIN_BG
  else if String.eqb arg0 "fg" then BUILTIN_FG
  else BUILTIN_NONE.

(** What [parseline] hands back: its return value, the tokens, and what it
    wrote on stderr. *)
Record parsed := mkparsed {
  is_bg : Z;
  tokens : cmdline_tokens;
  diagnostic : string
}.

(** [tok->builtins] is not written on a blank line, [tok->argv], and the
    fields after an error, are whatever the loop left: [eval] reads none of
    them then. *)
Definition parse_failure (msg : string) : parsed :=
  mkparsed (-1) (mktok 0 [] None None BUILTIN_NONE) msg.

(** [parseline]: [None] when the line does not fit the buffer of [MAXLINE]
    bytes ([strncpy] then leaves the copy without its NUL and [strlen]
    runs off the array). *)
Definition parseline (cmdline : string) : option parsed :=
  let buf := c_str cmdline in
  if decide (String.length buf < MAXLINE)%nat then
    match parseline_loop (S (String.length buf)) buf
                         (mkparse [] None None ST_NORMAL) with
    | None => None
    | Some (LoopReturn msg) => Some (parse_failure msg)
    | Some (LoopEnd st) =>
        if decide (parsing_state st <> ST_NORMAL) then
          Some (parse_failure must_provide)
        else
          match p_argv st with
          | [] =>
              Some (mkparsed 1 (mktok 0 [] (p_infile st) (p_outfile st)
                                      BUILTIN_NONE) "")
          | arg0 :: _ =>
              let b := builtin_of arg0 in
              if first_char_is "&" (List.last (p_argv st) "") then
                Some (mkparsed 1
                        (mktok (Z.of_nat (length (p_argv st)) - 1)
                               (removelast (p_argv st))
                               (p_infile st) (p_outfile st) b) "")
              else
                Some (mkparsed 0
                        (mktok (Z.of_nat (length (p_argv st))) (p_argv st)
                               (p_infile st) (p_outfile st) b) "")
          end
    end
  else None.

(** ** eval on the text of a command line

    [eval] as [main] calls it, with [parseline] first.  A line that [main]
    has read with [fgets] fits the buffer of [parseline]; one that does not
    is outside what C defines, and is taken as a fault.  What [parseline]
    writes on stderr is its [diagnostic]; stderr is not part of [shell]. *)
Definition eval_cmdline (cmdline : string) (o : os) : M pending :=
  match parseline cmdline with
  | Some r => eval (c_str cmdline) (is_bg r) (tokens r) o
  | None => fault
  end.

(** ** The sio helpers

    [sio_ltoa] above writes the digits and reverses them; [sio_reverse]
    is the routine that does it. *)

(** [sio_reverse]: the characters [s[i]] and [s[j]] are swapped while
    [i < j]; [s] is the text before the NUL.  Every round brings [i] and
    [j] closer, so a round per character (and one more to see the end) is
    enough: [fuel] counts the rounds, [None] says that it ran out, or that
    an index left the string. *)
Fixpoint sio_reverse_loop (fuel : nat) (i j : Z) (s : list ascii)
  : option (list ascii) :=
  match fuel with
  | O => None
  | S fuel' =>
      if i <? j then
        match s !! Z.to_nat i, s !! Z.to_nat j with
        | Some si, Some sj =>
            sio_reverse_loop fuel' (i + 1) (j - 1)
              (<[Z.to_nat j := si]> (<[Z.to_nat i := sj]> s))
        | _, _ => None
        end
      else Some s
  end.

Definition sio_reverse (s : list ascii) : option (list ascii) :=
  sio_reverse_loop (S (length s)) 0 (Z.of_nat (length s) - 1) s.

(** ** Properties of the job table used by the theorems *)

(** A slot with [pid = 0] is unused and carries nothing else. *)
Definition slot_cleared (j : job_t) : Prop :=
  pid j = 0 -> jid j = 0 /\ state j = UNDEF.

Definition free_cleared (jl : list job_t) : Prop := Forall slot_cleared jl.

(** The part of it that [maxjid] relies on: an unused slot has id 0. *)
Definition slot_unnumbered (j : job_t) : Prop := pid j = 0 -> jid j = 0.

Definition free_unnumbered (jl : list job_t) : Prop :=
  Forall slot_unnumbered jl.

#[global] Instance slot_unnumbered_dec j : Decision (slot_unnumbered j).
Proof. unfold slot_unnumbered. apply _. Defined.
#[global] Instance free_unnumbered_dec jl : Decision (free_unnumbered jl).
Proof. unfold free_unnumbered. apply _. Defined.

#[global] Instance slot_cleared_dec j : Decision (slot_cleared j).
Proof. unfold slot_cleared. apply _. Defined.
#[global] Instance free_cleared_dec jl : Decision (free_cleared jl).
Proof. unfold free_cleared. apply _. Defined.

(** The largest id among the occupied slots, 0 when there is none. *)
Definition max_occupied_jid (jl : list job_t) : Z :=
  foldr Z.max 0 (jid <$> filter (fun j => pid j <> 0) jl).

(** The pids of the slots whose state is FG, in table order. *)
Definition fg_pids (jl : list job_t) : list Z :=
  pid <$> filter (fun j => state j = FG) jl.

Definition count_fg (jl : list job_t) : nat := length (fg_pids jl).

(** The final state of a computation, whatever its outcome. *)
Definition final {A} (o : outcome A) : shell :=
  match o with
  | Ret _ s | Fault s | Exit _ s | Exec _ _ s => s
  end.

(** The notification lines of section 6 of the specification. *)
Definition stopped_line (id p sig : Z) : string :=
  "Job [" +:+ sio_ltoa id 10 +:+ "] (" +:+ sio_ltoa p 10
  +:+ ") stopped by signal " +:+ sio_ltoa sig 10 +:+ nl.

Definition terminated_line (id p sig : Z) : string :=
  "Job [" +:+ sio_ltoa id 10 +:+ "] (" +:+ sio_ltoa p 10
  +:+ ") terminated by signal " +:+ sio_ltoa sig 10 +:+ nl.

(** The table after [deletejob] has cleared slot [i]. *)
Definition deleted (i : nat) (s : shell) : shell :=
  let jl' := alter clearjob i (job_list s) in
  set_nextjid (maxjid jl' + 1) (set_jobs jl' s).

(** The table after [job->state = st] on slot [i]. *)
Definition with_state (i : nat) (st : Z) (s : shell) : shell :=
  set_jobs (alter (set_state st) i (job_list s)) s.

(** A full table: sixteen background jobs. *)
Definition full_table : shell :=
  mkshell (imap (fun i _ => mkjob (Z.of_nat i + 100) (Z.of_nat i + 1) BG
                                  "/bin/sleep 100 &")
                (replicate MAXJOBS zero_job))
          1 false "" "" [] [].

(** Two background jobs, as two launches leave them. *)
Definition two_jobs : shell :=
  final (eval_parent 1 101 "/bin/sleep 2 &"
           (final (eval_parent 1 100 "/bin/sleep 1 &" (init_shell false)))).

(** ** A model of the running shell

    The main flow reads a command and runs [eval] up to its return or up
    to its wait loop; while it waits in [sigsuspend], and between two
    commands, the handlers run.  [execute_fg] runs with no signal blocked
    ([builtin_command] restores the mask right after blocking), so a
    handler may also run between its lookup and its update of the job:
    the events [FgResolve] and [FgCommit] split it there.  A handler runs
    as a whole: the handlers block every signal around their updates, and
    one handler interrupting another is not modelled. *)

Inductive control :=
| AtPrompt                                   (* main is between two evals *)
| InEvalWait (p : Z)                         (* eval's wait loop for pid p *)
| InFgWait                                   (* execute_fg's wait loop *)
| InFgBetween (target_job : option nat) (p : Z).

Inductive event :=
| Command (cmd : string) (bg : Z) (tok : cmdline_tokens) (o : os)
| FgResolve (tok : cmdline_tokens)
| FgCommit
| Wake
| Sigchld (evs : list (Z * wstatus))
| Sigint
| Sigtstp.

Definition config : Type := shell * control.

Definition control_of (w : pending) : control :=
  match w with
  | Done => AtPrompt
  | WaitWhileFgIs p => InEvalWait p
  | WaitWhileFg => InFgWait
  end.

(** The process goes on only when the computation returns. *)
Definition continue {A} (o : outcome A) (k : A -> control) : option config :=
  match o with
  | Ret a s => Some (s, k a)
  | _ => None
  end.

(** One event.  With [preempt = false] every builtin is atomic with respect
    to the handlers; with [preempt = true] a handler may run inside
    [execute_fg]. *)
Definition step (preempt : bool) (e : event) (c : config) : option config :=
  match e, c.2 with
  | Command cmd bg tok o, AtPrompt =>
      continue (eval cmd bg tok o c.1) control_of
  | FgResolve tok, AtPrompt =>
      match preempt, builtins tok, argv tok !! 0%nat with
      | true, BUILTIN_FG, Some _ =>
          continue (execute_fg_lookup tok c.1)
                   (fun r => match r with
                             | Some (target_job, p) => InFgBetween target_job p
                             | None => AtPrompt
                             end)
      | _, _, _ => None
      end
  | FgCommit, InFgBetween target_job p =>
      continue (execute_fg_commit target_job p c.1) (fun _ => InFgWait)
  | Wake, InEvalWait p =>
      if decide (p = fgpid (job_list c.1)) then None else Some (c.1, AtPrompt)
  | Wake, InFgWait =>
      if decide (fgpid (job_list c.1) <> 0) then None else Some (c.1, AtPrompt)
  | Sigchld evs, k => continue (sigchld_handler evs c.1) (fun _ => k)
  | Sigint, k => continue (sigint_handler SIGINT c.1) (fun _ => k)
  | Sigtstp, k => continue (sigtstp_handler SIGTSTP c.1) (fun _ => k)
  | _, _ => None
  end.

Fixpoint run_events (preempt : bool) (evs : list event) (c : config)
  : option config :=
  match evs with
  | [] => Some c
  | e :: evs' =>
      match step preempt e c with
      | Some c' => run_events preempt evs' c'
      | None => None
      end
  end.

Definition reachable (preempt : bool) (c : config) : Prop :=
  exists v evs, run_events preempt evs (init_shell v, AtPrompt) = Some c.

Definition one_foreground : shell :=
  final (eval_parent 0 100 "/bin/sleep 9" (init_shell false)).

Definition fg_tok (arg : string) : cmdline_tokens :=
  mktok 2 ["fg"; arg] None None BUILTIN_FG.
Definition bg_tok (arg : string) : cmdline_tokens :=
  mktok 2 ["bg"; arg] None None BUILTIN_BG.
Definition no_os : os := mkos 0 "" [] None None false.

(** ** Sample runs *)

(** Seventeen background launches: the table takes sixteen, the last
    child (pid 116) runs untracked. *)
Definition launch_bg (k : nat) : event :=
  Command "/bin/sleep 100 &" 1
          (mktok 2 ["/bin/sleep"; "100"] None None BUILTIN_NONE)
          (mkos (Z.of_nat k + 100) "" [] None None true).

Definition untracked_trace : list event := launch_bg <$> seq 0 17.

Definition after_untracked_launch : config :=
  default (init_shell false, AtPrompt)
          (run_events false untracked_trace (init_shell false, AtPrompt)).

(** Sixteen background launches fill the table. *)
Definition fill_trace : list event := launch_bg <$> seq 0 16.

(** Fifteen launches, the second job exits, two more launches. *)
Definition wrap_trace : list event :=
  (launch_bg <$> seq 0 15) ++ [Sigchld [(101, WExited 0)]]
  ++ (launch_bg <$> seq 15 2).

(** Two background jobs; [fg %2] resolves the second; before it sets the
    state, both children exit and the handler clears their slots; the
    update then marks the cleared slot FG, the wait loop sees pid 0 and
    returns; the next foreground launch takes the first free slot. *)
Definition race_trace : list event :=
  [ launch_bg 0; launch_bg 1;
    FgResolve (fg_tok "%2");
    Sigchld [(100, WExited 0); (101, WExited 0)];
    FgCommit;
    Wake;
    Command "/bin/sleep 5" 0
            (mktok 2 ["/bin/sleep"; "5"] None None BUILTIN_NONE)
            (mkos 102 "" [] None None true) ].

(** A step of the table that keeps the unused slots cleared and brings no
    job into the foreground. *)
Definition shrinks (jl jl' : list job_t) : Prop :=
  free_cleared jl ->
  free_cleared jl' /\ fg_pids jl' `sublist_of` fg_pids jl.

(** The invariant of the shell whose builtins are not interrupted: the
    unused slots are cleared, nothing is in the foreground while the main
    loop reads a command, and while a command waits the only foreground
    job is the one it waits for. *)
Definition fg_inv (c : config) : Prop :=
  free_cleared (job_list c.1) /\
  match c.2 with
  | AtPrompt => fg_pids (job_list c.1) = []
  | InEvalWait p => fg_pids (job_list c.1) = [] \/ fg_pids (job_list c.1) = [p]
  | InFgWait => (length (fg_pids (job_list c.1)) <= 1)%nat
  | InFgBetween _ _ => False
  end.

(** ** Command lines as lists of items

    The form that the source documents,
    [command [arguments...] [< infile] [> outfile] [&]], written as a list
    of words and redirections and rendered with single blanks. *)

(** A character of a plain word: no white space, no NUL. *)
Definition plain_char (c : ascii) : bool :=
  negb (is_delim c) && negb (Ascii.eqb c zero).

Fixpoint all_chars (P : ascii -> bool) (s : string) : bool :=
  match s with
  | String c s' => P c && all_chars P s'
  | EmptyString => true
  end.

(** A plain word is not empty and starts with no operator and no quote. *)
Definition plain_word (w : string) : bool :=
  match w with
  | String c _ =>
      negb (Ascii.eqb c "<") && negb (Ascii.eqb c ">")
      && negb (Ascii.eqb c "'") && negb (Ascii.eqb c (ascii_of_nat 34))
      && all_chars plain_char w
  | EmptyString => false
  end.

Inductive item :=
| Word (w : string)
| Infile (f : string)
| Outfile (f : string).

Definition item_text (it : item) : string :=
  match it with Word w | Infile w | Outfile w => w end.

Definition render_item (it : item) : string :=
  match it with
  | Word w => w
  | Infile f => "< " +:+ f
  | Outfile f => "> " +:+ f
  end.

Definition render (items : list item) : string :=
  String.concat " " (render_item <$> items).

Definition words (items : list item) : list string :=
  omap (fun it => match it with Word w => Some w | _ => None end) items.
Definition infiles (items : list item) : list string :=
  omap (fun it => match it with Infile w => Some w | _ => None end) items.
Definition outfiles (items : list item) : list string :=
  omap (fun it => match it with Outfile w => Some w | _ => None end) items.

Definition plain_item (it : item) : Prop := plain_word (item_text it) = true.

(** The single and the double quote. *)
Definition is_quote (q : ascii) : Prop := q = "'"%char \/ q = ascii_of_nat 34.

(** The tokens of a command line made of [items], whose first word is
    [arg0]. *)
Definition tok_of (items : list item) (arg0 : string) : cmdline_tokens :=
  mktok (Z.of_nat (length (words items))) (words items)
        (head (infiles items)) (head (outfiles items)) (builtin_of arg0).

(** What the loop makes of a list of items, read item by item. *)
Fixpoint expect (items : list item) (st : parse_state) : loop_exit :=
  match items with
  | [] => LoopEnd st
  | Word w :: items' =>
      expect items' (mkparse (p_argv st ++ [w]) (p_infile st) (p_outfile st)
                             ST_NORMAL)
  | Infile f :: items' =>
      match p_infile st with
      | Some _ => LoopReturn ambiguous
      | None =>
          expect items' (mkparse (p_argv st) (Some f) (p_outfile st) ST_NORMAL)
      end
  | Outfile f :: items' =>
      match p_outfile st with
      | Some _ => LoopReturn ambiguous
      | None =>
          expect items' (mkparse (p_argv st) (p_infile st) (Some f) ST_NORMAL)
      end
  end.

(** The rounds of the loop that the items take. *)
Fixpoint rounds (items : list item) : nat :=
  match items with
  | [] => 0
  | Word _ :: items' => S (rounds items')
  | _ :: items' => S (S (rounds items'))
  end.

(** The text after a token: the end of the line, or white space. *)
Definition ends_token (x : string) : bool :=
  match x with
  | String c _ => is_delim c
  | EmptyString => true
  end.

(** ** The shell after an operation *)

(** The shell after [addjob] has put the job into slot [i]. *)
Definition added (i : nat) (p st : Z) (cmd : string) (s : shell) : shell :=
  let n := nextjid s in
  let s1 :=
    set_nextjid (if Z.of_nat MAXJOBS <? n + 1 then 1 else n + 1)
      (set_jobs (<[i := mkjob p n st cmd]> (job_list s)) s) in
  if verbose s then
    add_stdio ("Added job [" +:+ fmt_d n +:+ "] " +:+ fmt_d p +:+ " "
               +:+ cmd +:+ nl) s1
  else s1.

(** What [addjob] hands to [printf] when it stores a job: one line when
    the shell runs with [-v], nothing otherwise. *)
Definition added_note (v : bool) (id p : Z) (cmd : string) : string :=
  if v then
    "Added job [" +:+ fmt_d id +:+ "] " +:+ fmt_d p +:+ " " +:+ cmd +:+ nl
  else "".

(** The line that announces a background job ([eval], [execute_bg]). *)
Definition job_line (id p : Z) (cmd : string) : string :=
  "[" +:+ sio_ltoa id 10 +:+ "] (" +:+ sio_ltoa p 10 +:+ ") " +:+ cmd +:+ nl.

(** A decimal digit, as [atoi] reads it. *)
Definition is_digit (c : ascii) : bool :=
  match digit_val c with Some _ => true | None => false end.



(** The signals that [execute_quit] sends: SIGINT to the group of every
    child reaped as stopped, up to the first [waitpid] result that is not
    positive. *)
Fixpoint quit_signals (evs : list (Z * wstatus)) : list (Z * Z) :=
  match evs with
  | (p, status) :: evs' =>
      if 0 <? p then
        match status with
        | WStopped _ => (- p, SIGINT) :: quit_signals evs'
        | _ => quit_signals evs'
        end
      else []
  | [] => []
  end.

(** What a handler may do to a slot: leave it, mark a job stopped, clear
    it. *)
Definition slot_after (j j' : job_t) : Prop :=
  j' = j \/ (j' = set_state ST j /\ 0 < pid j) \/ j' = clearjob j.

(** What [execute_quit] may do to a slot: leave it or clear it. *)
Definition slot_kept_or_cleared (j j' : job_t) : Prop :=
  j' = j \/ j' = clearjob j.

(** A slot is unused and unnumbered, or holds a job whose pid and job id
    are positive. *)
Definition slot_wf (j : job_t) : Prop :=
  (pid j = 0 /\ jid j = 0) \/ (1 <= pid j /\ 1 <= jid j).

(** The table has its slots, and the next job id is positive. *)
Definition table_wf (s : shell) : Prop :=
  length (job_list s) = MAXJOBS /\ 1 <= nextjid s /\
  Forall slot_wf (job_list s).

(** ** Proof automation *)

Ltac unfold_shell :=
  unfold bind, ret, fault, exit, exec_image, get_jobs, put_jobs, get_nextjid,
    put_nextjid, get_verbose, sio_putl, sio_puts, printf, kill, write_file,
    set_jobs, set_nextjid in *.

Ltac shell_inv H :=
  unfold Open, unix_error, sio_puts_arg in H;
  unfold bind, ret, fault, exit, exec_image, get_jobs, put_jobs,
    get_nextjid, put_nextjid, get_verbose, sio_putl, sio_puts, printf,
    kill, write_file, deref in H;
  cbn in H; simplify_eq;
  repeat (case_match; cbn in *; simplify_eq).

(** * Lemmas *)

(** ** Lemmas on the job list *)

Section JobList.
Implicit Types (jl : list job_t) (j : job_t) (i : nat) (p : Z).

Lemma foldr_max_base (l : list Z) (a m : Z) :
  foldr Z.max (Z.max a m) l = Z.max a (foldr Z.max m l).
Proof. induction l as [|x l IH]; simpl; [done|]. rewrite IH. lia. Qed.

Lemma maxjid_from_foldr jl : forall m,
  maxjid_from m jl = foldr Z.max m (jid <$> jl).
Proof.
  induction jl as [|j jl IH]; intros m; [done|].
  rewrite fmap_cons. cbn [maxjid_from foldr]. rewrite IH.
  rewrite <- foldr_max_base. f_equal.
  destruct (Z.ltb_spec m (jid j)); lia.
Qed.

Lemma foldr_max_nonneg (l : list Z) : 0 <= foldr Z.max 0 l.
Proof. induction l; simpl; lia. Qed.

(** On a table whose unused slots have id 0, the scan of [maxjid] over
    all slots finds the largest id of the occupied ones. *)
Lemma maxjid_occupied jl :
  free_unnumbered jl -> maxjid jl = max_occupied_jid jl.
Proof.
  unfold maxjid, max_occupied_jid. rewrite maxjid_from_foldr.
  induction 1 as [|j jl Hj _ IH]; [done|].
  rewrite filter_cons, fmap_cons. cbn [foldr]. rewrite IH.
  destruct (decide (pid j <> 0)) as [Hp|Hp]; [done|].
  rewrite Hj by lia.
  pose proof (foldr_max_nonneg (jid <$> filter (fun j => pid j <> 0) jl)).
  lia.
Qed.

Lemma slot_cleared_clearjob j : slot_cleared (clearjob j).
Proof. by intros _. Qed.

Lemma free_cleared_unnumbered jl : free_cleared jl -> free_unnumbered jl.
Proof.
  intros H. eapply Forall_impl; [exact H|].
  intros j Hj H0. by destruct (Hj H0).
Qed.

Lemma free_unnumbered_state jl i st :
  free_unnumbered jl -> free_unnumbered (alter (set_state st) i jl).
Proof. intros H. apply Forall_alter; [done|]. by intros j _ Hj. Qed.

Lemma free_unnumbered_clear jl i :
  free_unnumbered jl -> free_unnumbered (alter clearjob i jl).
Proof. intros H. apply Forall_alter; [done|]. by intros j _ _ _. Qed.

Lemma free_unnumbered_insert jl i j :
  free_unnumbered jl -> pid j <> 0 -> free_unnumbered (<[i := j]> jl).
Proof. intros H Hp. apply Forall_insert; [done|]. by intros ?. Qed.

Lemma free_cleared_insert jl i j :
  free_cleared jl -> slot_cleared j -> free_cleared (<[i := j]> jl).
Proof. intros. by apply Forall_insert. Qed.

Lemma free_cleared_initjobs jl : free_cleared (initjobs jl).
Proof.
  unfold free_cleared, initjobs. apply Forall_forall.
  intros j Hj. apply list_elem_of_fmap in Hj as (j0 & -> & _).
  apply slot_cleared_clearjob.
Qed.

(** What the scans of the table return. *)
Lemma getjobpid_Some jl p i :
  getjobpid jl p = Some i ->
  0 < p /\ exists j, jl !! i = Some j /\ pid j = p.
Proof.
  unfold getjobpid. destruct (Z.ltb_spec p 1); [done|].
  destruct (list_find _ jl) as [[i' j]|] eqn:E; [|done].
  intros [= <-]. apply list_find_Some in E as (? & ? & _).
  split; [lia|]. eauto.
Qed.

Lemma getjobpid_None jl p :
  getjobpid jl p = None -> p < 1 \/ Forall (fun j => pid j <> p) jl.
Proof.
  unfold getjobpid. destruct (Z.ltb_spec p 1); [auto|].
  destruct (list_find _ jl) as [[i' j]|] eqn:E; [done|].
  intros _. right. by apply list_find_None in E.
Qed.

Lemma getjobjid_Some jl id i :
  getjobjid jl id = Some i ->
  0 < id /\ exists j, jl !! i = Some j /\ jid j = id.
Proof.
  unfold getjobjid. destruct (Z.ltb_spec id 1); [done|].
  destruct (list_find _ jl) as [[i' j]|] eqn:E; [|done].
  intros [= <-]. apply list_find_Some in E as (? & ? & _).
  split; [lia|]. eauto.
Qed.

Lemma getjobjid_None jl id :
  getjobjid jl id = None <-> id < 1 \/ Forall (fun j => jid j <> id) jl.
Proof.
  unfold getjobjid. destruct (Z.ltb_spec id 1).
  - split; auto.
  - destruct (list_find _ jl) as [[i' j]|] eqn:E; simpl.
    + split; [done|]. intros [?|HF]; [lia|].
      apply list_find_Some in E as (Hi & Hj & _).
      rewrite Forall_forall in HF. exfalso.
      eapply HF; [|exact Hj]. by eapply list_elem_of_lookup_2.
    + split; [|done]. intros _. right. by apply list_find_None in E.
Qed.
End JobList.

Lemma max_occupied_jid_empty (jl : list job_t) :
  Forall (fun j => pid j = 0) jl -> max_occupied_jid jl = 0.
Proof.
  unfold max_occupied_jid. induction 1 as [|j jl Hj _ IH]; [done|].
  rewrite filter_cons. by destruct (decide (pid j <> 0)).
Qed.

Lemma list_find_full (jl : list job_t) :
  Forall (fun j => pid j <> 0) jl ->
  list_find (fun j => pid j = 0) jl = None.
Proof.
  intros H. apply list_find_None. eapply Forall_impl; [exact H|].
  intros j Hj. exact Hj.
Qed.

Lemma fgpid_in (jl : list job_t) :
  fgpid jl = 0 \/ exists j, j ∈ jl /\ state j = FG /\ pid j = fgpid jl.
Proof.
  unfold fgpid.
  destruct (list_find _ jl) as [[i j]|] eqn:E; [|by left].
  apply list_find_Some in E as (Hi & Hj & _). right.
  exists j. split; [by eapply list_elem_of_lookup_2|done].
Qed.

Lemma append_inj_l (a x y : string) : a +:+ x = a +:+ y -> x = y.
Proof.
  induction a as [|c a IH]; [done|].
  change (String c (a +:+ x) = String c (a +:+ y) -> x = y).
  intros [= H]. by apply IH.
Qed.

(** ** Effects of the primitive operations *)

Section Effects.
Implicit Types (s : shell) (jl : list job_t) (j : job_t) (i : nat) (p : Z).

Lemma append_assoc (a b c : string) : (a +:+ b) +:+ c = a +:+ (b +:+ c).
Proof.
  induction a as [|x a IH]; [done|].
  change (String x ((a +:+ b) +:+ c) = String x (a +:+ (b +:+ c))).
  by rewrite IH.
Qed.

Lemma add_sio_add_sio a b s : add_sio b (add_sio a s) = add_sio (a +:+ b) s.
Proof. unfold add_sio. cbn. by rewrite append_assoc. Qed.

Lemma bind_Ret {A B} (m : M A) (f : A -> M B) s a s1 :
  m s = Ret a s1 -> bind m f s = f a s1.
Proof. unfold bind. by intros ->. Qed.

Lemma bind_Fault {A B} (m : M A) (f : A -> M B) s s1 :
  m s = Fault s1 -> bind m f s = Fault s1.
Proof. unfold bind. by intros ->. Qed.

Lemma deref_Some s i j :
  job_list s !! i = Some j -> deref (Some i) s = Ret j s.
Proof. unfold deref. by intros ->. Qed.

Lemma deref_None s : deref None s = Fault s.
Proof. done. Qed.

Lemma store_state_Some s i j st :
  job_list s !! i = Some j ->
  store_state (Some i) st s = Ret () (with_state i st s).
Proof.
  intros Hi. unfold store_state. rewrite (bind_Ret _ _ _ _ _ (deref_Some _ _ _ Hi)).
  unfold with_state, bind, get_jobs, put_jobs. do 2 f_equal.
  apply list_eq. intros k. rewrite list_lookup_alter.
  destruct (decide (i = k)) as [->|].
  - rewrite list_lookup_insert_eq by (by eapply lookup_lt_Some).
    by rewrite Hi.
  - by rewrite list_lookup_insert_ne.
Qed.

Lemma getjobpid_find jl p i :
  getjobpid jl p = Some i ->
  0 < p /\ exists j, list_find (fun j => pid j = p) jl = Some (i, j).
Proof.
  unfold getjobpid. destruct (Z.ltb_spec p 1); [done|].
  destruct (list_find _ jl) as [[i' j]|] eqn:E; [|done].
  intros [= <-]. split; [lia|]. eauto.
Qed.

Lemma deletejob_found s p i j :
  0 < p -> list_find (fun j => pid j = p) (job_list s) = Some (i, j) ->
  deletejob p s = Ret 1 (deleted i s).
Proof.
  intros Hp E. unfold deletejob. destruct (Z.ltb_spec p 1); [lia|].
  unfold bind at 1. unfold get_jobs at 1. rewrite E.
  apply list_find_Some in E as (Hi & _ & _).
  assert (Hjl : <[i := clearjob j]> (job_list s)
                = alter clearjob i (job_list s)).
  { apply list_eq. intros k. rewrite list_lookup_alter.
    destruct (decide (i = k)) as [->|].
    - rewrite list_lookup_insert_eq by (by eapply lookup_lt_Some).
      by rewrite Hi.
    - by rewrite list_lookup_insert_ne. }
  cbn zeta. rewrite Hjl. reflexivity.
Qed.

Lemma deletejob_not_found s p :
  getjobpid (job_list s) p = None -> deletejob p s = Ret 0 s.
Proof.
  unfold getjobpid, deletejob. destruct (Z.ltb_spec p 1); [done|].
  unfold bind, get_jobs.
  by destruct (list_find _ (job_list s)) as [[i' j]|].
Qed.
End Effects.

(** ** The child-status handler *)

Section Sigchld.
Implicit Types (s : shell) (j : job_t) (i : nat) (p sig : Z).

Lemma sigchld_handler_cons s s' p status evs :
  0 < p -> sigchld_reap p status s = Ret () s' ->
  sigchld_handler ((p, status) :: evs) s = sigchld_handler evs s'.
Proof.
  intros Hp Hr. cbn [sigchld_handler].
  destruct (Z.ltb_spec 0 p); [|lia]. by rewrite (bind_Ret _ _ _ _ _ Hr).
Qed.

Lemma sigchld_handler_cons_Fault s s' p status evs :
  0 < p -> sigchld_reap p status s = Fault s' ->
  sigchld_handler ((p, status) :: evs) s = Fault s'.
Proof.
  intros Hp Hr. cbn [sigchld_handler].
  destruct (Z.ltb_spec 0 p); [|lia]. by rewrite (bind_Fault _ _ _ _ Hr).
Qed.

Lemma pid2jid_found (jl : list job_t) p i j :
  0 < p -> list_find (fun j => pid j = p) jl = Some (i, j) ->
  pid2jid jl p = jid j.
Proof.
  intros Hp E. unfold pid2jid. destruct (Z.ltb_spec p 1); [lia|].
  by rewrite E.
Qed.

Lemma sigchld_reap_signaled s p i j sig :
  getjobpid (job_list s) p = Some i -> job_list s !! i = Some j ->
  sigchld_reap p (WSignaled sig) s
  = Ret () (deleted i (add_sio (terminated_line (jid j) p sig) s)).
Proof.
  intros Hg Hi. unfold sigchld_reap.
  unfold bind at 1. unfold get_jobs at 1. rewrite Hg.
  destruct (getjobpid_find _ _ _ Hg) as (Hp & j' & E).
  assert (j' = j) as ->.
  { apply list_find_Some in E as (Hi' & _). congruence. }
  assert (pid j = p) by (by apply list_find_Some in E as (_ & ? & _)).
  unfold sio_putl, sio_puts, bind, deref. cbn.
  repeat (rewrite Hi; cbn).
  erewrite deletejob_found; [|done|exact E].
  rewrite !add_sio_add_sio, ?append_assoc. unfold ret. by subst p.
Qed.

Lemma sigchld_reap_exited s p i code :
  getjobpid (job_list s) p = Some i ->
  sigchld_reap p (WExited code) s = Ret () (deleted i s).
Proof.
  intros Hg. unfold sigchld_reap.
  unfold bind at 1. unfold get_jobs at 1.
  destruct (getjobpid_find _ _ _ Hg) as (Hp & j' & E).
  by rewrite (bind_Ret _ _ _ _ _ (deletejob_found _ _ _ _ Hp E)).
Qed.

Lemma sigchld_reap_stopped s p i j sig :
  getjobpid (job_list s) p = Some i -> job_list s !! i = Some j ->
  sigchld_reap p (WStopped sig) s
  = Ret () (if decide (state j <> ST)
            then with_state i ST (add_sio (stopped_line (jid j) p sig) s)
            else s).
Proof.
  intros Hg Hi. unfold sigchld_reap.
  unfold bind at 1. unfold get_jobs at 1. rewrite Hg.
  destruct (getjobpid_find _ _ _ Hg) as (Hp & j' & E).
  assert (pid j = p).
  { apply list_find_Some in E as (Hi' & ? & _). congruence. }
  rewrite (bind_Ret _ _ _ _ _ (deref_Some _ _ _ Hi)).
  destruct (decide (state j <> ST)); [|done].
  unfold sio_putl, sio_puts, bind, deref. cbn.
  repeat (rewrite Hi; cbn).
  erewrite store_state_Some; [|cbn; exact Hi].
  rewrite !add_sio_add_sio, ?append_assoc. by subst p.
Qed.

(** A reaped pid that no slot holds: the lookup yields NULL, and the
    two notification branches read through it. *)
Lemma sigchld_reap_untracked s p :
  getjobpid (job_list s) p = None ->
  (forall sig, sigchld_reap p (WStopped sig) s = Fault s) /\
  (forall sig, sigchld_reap p (WSignaled sig) s
               = Fault (add_sio "Job [" s)) /\
  (forall code, sigchld_reap p (WExited code) s = Ret () s).
Proof.
  intros Hg. unfold sigchld_reap. split; [|split]; intros x.
  - unfold bind at 1. unfold get_jobs at 1. by rewrite Hg.
  - unfold bind at 1. unfold get_jobs at 1. by rewrite Hg.
  - unfold bind at 1. unfold get_jobs at 1.
    by rewrite (bind_Ret _ _ _ _ _ (deletejob_not_found _ _ Hg)).
Qed.
End Sigchld.

(** ** The main flow: what a returning command has done *)

Section MainFlow.
Implicit Types (s : shell) (jl : list job_t) (j : job_t) (i : nat) (p : Z).

Lemma with_state_jobs i st s :
  job_list (with_state i st s) = alter (set_state st) i (job_list s).
Proof. done. Qed.

Lemma deleted_jobs i s :
  job_list (deleted i s) = alter clearjob i (job_list s).
Proof. done. Qed.

Lemma execute_fg_lookup_Ret tok s r s' :
  execute_fg_lookup tok s = Ret r s' ->
  job_list s' = job_list s /\
  match r with
  | Some (tj, p) =>
      exists i j, tj = Some i /\ job_list s !! i = Some j /\ state j <> UNDEF
  | None => True
  end.
Proof.
  intros H. unfold execute_fg_lookup in H. shell_inv H.
  all: try done.
  all: split; [done|]; eauto.
Qed.

Lemma alter_insert {A} (f : A -> A) (l : list A) i x :
  l !! i = Some x -> alter f i l = <[i := f x]> l.
Proof.
  intros Hi. apply list_eq. intros k. rewrite list_lookup_alter.
  destruct (decide (i = k)) as [->|].
  - rewrite list_lookup_insert_eq by (by eapply lookup_lt_Some).
    by rewrite Hi.
  - by rewrite list_lookup_insert_ne.
Qed.

Lemma store_state_Ret tj st s s' :
  store_state tj st s = Ret () s' ->
  exists i j, tj = Some i /\ job_list s !! i = Some j /\
              s' = with_state i st s.
Proof.
  intros H. destruct tj as [i|]; [|done].
  destruct (job_list s !! i) as [j|] eqn:Hi.
  - rewrite (store_state_Some _ _ _ _ Hi) in H. simplify_eq. eauto.
  - unfold store_state, bind, deref in H. by rewrite Hi in H.
Qed.

Lemma execute_fg_commit_Ret tj p s s' :
  execute_fg_commit tj p s = Ret () s' ->
  exists i j, tj = Some i /\ job_list s !! i = Some j /\
              job_list s' = alter (set_state FG) i (job_list s).
Proof.
  intros H. unfold execute_fg_commit in H.
  destruct tj as [i|]; [|done].
  destruct (job_list s !! i) as [j|] eqn:Hi.
  - rewrite (bind_Ret _ _ _ _ _ (deref_Some _ _ _ Hi)) in H.
    exists i, j. split; [done|]. split; [done|].
    destruct (decide (state j = ST)).
    + unfold bind, kill in H.
      apply store_state_Ret in H as (i' & j' & ? & _ & ->). by simplify_eq.
    + unfold bind, ret in H.
      apply store_state_Ret in H as (i' & j' & ? & _ & ->). by simplify_eq.
  - unfold bind, deref in H. by rewrite Hi in H.
Qed.

Lemma execute_fg_Ret tok s w s' :
  execute_fg tok s = Ret w s' ->
  (w = Done /\ job_list s' = job_list s) \/
  (w = WaitWhileFg /\
   exists i j, job_list s !! i = Some j /\ state j <> UNDEF /\
               job_list s' = alter (set_state FG) i (job_list s)).
Proof.
  intros H. unfold execute_fg in H.
  destruct (execute_fg_lookup tok s) as [r s1| | |] eqn:E;
    unfold bind in H; rewrite E in H; [|done..].
  apply execute_fg_lookup_Ret in E as [Hjl Hr].
  destruct r as [[tj p]|].
  - destruct (execute_fg_commit tj p s1) as [[] s2| | |] eqn:E2; [|done..].
    unfold ret in H. simplify_eq. right. split; [done|].
    destruct Hr as (i & j & -> & Hi & Hst).
    apply execute_fg_commit_Ret in E2 as (i' & j' & ? & _ & ->).
    simplify_eq. exists i', j. by rewrite Hjl.
  - unfold ret in H. simplify_eq. by left.
Qed.

Lemma execute_bg_Ret tok s s' :
  execute_bg tok s = Ret () s' ->
  job_list s' = job_list s \/
  exists i j, job_list s !! i = Some j /\ (0 < jid j \/ 0 < pid j) /\
              job_list s' = alter (set_state BG) i (job_list s).
Proof.
  intros H. unfold execute_bg in H.
  destruct (decide (argc tok <> 2)); [left; by shell_inv H|].
  destruct (argv tok !! 1%nat) as [str|]; [|done].
  match type of H with
  | bind ?m _ _ = _ =>
      destruct (m s) as [r s1| | |] eqn:E;
        unfold bind at 1 in H; rewrite E in H; [|done..]
  end.
  assert (Hr : job_list s1 = job_list s /\
               match r with
               | Some (tj, p) =>
                   exists i j, tj = Some i /\ job_list s !! i = Some j /\
                               (0 < jid j \/ 0 < pid j)
               | None => True
               end).
  { destruct (first_char_is "%" str).
    - destruct (decide (atoi (str_tail str) = 0)); [by shell_inv E|].
      unfold bind at 1 in E. unfold get_jobs at 1 in E.
      destruct (getjobjid (job_list s) (atoi (str_tail str))) as [i|] eqn:Hg;
        [|done].
      destruct (getjobjid_Some _ _ _ Hg) as (Hid & j & Hi & Hj).
      shell_inv E. split; [done|].
      eexists _, _. split_and!; [done|eassumption|]. left. lia.
    - destruct (decide (atoi str = 0)); [by shell_inv E|].
      unfold bind at 1 in E. unfold get_jobs at 1 in E.
      destruct (getjobpid (job_list s) (atoi str)) as [i|] eqn:Hg.
      + destruct (getjobpid_Some _ _ _ Hg) as (Hid & j & Hi & Hj).
        shell_inv E. split; [done|].
        eexists _, _. split_and!; [done|eassumption|]. right. lia.
      + by shell_inv E. }
  destruct Hr as [Hjl Hr]. destruct r as [[tj p]|]; [|left; by shell_inv H].
  destruct Hr as (i & j & -> & Hi & Hpos).
  rewrite <- Hjl in Hi.
  rewrite (bind_Ret _ _ _ _ _ (deref_Some _ _ _ Hi)) in H.
  match type of H with
  | bind ?m _ _ = _ =>
      assert (E1 : exists s2, m s1 = Ret () s2 /\ job_list s2 = job_list s1)
        by (destruct (decide (state j = ST)); eexists; by split)
  end.
  destruct E1 as (s2 & E1 & Hjl2).
  rewrite (bind_Ret _ _ _ _ _ E1) in H.
  rewrite <- Hjl2 in Hi.
  rewrite (bind_Ret _ _ _ _ _ (store_state_Some _ _ _ BG Hi)) in H.
  right. exists i, j. rewrite <- Hjl, <- Hjl2. split_and!; [done..|].
  clear E E1. shell_inv H; done.
Qed.

Lemma deletejob_total p s : exists r s1, deletejob p s = Ret r s1.
Proof.
  unfold deletejob. destruct (p <? 1); [by eexists _, _|].
  unfold bind, get_jobs.
  destruct (list_find _ (job_list s)) as [[i j]|]; by eexists _, _.
Qed.

(** [execute_quit] always ends the process. *)
Lemma execute_quit_no_Ret evs s s' : execute_quit evs s <> Ret () s'.
Proof.
  revert s. induction evs as [|[p status] evs IH]; intros s; [done|].
  cbn [execute_quit]. destruct (0 <? p); [|done].
  match goal with
  | |- bind ?m _ _ <> _ =>
      assert (Hm : exists s1, m s = Ret () s1)
  end.
  { destruct status; try by eexists.
    all: destruct (deletejob_total p s) as (r & s1 & E);
      exists s1; by rewrite (bind_Ret _ _ _ _ _ E). }
  destruct Hm as (s1 & Hm). rewrite (bind_Ret _ _ _ _ _ Hm). apply IH.
Qed.

(** The forked child never comes back to the shell's loop. *)
Lemma eval_child_no_Ret tok o s w s' : eval_child tok o s <> Ret w s'.
Proof.
  unfold eval_child. intros H. shell_inv H.
Qed.

Lemma addjob_Ret p st cmd s r s' :
  addjob p st cmd s = Ret r s' ->
  job_list s' = job_list s \/
  (0 < p /\ exists i j, job_list s !! i = Some j /\ pid j = 0 /\
     job_list s' = <[i := mkjob p (nextjid s) st cmd]> (job_list s)).
Proof.
  unfold addjob. destruct (Z.ltb_spec p 1); [intros [= _ ->]; by left|].
  unfold bind at 1. unfold get_jobs at 1.
  destruct (list_find _ (job_list s)) as [[i j]|] eqn:E.
  - apply list_find_Some in E as (Hi & Hj & _).
    intros H'. right. split; [lia|]. exists i, j. split_and!; [done..|].
    shell_inv H'; done.
  - intros H'. left. shell_inv H'; done.
Qed.

Lemma eval_parent_Ret bg p cmd s w s' :
  eval_parent bg p cmd s = Ret w s' ->
  w = (if decide (bg = 0) then WaitWhileFgIs p else Done) /\
  (job_list s' = job_list s \/
   (0 < p /\ exists i j, job_list s !! i = Some j /\ pid j = 0 /\
      job_list s' = <[i := mkjob p (nextjid s) (bg + 1) cmd]> (job_list s))).
Proof.
  intros H. unfold eval_parent in H.
  destruct (addjob p (bg + 1) cmd s) as [r s1| | |] eqn:E;
    unfold bind at 1 in H; rewrite E in H; [|done..].
  apply addjob_Ret in E.
  assert (job_list s' = job_list s1 /\
          w = (if decide (bg = 0) then WaitWhileFgIs p else Done))
    as [-> ->].
  { clear E. destruct (decide (bg = 0)); shell_inv H; done. }
  done.
Qed.

(** What a command that returns has done to the table. *)
Lemma eval_Ret cmd bg tok o s w s' :
  eval cmd bg tok o s = Ret w s' ->
  (w = Done /\ job_list s' = job_list s) \/
  (w = WaitWhileFg /\
   exists i j, job_list s !! i = Some j /\ state j <> UNDEF /\
               job_list s' = alter (set_state FG) i (job_list s)) \/
  (w = Done /\
   exists i j, job_list s !! i = Some j /\ (0 < jid j \/ 0 < pid j) /\
               job_list s' = alter (set_state BG) i (job_list s)) \/
  (w = (if decide (bg = 0) then WaitWhileFgIs (fork_pid o) else Done) /\
   0 < fork_pid o /\
   (job_list s' = job_list s \/
    exists i j, job_list s !! i = Some j /\ pid j = 0 /\
      job_list s'
      = <[i := mkjob (fork_pid o) (nextjid s) (bg + 1) cmd]> (job_list s))).
Proof.
  intros H. unfold eval in H.
  destruct (decide (bg = -1)); [left; by shell_inv H|].
  destruct (argv tok !! 0%nat); [|left; by shell_inv H].
  unfold builtin_command in H.
  destruct (builtins tok).
  - (* no builtin *)
    unfold bind at 1 in H. unfold ret at 1 in H. cbn [fst snd] in H.
    destruct (decide (0 = 0)); [|done].
    destruct (Z.ltb_spec (fork_pid o) 0); [by shell_inv H|].
    destruct (decide (fork_pid o = 0)); [by apply eval_child_no_Ret in H|].
    apply eval_parent_Ret in H as [-> H]. right; right; right.
    split; [done|]. split; [lia|].
    destruct H as [?|(_ & i & j & ?)]; [by left|right; eauto].
  - (* quit *)
    exfalso.
    destruct (execute_quit (reaped o) s) as [[] s1| | |] eqn:E;
      unfold bind in H; rewrite E in H; [|done..].
    by apply execute_quit_no_Ret in E.
  - (* jobs *)
    left. shell_inv H; done.
  - (* bg *)
    destruct (execute_bg tok s) as [[] s1| | |] eqn:E;
      unfold bind in H; rewrite E in H; [|done..].
    unfold ret in H. cbn in H. destruct (decide (1 = 0)); [done|].
    simplify_eq.
    apply execute_bg_Ret in E as [?|?]; [by left|].
    right; right; left. done.
  - (* fg *)
    destruct (execute_fg tok s) as [w1 s1| | |] eqn:E;
      unfold bind in H; rewrite E in H; [|done..].
    unfold ret in H. cbn in H. destruct (decide (1 = 0)); [done|].
    simplify_eq.
    apply execute_fg_Ret in E as [?|?]; [by left|].
    right; left. done.
Qed.
End MainFlow.

(** ** Stop notifications *)

Section Stops.
Implicit Types (s : shell) (jl : list job_t) (j : job_t) (i : nat) (p : Z).

(** Changing the state of a slot does not move any pid. *)
Lemma list_find_pid_alter_state jl p i st :
  fst <$> list_find (fun j => pid j = p) (alter (set_state st) i jl)
  = fst <$> list_find (fun j => pid j = p) jl.
Proof.
  revert i. induction jl as [|j jl IH]; intros i; [done|].
  destruct i as [|i]; cbn [alter list_alter list_find].
  - cbn [set_state pid]. by destruct (decide (pid j = p)).
  - destruct (decide (pid j = p)); [done|].
    specialize (IH i).
    rewrite <- !option_fmap_compose.
    destruct (list_find _ (alter _ i jl)) as [[k1 j1]|],
             (list_find _ jl) as [[k2 j2]|]; cbn in *; congruence.
Qed.

Lemma getjobpid_with_state s p i st :
  getjobpid (job_list (with_state i st s)) p = getjobpid (job_list s) p.
Proof.
  unfold getjobpid. destruct (p <? 1); [done|].
  apply list_find_pid_alter_state.
Qed.

Lemma sigtstp_handler_fg s sig i j :
  getjobpid (job_list s) (fgpid (job_list s)) = Some i ->
  job_list s !! i = Some j ->
  sigtstp_handler sig s
  = Ret () (add_sent (- fgpid (job_list s)) sig
              (with_state i ST
                 (add_sio (stopped_line (jid j) (fgpid (job_list s)) sig) s))).
Proof.
  intros Hg Hi. unfold sigtstp_handler.
  unfold bind at 1. unfold get_jobs at 1. rewrite Hg.
  destruct (getjobpid_find _ _ _ Hg) as (Hp & j' & E).
  assert (j' = j) as ->.
  { apply list_find_Some in E as (Hi' & _). congruence. }
  rewrite (pid2jid_found _ _ _ _ Hp E).
  destruct (decide (fgpid (job_list s) <> 0)); [|lia].
  unfold sio_putl, sio_puts, bind, kill. cbn.
  erewrite store_state_Some; [|cbn; exact Hi].
  by rewrite !add_sio_add_sio, ?append_assoc.
Qed.

Lemma sigtstp_handler_no_fg s sig :
  fgpid (job_list s) = 0 -> sigtstp_handler sig s = Ret () s.
Proof.
  intros H0. unfold sigtstp_handler.
  unfold bind at 1. unfold get_jobs at 1. rewrite H0.
  by destruct (decide (0 <> 0)).
Qed.

(** Taking a foreground job out of the foreground leaves one less. *)
Lemma count_fg_demote jl i j st :
  jl !! i = Some j -> state j = FG -> st <> FG ->
  S (count_fg (alter (set_state st) i jl)) = count_fg jl.
Proof.
  unfold count_fg, fg_pids. intros Hi Hfg Hst. revert i Hi.
  induction jl as [|j0 jl IH]; intros i Hi; [done|].
  destruct i as [|i]; cbn [alter list_alter]; rewrite !filter_cons.
  - cbn in Hi. simplify_eq. cbn [set_state state].
    destruct (decide (st = FG)); [done|].
    destruct (decide (state j = FG)); [|done].
    by rewrite fmap_cons.
  - specialize (IH i Hi).
    destruct (decide (state j0 = FG)); rewrite ?fmap_cons; cbn [length];
      by rewrite <- IH.
Qed.

Lemma fgpid_no_fg jl : count_fg jl = 0%nat -> fgpid jl = 0.
Proof.
  unfold count_fg, fg_pids, fgpid. intros H.
  destruct (list_find _ jl) as [[k j]|] eqn:E; [|done].
  apply list_find_Some in E as (Hk & Hfg & _).
  assert (Hin : j ∈ filter (fun j => state j = FG) jl).
  { apply list_elem_of_filter. split; [done|].
    by eapply list_elem_of_lookup_2. }
  destruct (filter _ jl); [by apply not_elem_of_nil in Hin|done].
Qed.
End Stops.

(** ** Foreground jobs *)

Section Foreground.
Implicit Types (s : shell) (jl : list job_t) (j : job_t) (i : nat) (p : Z).

Lemma fg_pids_cons j jl :
  fg_pids (j :: jl)
  = if decide (state j = FG) then pid j :: fg_pids jl else fg_pids jl.
Proof.
  unfold fg_pids. rewrite filter_cons.
  by destruct (decide (state j = FG)).
Qed.

Lemma fgpid_fg_pids jl : fgpid jl = default 0 (head (fg_pids jl)).
Proof.
  unfold fgpid. induction jl as [|j jl IH]; [done|].
  rewrite fg_pids_cons. cbn [list_find].
  destruct (decide (state j = FG)); [done|].
  destruct (list_find _ jl) as [[k j']|]; cbn in *; exact IH.
Qed.

Lemma fg_pids_nonzero jl : free_cleared jl -> Forall (fun p => p <> 0) (fg_pids jl).
Proof.
  induction 1 as [|j jl Hj _ IH]; [constructor|].
  rewrite fg_pids_cons. destruct (decide (state j = FG)) as [Hfg|]; [|done].
  constructor; [|done]. intros H0. destruct (Hj H0) as [_ Hu].
  rewrite Hu in Hfg. discriminate.
Qed.

(** Writing a slot that is not FG afterwards adds no foreground job. *)
Lemma fg_pids_insert_sublist jl i j' :
  state j' <> FG -> fg_pids (<[i := j']> jl) `sublist_of` fg_pids jl.
Proof.
  intros Hst. revert i. induction jl as [|j jl IH]; intros i; [done|].
  destruct i as [|i]; cbn [insert list_insert]; rewrite !fg_pids_cons.
  - destruct (decide (state j' = FG)); [done|].
    destruct (decide (state j = FG)); [by apply sublist_cons|done].
  - specialize (IH i).
    destruct (decide (state j = FG)); [by apply sublist_skip|done].
Qed.

(** Writing a slot of a table that has no foreground job. *)
Lemma fg_pids_insert_none jl i j j' :
  fg_pids jl = [] -> jl !! i = Some j ->
  fg_pids (<[i := j']> jl) = if decide (state j' = FG) then [pid j'] else [].
Proof.
  revert i. induction jl as [|j0 jl IH]; intros i; [done|].
  rewrite fg_pids_cons.
  destruct (decide (state j0 = FG)) as [|Hn0]; [done|]. intros Hnil Hi.
  destruct i as [|i]; cbn [insert list_insert]; rewrite fg_pids_cons.
  - rewrite Hnil. by destruct (decide (state j' = FG)).
  - destruct (decide (state j0 = FG)); [done|]. by apply IH.
Qed.

Lemma shrinks_refl jl : shrinks jl jl.
Proof. by intros ?. Qed.

Lemma shrinks_trans jl1 jl2 jl3 :
  shrinks jl1 jl2 -> shrinks jl2 jl3 -> shrinks jl1 jl3.
Proof.
  intros H12 H23 H1. destruct (H12 H1) as [H2 S12].
  destruct (H23 H2) as [H3 S23]. split; [done|]. by etrans.
Qed.

Lemma shrinks_alter jl i j st :
  jl !! i = Some j -> pid j <> 0 -> st <> FG ->
  shrinks jl (alter (set_state st) i jl).
Proof.
  intros Hi Hp Hst Hfc. rewrite (alter_insert _ _ _ _ Hi). split.
  - apply free_cleared_insert; [done|]. by intros ?.
  - by apply fg_pids_insert_sublist.
Qed.

Lemma shrinks_clear jl i : shrinks jl (alter clearjob i jl).
Proof.
  intros Hfc. destruct (jl !! i) as [j|] eqn:Hi.
  - rewrite (alter_insert _ _ _ _ Hi). split.
    + apply free_cleared_insert; [done|]. apply slot_cleared_clearjob.
    + by apply fg_pids_insert_sublist.
  - assert (alter clearjob i jl = jl) as ->; [|by apply shrinks_refl].
    apply list_eq. intros k. rewrite list_lookup_alter.
    destruct (decide (i = k)) as [->|]; [by rewrite Hi|done].
Qed.

Lemma sigchld_reap_shrinks p status s s' :
  sigchld_reap p status s = Ret () s' ->
  shrinks (job_list s) (job_list s').
Proof.
  intros H. destruct (getjobpid (job_list s) p) as [i|] eqn:Hg.
  - destruct (getjobpid_Some _ _ _ Hg) as (Hp & j & Hi & Hj).
    destruct status as [sig|sig|code|].
    + rewrite (sigchld_reap_stopped _ _ _ _ sig Hg Hi) in H.
      destruct (decide (state j <> ST)); simplify_eq;
        [|apply shrinks_refl].
      rewrite with_state_jobs. eapply shrinks_alter; [exact Hi|lia|done].
    + rewrite (sigchld_reap_signaled _ _ _ _ sig Hg Hi) in H.
      simplify_eq. rewrite deleted_jobs. apply shrinks_clear.
    + rewrite (sigchld_reap_exited _ _ _ code Hg) in H.
      simplify_eq. rewrite deleted_jobs. apply shrinks_clear.
    + cbn in H. unfold ret in H. simplify_eq. apply shrinks_refl.
  - destruct (sigchld_reap_untracked _ _ Hg) as (H1 & H2 & H3).
    destruct status as [sig|sig|code|].
    + by rewrite H1 in H.
    + by rewrite H2 in H.
    + rewrite H3 in H. simplify_eq. apply shrinks_refl.
    + cbn in H. unfold ret in H. simplify_eq. apply shrinks_refl.
Qed.

Lemma sigchld_handler_shrinks evs s s' :
  sigchld_handler evs s = Ret () s' ->
  shrinks (job_list s) (job_list s').
Proof.
  revert s. induction evs as [|[p status] evs IH]; intros s H.
  - cbn in H. unfold ret in H. simplify_eq. apply shrinks_refl.
  - cbn [sigchld_handler] in H. destruct (0 <? p).
    + destruct (sigchld_reap p status s) as [[] s1| | |] eqn:E;
        unfold bind in H; rewrite E in H; [|done..].
      eapply shrinks_trans; [by eapply sigchld_reap_shrinks|by apply IH].
    + cbn in H. unfold ret in H. simplify_eq. apply shrinks_refl.
Qed.

Lemma sigtstp_handler_shrinks sig s s' :
  sigtstp_handler sig s = Ret () s' ->
  shrinks (job_list s) (job_list s').
Proof.
  intros H. destruct (decide (fgpid (job_list s) = 0)) as [H0|Hn0].
  - rewrite (sigtstp_handler_no_fg _ _ H0) in H. simplify_eq.
    apply shrinks_refl.
  - destruct (getjobpid (job_list s) (fgpid (job_list s))) as [i|] eqn:Hg.
    + destruct (getjobpid_Some _ _ _ Hg) as (Hp & j & Hi & Hj).
      rewrite (sigtstp_handler_fg _ sig _ _ Hg Hi) in H. simplify_eq.
      change (job_list (add_sent ?a ?b ?c)) with (job_list c).
      rewrite with_state_jobs. eapply shrinks_alter; [exact Hi|lia|done].
    + exfalso. unfold sigtstp_handler in H.
      unfold bind at 1 in H. unfold get_jobs at 1 in H. rewrite Hg in H.
      destruct (decide (fgpid (job_list s) <> 0)); [|done].
      unfold sio_putl, sio_puts, bind in H. cbn in H. done.
Qed.

Lemma sigint_handler_jobs sig s s' :
  sigint_handler sig s = Ret () s' -> job_list s' = job_list s.
Proof.
  unfold sigint_handler, bind, get_jobs, kill, ret.
  destruct (decide (fgpid (job_list s) <> 0)); by intros [= <-].
Qed.
End Foreground.

(** ** The invariant of the uninterrupted shell *)

Section Invariant.
Implicit Types (s : shell) (jl : list job_t) (j : job_t) (i : nat) (p : Z).

Lemma fg_inv_init v : fg_inv (init_shell v, AtPrompt).
Proof.
  split; [apply free_cleared_initjobs|]. by vm_compute.
Qed.

Lemma sublist_singleton (l : list Z) (x : Z) :
  l `sublist_of` [x] -> l = [] \/ l = [x].
Proof.
  intros H. inversion H as [|a l1 l2 H1|a l1 l2 H1]; subst.
  - apply sublist_nil_r in H1. subst. by right.
  - apply sublist_nil_r in H1. by left.
Qed.

Lemma fg_inv_shrinks s s' k :
  shrinks (job_list s) (job_list s') -> fg_inv (s, k) -> fg_inv (s', k).
Proof.
  intros Hsh [Hfc Hk]. destruct (Hsh Hfc) as [Hfc' Hsub].
  split; [exact Hfc'|]. cbn [fst snd] in *. destruct k as [|p| |].
  - rewrite Hk in Hsub. by apply sublist_nil_r in Hsub.
  - destruct Hk as [Hk|Hk]; rewrite Hk in Hsub.
    + left. by apply sublist_nil_r in Hsub.
    + by apply sublist_singleton.
  - apply sublist_length in Hsub. lia.
  - done.
Qed.

Lemma slot_nonzero_pid jl i j :
  free_cleared jl -> jl !! i = Some j ->
  (state j <> UNDEF \/ 0 < jid j \/ 0 < pid j) -> pid j <> 0.
Proof.
  intros Hfc Hi Hor H0. unfold free_cleared in Hfc.
  rewrite Forall_lookup in Hfc. destruct (Hfc i j Hi H0) as [Hj Hs].
  destruct Hor as [?|[?|?]]; [done|lia|lia].
Qed.

Lemma fg_inv_command cmd bg tok o s w s' :
  fg_inv (s, AtPrompt) -> eval cmd bg tok o s = Ret w s' ->
  fg_inv (s', control_of w).
Proof.
  intros [Hfc Hnil] H. cbn [fst snd] in *.
  apply eval_Ret in H
    as [[-> Hjl]|[(-> & i & j & Hi & Hst & Hjl)
       |[(-> & i & j & Hi & Hpos & Hjl)|(-> & Hp & Hjl)]]].
  - split; cbn [fst snd control_of]; by rewrite Hjl.
  - assert (Hpid : pid j <> 0) by (eapply slot_nonzero_pid; eauto).
    rewrite (alter_insert _ _ _ _ Hi) in Hjl.
    split; cbn [fst snd control_of]; rewrite Hjl.
    + apply free_cleared_insert; [done|]. by intros ?.
    + rewrite (fg_pids_insert_none _ _ _ _ Hnil Hi).
      by destruct (decide (state (set_state FG j) = FG)).
  - assert (Hpid : pid j <> 0) by (eapply slot_nonzero_pid; eauto).
    apply (fg_inv_shrinks s s' AtPrompt); [|done].
    rewrite Hjl. by eapply shrinks_alter.
  - destruct Hjl as [Hjl|(i & j & Hi & Hfree & Hjl)].
    + destruct (decide (bg = 0)); split; cbn [fst snd control_of];
        rewrite Hjl; auto.
    + assert (Hfc' : free_cleared (job_list s')).
      { rewrite Hjl. apply free_cleared_insert; [done|].
        intros H0. cbn in H0. lia. }
      assert (Hfg : fg_pids (job_list s')
                    = if decide (bg + 1 = FG) then [fork_pid o] else []).
      { rewrite Hjl. by rewrite (fg_pids_insert_none _ _ _ _ Hnil Hi). }
      destruct (decide (bg = 0)) as [->|Hbg];
        split; cbn [fst snd control_of]; try done.
      * right. by rewrite Hfg.
      * rewrite Hfg. destruct (decide (bg + 1 = FG)) as [E|]; [|done].
        unfold FG in E. lia.
Qed.

Lemma fg_inv_step e c c' :
  fg_inv c -> step false e c = Some c' -> fg_inv c'.
Proof.
  destruct c as [s k]. intros Hinv H. unfold step in H.
  cbn [fst snd] in H. destruct e.
  - (* Command *)
    destruct k; try done.
    destruct (eval cmd bg tok o s) as [w s1| | |] eqn:E; [|done..].
    cbn in H. simplify_eq. by eapply fg_inv_command.
  - (* FgResolve: not an event of the atomic shell *)
    destruct k; done.
  - (* FgCommit *)
    destruct k; try done. by destruct Hinv.
  - (* Wake *)
    destruct Hinv as [Hfc Hk]. cbn [fst snd] in *.
    pose proof (fg_pids_nonzero _ Hfc) as Hnz.
    destruct k as [|p| |]; try done.
    + destruct (decide (p = fgpid (job_list s))) as [|Hne]; [done|].
      simplify_eq. split; [done|]. cbn [fst snd].
      destruct Hk as [Hk|Hk]; [done|].
      rewrite fgpid_fg_pids, Hk in Hne. done.
    + destruct (decide (fgpid (job_list s) <> 0)) as [|He]; [done|].
      simplify_eq. split; [done|]. cbn [fst snd].
      rewrite fgpid_fg_pids in He.
      destruct (fg_pids (job_list s)) as [|q l]; [done|].
      cbn in He. inversion Hnz; subst. exfalso. apply He. done.
  - (* Sigchld *)
    destruct (sigchld_handler evs s) as [[] s1| | |] eqn:E; [|done..].
    cbn in H. simplify_eq.
    eapply fg_inv_shrinks; [|done]. by eapply sigchld_handler_shrinks.
  - (* Sigint *)
    destruct (sigint_handler SIGINT s) as [[] s1| | |] eqn:E; [|done..].
    cbn in H. simplify_eq.
    eapply fg_inv_shrinks; [|done].
    rewrite (sigint_handler_jobs _ _ _ E). apply shrinks_refl.
  - (* Sigtstp *)
    destruct (sigtstp_handler SIGTSTP s) as [[] s1| | |] eqn:E; [|done..].
    cbn in H. simplify_eq.
    eapply fg_inv_shrinks; [|done]. by eapply sigtstp_handler_shrinks.
Qed.

Lemma fg_inv_run evs : forall c c',
  fg_inv c -> run_events false evs c = Some c' -> fg_inv c'.
Proof.
  induction evs as [|e evs IH]; intros c c' Hinv H.
  - cbn in H. by simplify_eq.
  - cbn [run_events] in H.
    destruct (step false e c) as [c1|] eqn:E; [|done].
    eapply IH; [|exact H]. by eapply fg_inv_step.
Qed.

Lemma fg_inv_count c : fg_inv c -> (count_fg (job_list c.1) <= 1)%nat.
Proof.
  intros [_ Hk]. unfold count_fg. destruct (c.2).
  - rewrite Hk. cbn. lia.
  - destruct Hk as [-> | ->]; cbn; lia.
  - done.
  - done.
Qed.
End Invariant.

(** ** Unused slots have id 0, whatever the interleaving *)

Section Unnumbered.
Implicit Types (s : shell) (jl : list job_t) (j : job_t) (i : nat) (p : Z).

Lemma sigchld_reap_unnumbered p status s s' :
  sigchld_reap p status s = Ret () s' ->
  free_unnumbered (job_list s) -> free_unnumbered (job_list s').
Proof.
  intros H Hfu. destruct (getjobpid (job_list s) p) as [i|] eqn:Hg.
  - destruct (getjobpid_Some _ _ _ Hg) as (Hp & j & Hi & Hj).
    destruct status as [sig|sig|code|].
    + rewrite (sigchld_reap_stopped _ _ _ _ sig Hg Hi) in H.
      destruct (decide (state j <> ST)); simplify_eq; [|done].
      rewrite with_state_jobs. by apply free_unnumbered_state.
    + rewrite (sigchld_reap_signaled _ _ _ _ sig Hg Hi) in H.
      simplify_eq. rewrite deleted_jobs. by apply free_unnumbered_clear.
    + rewrite (sigchld_reap_exited _ _ _ code Hg) in H.
      simplify_eq. rewrite deleted_jobs. by apply free_unnumbered_clear.
    + cbn in H. unfold ret in H. by simplify_eq.
  - destruct (sigchld_reap_untracked _ _ Hg) as (H1 & H2 & H3).
    destruct status as [sig|sig|code|].
    + by rewrite H1 in H.
    + by rewrite H2 in H.
    + rewrite H3 in H. by simplify_eq.
    + cbn in H. unfold ret in H. by simplify_eq.
Qed.

Lemma sigchld_handler_unnumbered evs s s' :
  sigchld_handler evs s = Ret () s' ->
  free_unnumbered (job_list s) -> free_unnumbered (job_list s').
Proof.
  revert s. induction evs as [|[p status] evs IH]; intros s H Hfu.
  - cbn in H. unfold ret in H. by simplify_eq.
  - cbn [sigchld_handler] in H. destruct (0 <? p).
    + destruct (sigchld_reap p status s) as [[] s1| | |] eqn:E;
        unfold bind in H; rewrite E in H; [|done..].
      eapply IH; [exact H|]. by eapply sigchld_reap_unnumbered.
    + cbn in H. unfold ret in H. by simplify_eq.
Qed.

Lemma sigtstp_handler_unnumbered sig s s' :
  sigtstp_handler sig s = Ret () s' ->
  free_unnumbered (job_list s) -> free_unnumbered (job_list s').
Proof.
  intros H Hfu. destruct (decide (fgpid (job_list s) = 0)) as [H0|Hn0].
  - rewrite (sigtstp_handler_no_fg _ _ H0) in H. by simplify_eq.
  - destruct (getjobpid (job_list s) (fgpid (job_list s))) as [i|] eqn:Hg.
    + destruct (getjobpid_Some _ _ _ Hg) as (Hp & j & Hi & Hj).
      rewrite (sigtstp_handler_fg _ sig _ _ Hg Hi) in H. simplify_eq.
      change (job_list (add_sent ?a ?b ?c)) with (job_list c).
      rewrite with_state_jobs. by apply free_unnumbered_state.
    + exfalso. unfold sigtstp_handler in H.
      unfold bind at 1 in H. unfold get_jobs at 1 in H. rewrite Hg in H.
      destruct (decide (fgpid (job_list s) <> 0)); [|done].
      unfold sio_putl, sio_puts, bind in H. cbn in H. done.
Qed.

Lemma eval_unnumbered cmd bg tok o s w s' :
  eval cmd bg tok o s = Ret w s' ->
  free_unnumbered (job_list s) -> free_unnumbered (job_list s').
Proof.
  intros H Hfu.
  apply eval_Ret in H
    as [[_ Hjl]|[(_ & i & j & _ & _ & Hjl)
       |[(_ & i & j & _ & _ & Hjl)|(_ & Hp & Hjl)]]].
  - by rewrite Hjl.
  - rewrite Hjl. by apply free_unnumbered_state.
  - rewrite Hjl. by apply free_unnumbered_state.
  - destruct Hjl as [Hjl|(i & j & _ & _ & Hjl)]; rewrite Hjl; [done|].
    apply free_unnumbered_insert; [done|]. cbn. lia.
Qed.

Lemma step_unnumbered b e c c' :
  step b e c = Some c' ->
  free_unnumbered (job_list c.1) -> free_unnumbered (job_list c'.1).
Proof.
  destruct c as [s k]. intros H Hfu. unfold step in H.
  cbn [fst snd] in *. destruct e.
  - destruct k; try done.
    destruct (eval cmd bg tok o s) as [w s1| | |] eqn:E; [|done..].
    cbn in H. simplify_eq. by eapply eval_unnumbered.
  - destruct k; try done. destruct b; [|done].
    destruct (builtins tok); try done.
    destruct (argv tok !! 0%nat); [|done].
    destruct (execute_fg_lookup tok s) as [r s1| | |] eqn:E; [|done..].
    cbn in H. simplify_eq. cbn [fst].
    apply execute_fg_lookup_Ret in E as [Hjl _]. by rewrite Hjl.
  - destruct k as [| | |tj p]; try done.
    destruct (execute_fg_commit tj p s) as [[] s1| | |] eqn:E; [|done..].
    cbn in H. simplify_eq. cbn [fst].
    apply execute_fg_commit_Ret in E as (i & j & _ & _ & Hjl).
    rewrite Hjl. by apply free_unnumbered_state.
  - destruct k as [|p| |]; try done.
    + destruct (decide (p = fgpid (job_list s))); [done|]. by simplify_eq.
    + destruct (decide (fgpid (job_list s) <> 0)); [done|]. by simplify_eq.
  - destruct (sigchld_handler evs s) as [[] s1| | |] eqn:E; [|done..].
    cbn in H. simplify_eq. by eapply sigchld_handler_unnumbered.
  - destruct (sigint_handler SIGINT s) as [[] s1| | |] eqn:E; [|done..].
    cbn in H. simplify_eq. cbn [fst].
    by rewrite (sigint_handler_jobs _ _ _ E).
  - destruct (sigtstp_handler SIGTSTP s) as [[] s1| | |] eqn:E; [|done..].
    cbn in H. simplify_eq. by eapply sigtstp_handler_unnumbered.
Qed.

(** In every state the shell reaches, also when a handler runs inside
    [execute_fg], the unused slots have id 0. *)
Lemma free_unnumbered_reachable b c :
  reachable b c -> free_unnumbered (job_list c.1).
Proof.
  intros (v & evs & H).
  assert (Hinit : free_unnumbered (job_list (init_shell v, AtPrompt).1)).
  { apply free_cleared_unnumbered, free_cleared_initjobs. }
  revert H Hinit. generalize (init_shell v, AtPrompt).
  induction evs as [|e evs IH]; intros c0 H H0.
  - cbn in H. by simplify_eq.
  - cbn [run_events] in H.
    destruct (step b e c0) as [c1|] eqn:E; [|done].
    eapply IH; [exact H|]. by eapply step_unnumbered.
Qed.
End Unnumbered.

(** ** The two halves of execute_fg *)

(** Run one after the other with nothing in between, [FgResolve] and
    [FgCommit] do what the command [fg] does. *)
Lemma fg_split_faithful cmd bg tok o s c1 :
  bg <> -1 ->
  step true (FgResolve tok) (s, AtPrompt) = Some c1 ->
  step true (Command cmd bg tok o) (s, AtPrompt)
  = match c1.2 with
    | InFgBetween _ _ => step true FgCommit c1
    | _ => Some c1
    end.
Proof.
  intros Hbg H. unfold step in *. cbn [fst snd] in *.
  destruct (builtins tok) eqn:Hb; try done.
  destruct (argv tok !! 0%nat) as [a|] eqn:Ha; [|done].
  unfold eval. destruct (decide (bg = -1)); [done|]. rewrite Ha.
  unfold builtin_command. rewrite Hb. unfold execute_fg.
  destruct (execute_fg_lookup tok s) as [r s1| | |] eqn:E; [|done..].
  cbn in H. simplify_eq. unfold bind. rewrite E.
  destruct r as [[tj p]|]; cbn [snd fst].
  - destruct (execute_fg_commit tj p s1) as [[] s2| | |]; try done.
  - done.
Qed.

(** ** The counter and the ids in use *)

Lemma maxjid_insert_le (jl : list job_t) (i : nat) (j : job_t) :
  maxjid (<[i := j]> jl) <= Z.max (maxjid jl) (jid j).
Proof.
  unfold maxjid. rewrite !maxjid_from_foldr. revert i.
  induction jl as [|j0 jl IH]; intros i; [destruct i; cbn; lia|].
  destruct i as [|i].
  - change (<[0%nat := j]> (j0 :: jl)) with (j :: jl).
    rewrite !fmap_cons. cbn [foldr]. lia.
  - change (<[S i := j]> (j0 :: jl)) with (j0 :: <[i := j]> jl).
    rewrite !fmap_cons. cbn [foldr]. specialize (IH i). lia.
Qed.

(** ** Decimal output of sio_putl *)

Section Decimal.
Lemma log2_div10 (v : Z) : 0 < v / 10 -> Z.log2 (v / 10) < Z.log2 v.
Proof.
  intros H. assert (10 <= v).
  { destruct (Z.lt_ge_cases v 10) as [Hlt|]; [|lia].
    pose proof (Z.div_lt_upper_bound v 10 1 ltac:(lia) ltac:(lia)). lia. }
  assert (Hle : v / 10 <= Z.shiftr v 1).
  { rewrite Z.shiftr_div_pow2 by lia. change (2 ^ 1) with 2.
    apply Z.div_le_lower_bound; [lia|].
    pose proof (Z.mul_div_le v 10). lia. }
  apply Z.log2_le_mono in Hle.
  rewrite Z.log2_shiftr in Hle by lia.
  assert (1 <= Z.log2 v) by (apply Z.log2_le_pow2; lia).
  lia.
Qed.

Lemma ltoa_loop_fuel (f1 : nat) : forall (f2 : nat) (v : Z),
  0 <= v -> Z.log2 v <= Z.of_nat f1 -> Z.log2 v <= Z.of_nat f2 ->
  ltoa_loop f1 v 10 = ltoa_loop f2 v 10.
Proof.
  induction f1 as [|f1 IH]; intros f2 v Hv H1 H2.
  - assert (Hs : (0 <? Z.quot v 10) = false).
    { apply Z.ltb_ge. rewrite Z.quot_div_nonneg by lia.
      destruct (Z.le_gt_cases (v / 10) 0) as [|Hpos]; [done|].
      pose proof (log2_div10 v Hpos). pose proof (Z.log2_nonneg (v / 10)).
      lia. }
    destruct f2; cbn [ltoa_loop]; by rewrite ?Hs.
  - destruct f2 as [|f2]; cbn [ltoa_loop].
    + assert (Hs : (0 <? Z.quot v 10) = false).
      { apply Z.ltb_ge. rewrite Z.quot_div_nonneg by lia.
        destruct (Z.le_gt_cases (v / 10) 0) as [|Hpos]; [done|].
        pose proof (log2_div10 v Hpos). pose proof (Z.log2_nonneg (v / 10)).
        lia. }
      by rewrite Hs.
    + destruct (Z.ltb_spec 0 (Z.quot v 10)) as [Hpos|]; [|done].
      f_equal. rewrite Z.quot_div_nonneg in * by lia.
      pose proof (log2_div10 v Hpos).
      apply IH; [apply Z.div_pos; lia|lia|lia].
Qed.

Lemma string_of_list_ascii_snoc (l : list ascii) (c : ascii) :
  string_of_list_ascii (l ++ [c])
  = string_of_list_ascii l +:+ String c EmptyString.
Proof.
  induction l as [|x l IH]; [done|].
  change (String x (string_of_list_ascii (l ++ [c]))
          = String x (string_of_list_ascii l +:+ String c EmptyString)).
  by rewrite IH.
Qed.

(** For a number that is not negative, [sio_ltoa] writes the decimal
    notation: the notation of [v / 10] when [v] has more than one digit,
    then the digit of [v mod 10]. *)
Lemma sio_ltoa_decimal (v : Z) :
  0 <= v ->
  sio_ltoa v 10
  = (if v <? 10 then EmptyString else sio_ltoa (v / 10) 10)
    +:+ String (char_of_Z (v mod 10 + 48)) EmptyString.
Proof.
  intros Hv. unfold sio_ltoa.
  assert (Hc : (if Z.rem v 10 <? 10 then char_of_Z (Z.rem v 10 + 48)
                else char_of_Z (Z.rem v 10 - 10 + 97))
               = char_of_Z (v mod 10 + 48)).
  { rewrite Z.rem_mod_nonneg by lia.
    pose proof (Z.mod_pos_bound v 10).
    destruct (Z.ltb_spec (v mod 10) 10); [done|lia]. }
  destruct (Z.ltb_spec v 10) as [Hlt|Hge].
  - assert (Hs : (0 <? Z.quot v 10) = false).
    { apply Z.ltb_ge. rewrite Z.quot_div_nonneg by lia.
      rewrite Z.div_small by lia. done. }
    destruct (Z.to_nat (Z.log2 v)); cbn [ltoa_loop]; rewrite ?Hs, Hc; done.
  - assert (Hpos : 0 < v / 10).
    { apply Z.div_str_pos. lia. }
    pose proof (log2_div10 v Hpos) as Hlog.
    pose proof (Z.log2_nonneg (v / 10)).
    destruct (Z.to_nat (Z.log2 v)) as [|f] eqn:Ef; [lia|].
    cbn [ltoa_loop]. rewrite Hc.
    rewrite Z.quot_div_nonneg by lia.
    destruct (Z.ltb_spec 0 (v / 10)); [|lia].
    cbn [rev]. rewrite string_of_list_ascii_snoc. f_equal. f_equal. f_equal.
    apply ltoa_loop_fuel; lia.
Qed.
End Decimal.

(** ** The tokenizer *)

Section Parseline.

Lemma length_append (a b : string) :
  String.length (a +:+ b) = (String.length a + String.length b)%nat.
Proof.
  induction a as [|c a IH]; [done|].
  change (S (String.length (a +:+ b)) = S (String.length a + String.length b)).
  by rewrite IH.
Qed.

Lemma skip_delims_length buf :
  (String.length (skip_delims buf) <= String.length buf)%nat.
Proof.
  induction buf as [|c buf IH]; cbn; [lia|].
  destruct (is_delim c); cbn; lia.
Qed.

Lemma strcspn_delims_length buf :
  (String.length (strcspn_delims buf).2 <= String.length buf)%nat.
Proof.
  induction buf as [|c buf IH]; cbn; [lia|].
  destruct (is_delim c); cbn; lia.
Qed.

Lemma strchr_length buf q t r :
  strchr buf q = Some (t, r) -> (String.length r <= String.length buf)%nat.
Proof.
  revert t r. induction buf as [|c buf IH]; intros t r; cbn; [done|].
  destruct (Ascii.eqb c q); [intros [= <- <-]; cbn; lia|].
  destruct (strchr buf q) as [[t' r']|]; [|done].
  intros [= <- <-]. specialize (IH _ _ eq_refl). cbn. lia.
Qed.

Lemma str_tail_length x n :
  (String.length x <= S n)%nat -> (String.length (str_tail x) <= n)%nat.
Proof. destruct x; cbn; lia. Qed.

(** The loop of [parseline] ends: a round per character and one more. *)
Lemma parseline_loop_fuel fuel : forall buf st,
  (String.length buf < fuel)%nat -> is_Some (parseline_loop fuel buf st).
Proof.
  induction fuel as [|fuel IH]; intros buf st Hlen; [lia|].
  cbn [parseline_loop].
  destruct buf as [|c0 buf0]; [by eexists|].
  pose proof (skip_delims_length (String c0 buf0)) as Hskip.
  destruct (skip_delims (String c0 buf0)) as [|c rest]; [by eexists|].
  cbn [String.length] in *.
  destruct (Ascii.eqb c "<").
  { destruct (p_infile st); [by eexists|]. apply IH. lia. }
  destruct (Ascii.eqb c ">").
  { destruct (p_outfile st); [by eexists|]. apply IH. lia. }
  destruct (Ascii.eqb c "'" || Ascii.eqb c (ascii_of_nat 34)).
  - destruct (strchr rest c) as [[token from_next]|] eqn:Hq; [|by eexists].
    apply strchr_length in Hq. cbn zeta.
    repeat case_match; simplify_eq; try by eexists.
    all: apply IH;
      pose proof (str_tail_length from_next (String.length rest));
      cbn [String.length] in *; lia.
  - pose proof (strcspn_delims_length (String c rest)) as Hn.
    destruct (strcspn_delims (String c rest)) as [token from_next].
    cbn zeta. cbn [snd String.length] in Hn.
    repeat case_match; simplify_eq; try by eexists.
    all: apply IH; pose proof (str_tail_length from_next _ Hn); lia.
Qed.

Lemma parseline_loop_argc fuel : forall buf st st',
  parseline_loop fuel buf st = Some (LoopEnd st') ->
  (length (p_argv st) < MAXARGS - 1)%nat ->
  (length (p_argv st') <= MAXARGS - 1)%nat.
Proof.
  induction fuel as [|fuel IH]; intros buf st st' Hloop Hargc; [done|].
  cbn [parseline_loop] in Hloop.
  destruct buf as [|c0 buf0]; [simplify_eq; lia|].
  destruct (skip_delims (String c0 buf0)) as [|c rest]; [simplify_eq; lia|].
  destruct (Ascii.eqb c "<").
  { destruct (p_infile st); [done|]. by apply IH in Hloop. }
  destruct (Ascii.eqb c ">").
  { destruct (p_outfile st); [done|]. by apply IH in Hloop. }
  destruct (if Ascii.eqb c "'" || Ascii.eqb c (ascii_of_nat 34)
            then strchr rest c else Some (strcspn_delims (String c rest)))
    as [[token from_next]|]; [|done].
  cbn zeta in Hloop.
  repeat case_match; simplify_eq; cbn in *;
    rewrite ?length_app in *; cbn in *;
    try (apply IH in Hloop; cbn; rewrite ?length_app; cbn;
         [done|by apply Nat.leb_gt]);
    unfold MAXARGS in *; lia.
Qed.

Lemma append_String c (a b : string) : String c a +:+ b = String c (a +:+ b).
Proof. done. Qed.

Lemma append_empty_l (a : string) : "" +:+ a = a.
Proof. done. Qed.

Lemma strcspn_delims_word w x :
  all_chars plain_char w = true -> ends_token x = true ->
  strcspn_delims (w +:+ x) = (w, x).
Proof.
  intros Hw Hx. induction w as [|c w IH].
  - rewrite append_empty_l. destruct x as [|c x]; [done|].
    cbn in *. by rewrite Hx.
  - rewrite append_String. cbn in Hw |- *.
    apply andb_prop in Hw as [Hc Hw]. unfold plain_char in Hc.
    apply andb_prop in Hc as [Hc _]. apply negb_true_iff in Hc.
    by rewrite Hc, (IH Hw).
Qed.

(** One round of the loop on a plain word. *)
Lemma parseline_loop_word fuel w x st :
  plain_word w = true -> ends_token x = true ->
  parseline_loop (S fuel) (w +:+ x) st
  = if decide (parsing_state st = ST_NORMAL) then
      if (MAXARGS - 1 <=? length (p_argv st ++ [w]))%nat
      then Some (LoopEnd (mkparse (p_argv st ++ [w]) (p_infile st)
                                  (p_outfile st) ST_NORMAL))
      else parseline_loop fuel (str_tail x)
             (mkparse (p_argv st ++ [w]) (p_infile st) (p_outfile st)
                      ST_NORMAL)
    else if decide (parsing_state st = ST_INFILE) then
      if (MAXARGS - 1 <=? length (p_argv st))%nat
      then Some (LoopEnd (mkparse (p_argv st) (Some w) (p_outfile st)
                                  ST_NORMAL))
      else parseline_loop fuel (str_tail x)
             (mkparse (p_argv st) (Some w) (p_outfile st) ST_NORMAL)
    else if decide (parsing_state st = ST_OUTFILE) then
      if (MAXARGS - 1 <=? length (p_argv st))%nat
      then Some (LoopEnd (mkparse (p_argv st) (p_infile st) (Some w)
                                  ST_NORMAL))
      else parseline_loop fuel (str_tail x)
             (mkparse (p_argv st) (p_infile st) (Some w) ST_NORMAL)
    else Some (LoopReturn ambiguous).
Proof.
  intros Hw Hx. destruct w as [|c w]; [done|].
  pose proof Hw as Hw'. cbn [plain_word] in Hw'.
  repeat (apply andb_prop in Hw' as [Hw' ?]).
  pose proof (strcspn_delims_word (String c w) x) as Hsplit.
  rewrite append_String in *.
  assert (is_delim c = false) as Hc.
  { cbn in H. apply andb_prop in H as [H _]. unfold plain_char in H.
    apply andb_prop in H as [H _]. by apply negb_true_iff in H. }
  cbn [parseline_loop skip_delims]. rewrite Hc.
  apply negb_true_iff in Hw', H0, H1, H2. rewrite Hw', H2, H1, H0.
  cbn [orb]. rewrite Hsplit by done.
  cbn zeta. repeat case_match; simplify_eq.
  all: try done.
  all: cbn [p_argv] in *; congruence.
Qed.

Lemma render_cons it items :
  render (it :: items)
  = render_item it +:+ match items with
                       | [] => ""
                       | _ => " " +:+ render items
                       end.
Proof.
  unfold render. destruct items as [|it' items]; cbn [fmap list_fmap String.concat].
  - induction (render_item it) as [|c a IH]; [done|].
    rewrite append_String. by rewrite <- IH.
  - done.
Qed.

(** Leading white space is skipped within the same round. *)
Lemma parseline_loop_skip fuel c y st :
  is_delim c = true ->
  parseline_loop (S fuel) (String c y) st = parseline_loop (S fuel) y st.
Proof.
  intros Hc. cbn [parseline_loop skip_delims]. rewrite Hc.
  by destruct y.
Qed.

(** One round on a redirection operator. *)
Lemma parseline_loop_lt fuel y st :
  parseline_loop (S fuel) (String "<" y) st
  = match p_infile st with
    | Some _ => Some (LoopReturn ambiguous)
    | None =>
        parseline_loop fuel y
          (mkparse (p_argv st) (p_infile st) (p_outfile st)
                   (Z.lor (parsing_state st) ST_INFILE))
    end.
Proof. done. Qed.

Lemma parseline_loop_gt fuel y st :
  parseline_loop (S fuel) (String ">" y) st
  = match p_outfile st with
    | Some _ => Some (LoopReturn ambiguous)
    | None =>
        parseline_loop fuel y
          (mkparse (p_argv st) (p_infile st) (p_outfile st)
                   (Z.lor (parsing_state st) ST_OUTFILE))
    end.
Proof. done. Qed.

(** Two rounds: the operator, then its file name. *)
Lemma parseline_loop_infile fuel f x st :
  plain_word f = true -> ends_token x = true ->
  p_infile st = None -> parsing_state st = ST_NORMAL ->
  (length (p_argv st) < MAXARGS - 1)%nat ->
  parseline_loop (S (S fuel)) ("< " +:+ (f +:+ x)) st
  = parseline_loop fuel (str_tail x)
      (mkparse (p_argv st) (Some f) (p_outfile st) ST_NORMAL).
Proof.
  intros Hf Hx Hin Hst Hargc.
  change ("< " +:+ (f +:+ x)) with (String "<" (String " " (f +:+ x))).
  rewrite parseline_loop_lt, Hin, Hst.
  rewrite parseline_loop_skip by done.
  rewrite parseline_loop_word by done.
  cbn [parsing_state p_argv p_infile p_outfile].
  change (Z.lor ST_NORMAL ST_INFILE) with ST_INFILE.
  rewrite decide_False by done. rewrite decide_True by done.
  destruct (Nat.leb_spec (MAXARGS - 1) (length (p_argv st))); [lia|done].
Qed.

Lemma parseline_loop_outfile fuel f x st :
  plain_word f = true -> ends_token x = true ->
  p_outfile st = None -> parsing_state st = ST_NORMAL ->
  (length (p_argv st) < MAXARGS - 1)%nat ->
  parseline_loop (S (S fuel)) ("> " +:+ (f +:+ x)) st
  = parseline_loop fuel (str_tail x)
      (mkparse (p_argv st) (p_infile st) (Some f) ST_NORMAL).
Proof.
  intros Hf Hx Hout Hst Hargc.
  change ("> " +:+ (f +:+ x)) with (String ">" (String " " (f +:+ x))).
  rewrite parseline_loop_gt, Hout, Hst.
  rewrite parseline_loop_skip by done.
  rewrite parseline_loop_word by done.
  cbn [parsing_state p_argv p_infile p_outfile].
  change (Z.lor ST_NORMAL ST_OUTFILE) with ST_OUTFILE.
  rewrite decide_False by done. rewrite decide_False by done.
  rewrite decide_True by done.
  destruct (Nat.leb_spec (MAXARGS - 1) (length (p_argv st))); [lia|done].
Qed.

Lemma ends_token_tail fuel x st :
  ends_token x = true ->
  parseline_loop (S fuel) x st = parseline_loop (S fuel) (str_tail x) st.
Proof.
  destruct x as [|c x]; [done|]. intros Hc. by apply parseline_loop_skip.
Qed.

(** The loop on a rendered list of items followed by more text: the items
    take [rounds items] rounds and leave the text after the white space
    that follows them. *)
Lemma parseline_loop_render items : forall fuel st x,
  Forall plain_item items ->
  parsing_state st = ST_NORMAL ->
  (length (p_argv st) + length (words items) < MAXARGS - 1)%nat ->
  ends_token x = true ->
  (rounds items < fuel)%nat ->
  parseline_loop fuel (render items +:+ x) st
  = match expect items st with
    | LoopReturn msg => Some (LoopReturn msg)
    | LoopEnd st' => parseline_loop (fuel - rounds items) (str_tail x) st'
    end.
Proof.
  induction items as [|it items IH];
    intros fuel st x Hplain Hst Hargc Hx Hfuel.
  { change (render [] +:+ x) with x. cbn [expect rounds].
    destruct fuel as [|fuel]; [lia|].
    rewrite Nat.sub_0_r. by apply ends_token_tail. }
  apply Forall_cons in Hplain as [Hit Hplain].
  rewrite render_cons, append_assoc.
  set (y := match items with [] => "" | _ => " " +:+ render items end +:+ x).
  assert (ends_token y = true) as Hy by (subst y; by destruct items).
  assert (forall fuel st,
    parsing_state st = ST_NORMAL ->
    (length (p_argv st) + length (words items) < MAXARGS - 1)%nat ->
    (rounds items < fuel)%nat ->
    parseline_loop fuel (str_tail y) st
    = match expect items st with
      | LoopReturn msg => Some (LoopReturn msg)
      | LoopEnd st' => parseline_loop (fuel - rounds items) (str_tail x) st'
      end) as Hrest.
  { intros fuel0 st0 Hst0 Hargc0 Hfuel0. subst y. destruct items as [|it' items'].
    - cbn [expect rounds]. by rewrite Nat.sub_0_r.
    - rewrite append_assoc.
      change (str_tail (" " +:+ (render (it' :: items') +:+ x)))
        with (render (it' :: items') +:+ x).
      by apply IH. }
  clearbody y.
  destruct it as [w|f|f]; cbn [render_item expect rounds] in *.
  - destruct fuel as [|fuel]; [lia|].
    rewrite parseline_loop_word by done.
    rewrite decide_True by done.
    change (words (Word w :: items)) with (w :: words items) in Hargc.
    cbn [length] in Hargc.
    destruct (Nat.leb_spec (MAXARGS - 1) (length (p_argv st ++ [w])))
      as [Hfull|_].
    { rewrite length_app in Hfull. cbn in Hfull. unfold MAXARGS in *. lia. }
    rewrite Hrest; [done|done| |lia].
    cbn [p_argv]. rewrite length_app. cbn [length]. lia.
  - destruct fuel as [|[|fuel]]; [lia..|].
    rewrite append_assoc.
    destruct (p_infile st) eqn:Hin.
    { change ("< " +:+ f +:+ y) with (String "<" (" " +:+ f +:+ y)).
      by rewrite parseline_loop_lt, Hin. }
    change (words (Infile f :: items)) with (words items) in Hargc.
    rewrite parseline_loop_infile by (done || lia).
    rewrite Hrest; [done|done|cbn [p_argv]; lia|lia].
  - destruct fuel as [|[|fuel]]; [lia..|].
    rewrite append_assoc.
    destruct (p_outfile st) eqn:Hout.
    { change ("> " +:+ f +:+ y) with (String ">" (" " +:+ f +:+ y)).
      by rewrite parseline_loop_gt, Hout. }
    change (words (Outfile f :: items)) with (words items) in Hargc.
    rewrite parseline_loop_outfile by (done || lia).
    rewrite Hrest; [done|done|cbn [p_argv]; lia|lia].
Qed.

Lemma expect_ok items : forall st,
  parsing_state st = ST_NORMAL ->
  (length (option_list (p_infile st) ++ infiles items) <= 1)%nat ->
  (length (option_list (p_outfile st) ++ outfiles items) <= 1)%nat ->
  expect items st
  = LoopEnd (mkparse (p_argv st ++ words items)
               (head (option_list (p_infile st) ++ infiles items))
               (head (option_list (p_outfile st) ++ outfiles items))
               ST_NORMAL).
Proof.
  induction items as [|it items IH]; intros [av fi fo ps] Hst Hin Hout;
    cbn in Hst; subst ps.
  { cbn. rewrite !app_nil_r. by destruct fi, fo. }
  destruct it as [w|f|f]; cbn [expect p_argv p_infile p_outfile] in *.
  - rewrite IH by done. cbn [p_argv p_infile p_outfile].
    change (words (Word w :: items)) with (w :: words items).
    by rewrite <- app_assoc.
  - change (infiles (Infile f :: items)) with (f :: infiles items) in *.
    destruct fi as [f0|]; [cbn in Hin; lia|].
    rewrite IH by done. done.
  - change (outfiles (Outfile f :: items)) with (f :: outfiles items) in *.
    destruct fo as [f0|]; [cbn in Hout; lia|].
    rewrite IH by done. cbn [p_argv p_infile p_outfile].
    by destruct fi.
Qed.

Lemma expect_ambiguous items : forall st,
  (1 < length (option_list (p_infile st) ++ infiles items))%nat \/
  (1 < length (option_list (p_outfile st) ++ outfiles items))%nat ->
  expect items st = LoopReturn ambiguous.
Proof.
  induction items as [|it items IH]; intros [av fi fo ps] Hdup;
    cbn [p_infile p_outfile] in Hdup.
  { destruct fi, fo; cbn in Hdup; lia. }
  destruct it as [w|f|f]; cbn [expect p_argv p_infile p_outfile].
  - apply IH. done.
  - destruct fi as [f0|]; [done|]. apply IH. done.
  - destruct fo as [f0|]; [done|]. apply IH. done.
Qed.

Lemma all_chars_append P (a b : string) :
  all_chars P (a +:+ b) = all_chars P a && all_chars P b.
Proof.
  induction a as [|c a IH]; [done|].
  rewrite append_String. cbn. by rewrite IH, andb_assoc.
Qed.

Lemma c_str_append (a b : string) :
  all_chars (fun c => negb (Ascii.eqb c zero)) a = true ->
  c_str (a +:+ b) = a +:+ c_str b.
Proof.
  induction a as [|c a IH]; [done|]. rewrite !append_String. cbn.
  intros [Hc Ha]%andb_prop. apply negb_true_iff in Hc. rewrite Hc.
  by rewrite IH.
Qed.

Lemma all_chars_impl (P Q : ascii -> bool) (s : string) :
  (forall c, P c = true -> Q c = true) ->
  all_chars P s = true -> all_chars Q s = true.
Proof.
  intros HPQ. induction s as [|c s IH]; [done|]. cbn.
  intros [Hc Hs]%andb_prop. by rewrite (HPQ _ Hc), IH.
Qed.

Lemma plain_word_chars w :
  plain_word w = true -> all_chars plain_char w = true.
Proof.
  destruct w as [|c w]; [done|]. cbn [plain_word].
  by intros [_ H]%andb_prop.
Qed.

Lemma plain_word_nul_free w :
  plain_word w = true ->
  all_chars (fun c => negb (Ascii.eqb c zero)) w = true.
Proof.
  intros Hw%plain_word_chars. eapply all_chars_impl; [|exact Hw].
  intros c. unfold plain_char. by intros [_ H]%andb_prop.
Qed.

Lemma render_nul_free items :
  Forall plain_item items ->
  all_chars (fun c => negb (Ascii.eqb c zero)) (render items) = true.
Proof.
  induction 1 as [|it items Hit _ IH]; [done|].
  rewrite render_cons, all_chars_append.
  apply andb_true_intro; split.
  - apply plain_word_nul_free in Hit.
    destruct it; cbn [render_item item_text] in *; rewrite ?all_chars_append;
      by rewrite Hit.
  - destruct items; [done|]. by rewrite all_chars_append, IH.
Qed.

Lemma c_str_length s : (String.length (c_str s) <= String.length s)%nat.
Proof.
  induction s as [|c s IH]; [done|]. cbn.
  destruct (Ascii.eqb c zero); cbn; lia.
Qed.

Lemma append_empty_r (a : string) : a +:+ "" = a.
Proof.
  induction a as [|c a IH]; [done|]. by rewrite append_String, IH.
Qed.

Lemma c_str_id (a : string) :
  all_chars (fun c => negb (Ascii.eqb c zero)) a = true -> c_str a = a.
Proof.
  intros Ha. rewrite <- (append_empty_r a) at 1.
  rewrite c_str_append by done. apply append_empty_r.
Qed.

Lemma c_str_render items :
  Forall plain_item items -> c_str (render items) = render items.
Proof.
  intros Hplain. rewrite <- (append_empty_r (render items)) at 1.
  rewrite c_str_append by by apply render_nul_free.
  apply append_empty_r.
Qed.

Lemma rounds_length items :
  Forall plain_item items -> (rounds items <= String.length (render items))%nat.
Proof.
  induction 1 as [|it items Hit _ IH]; [done|].
  rewrite render_cons, length_append.
  assert (String.length match items with
                        | [] => ""
                        | _ => " " +:+ render items
                        end >= rounds items)%nat as Htl.
  { destruct items; [done|]. rewrite length_append. lia. }
  unfold plain_item in Hit.
  destruct it as [w|f|f]; cbn [render_item rounds item_text] in *;
    rewrite ?length_append; destruct_or?;
    match goal with H : plain_word ?w = true |- _ => destruct w; [done|] end;
    cbn [String.length]; lia.
Qed.

Lemma strchr_c_str body q :
  strchr body q = None -> strchr (c_str body) q = None.
Proof.
  induction body as [|c body IH]; [done|]. cbn.
  destruct (Ascii.eqb c q) eqn:Hq; [done|].
  destruct (strchr body q) as [[t r]|]; [done|]. intros _.
  destruct (Ascii.eqb c zero); [done|]. cbn. by rewrite Hq, IH.
Qed.

(** A round on an opening quote that is not closed. *)
Lemma parseline_loop_unmatched fuel q body st :
  is_quote q -> strchr body q = None ->
  parseline_loop (S fuel) (String q body) st
  = Some (LoopReturn (unmatched q)).
Proof.
  intros [->| ->] Hq; cbn [parseline_loop skip_delims];
    match goal with |- context [is_delim ?c] =>
      change (is_delim c) with false end;
    cbn; by rewrite Hq.
Qed.

Lemma skip_delims_blank s :
  all_chars is_delim s = true -> skip_delims s = "".
Proof.
  induction s as [|c s IH]; [done|]. cbn.
  intros [Hc Hs]%andb_prop. rewrite Hc. by apply IH.
Qed.

Lemma c_str_blank s : all_chars is_delim s = true -> c_str s = s.
Proof.
  intros Hs. rewrite <- (append_empty_r s) at 1.
  rewrite c_str_append; [apply append_empty_r|].
  eapply all_chars_impl; [|exact Hs].
  intros c Hc. destruct (Ascii.eqb_spec c zero) as [->|]; done.
Qed.

Lemma parseline_loop_msg fuel : forall buf st msg,
  parseline_loop fuel buf st = Some (LoopReturn msg) ->
  msg = ambiguous \/ exists q, msg = unmatched q.
Proof.
  induction fuel as [|fuel IH]; intros buf st msg Hloop; [done|].
  cbn [parseline_loop] in Hloop.
  destruct buf as [|c0 buf0]; [done|].
  destruct (skip_delims (String c0 buf0)) as [|c rest]; [done|].
  destruct (Ascii.eqb c "<").
  { destruct (p_infile st); [left; congruence|]. by apply IH in Hloop. }
  destruct (Ascii.eqb c ">").
  { destruct (p_outfile st); [left; congruence|]. by apply IH in Hloop. }
  destruct (if Ascii.eqb c "'" || Ascii.eqb c (ascii_of_nat 34)
            then strchr rest c else Some (strcspn_delims (String c rest)))
    as [[token from_next]|].
  - cbn zeta in Hloop.
    repeat case_match; simplify_eq; try (by left); by apply IH in Hloop.
  - right. exists c. congruence.
Qed.

Lemma last_default (l : list string) (d : string) :
  l <> [] -> last l = Some (List.last l d).
Proof.
  induction l as [|a [|b l] IH]; [done|done|]. intros _.
  change (last (b :: l) = Some (List.last (b :: l) d)). by apply IH.
Qed.

Lemma c_str_fixed (a : string) :
  c_str a = a -> all_chars (fun c => negb (Ascii.eqb c zero)) a = true.
Proof.
  induction a as [|c a IH]; [done|]. cbn.
  destruct (Ascii.eqb c zero); [done|]. intros [= Ha]. by apply IH.
Qed.

Lemma strchr_close body q rest :
  strchr body q = None ->
  strchr (body +:+ String q rest) q = Some (body, String q rest).
Proof.
  induction body as [|c body IH].
  - intros _. rewrite append_empty_l. cbn. by rewrite Ascii.eqb_refl.
  - rewrite append_String. cbn.
    destruct (Ascii.eqb c q); [done|].
    destruct (strchr body q) as [[t r]|] eqn:Hq; [done|]. intros _.
    by rewrite IH.
Qed.

(** A round on a quoted token. *)
Lemma parseline_loop_quoted fuel q body rest st :
  is_quote q -> strchr body q = None ->
  parsing_state st = ST_NORMAL ->
  (length (p_argv st) + 1 < MAXARGS - 1)%nat ->
  parseline_loop (S fuel) (String q (body +:+ String q rest)) st
  = parseline_loop fuel rest
      (mkparse (p_argv st ++ [body]) (p_infile st) (p_outfile st) ST_NORMAL).
Proof.
  intros Hq Hbody Hst Hargc.
  assert (is_delim q = false /\ Ascii.eqb q "<" = false /\
          Ascii.eqb q ">" = false /\
          Ascii.eqb q "'" || Ascii.eqb q (ascii_of_nat 34) = true)
    as (H1 & H2 & H3 & H4) by (by destruct Hq as [->| ->]).
  cbn [parseline_loop skip_delims]. rewrite H1, H2, H3, H4.
  rewrite strchr_close by done. cbn zeta. rewrite decide_True by done.
  cbn [p_argv str_tail].
  destruct (Nat.leb_spec (MAXARGS - 1) (length (p_argv st ++ [body])))
    as [Hfull|_]; [|done].
  rewrite length_app in Hfull. cbn [length] in Hfull. lia.
Qed.

Lemma fuel_pos (a b : nat) : (b < a)%nat -> exists m, (a - b = S m)%nat.
Proof. intros. exists (a - b - 1)%nat. lia. Qed.

Lemma fuel_sub (n k : nat) : (k <= n)%nat -> exists m, (S n - k = S m)%nat.
Proof. intros. exists (n - k)%nat. lia. Qed.
End Parseline.

(** ** Adding, finding and deleting a job *)

Section AddFind.
Implicit Types (s : shell) (jl : list job_t) (j : job_t) (i : nat) (p : Z).

Lemma list_find_insert_ne (P : job_t -> Prop) `{!forall j, Decision (P j)}
    jl i j j' :
  jl !! i = Some j -> ~ P j -> ~ P j' ->
  list_find P (<[i := j']> jl) = list_find P jl.
Proof.
  intros Hi Hj Hj'.
  destruct (list_find P jl) as [[k x]|] eqn:E.
  - apply list_find_Some in E as (Hk & Hx & Hbefore).
    assert (k <> i) by (intros ->; by simplify_eq).
    apply list_find_Some. split_and!.
    + by rewrite list_lookup_insert_ne.
    + done.
    + intros m y Hm Hlt. destruct (decide (m = i)) as [->|].
      * rewrite list_lookup_insert_eq in Hm by (by eapply lookup_lt_Some).
        by simplify_eq.
      * rewrite list_lookup_insert_ne in Hm by done. by eapply Hbefore.
  - apply list_find_None. apply list_find_None in E.
    by apply Forall_insert.
Qed.

Lemma list_find_insert_fresh (P : job_t -> Prop) `{!forall j, Decision (P j)}
    jl i j j' :
  jl !! i = Some j -> Forall (fun j => ~ P j) jl -> P j' ->
  list_find P (<[i := j']> jl) = Some (i, j').
Proof.
  intros Hi Hfresh Hj'. apply list_find_Some. split_and!.
  - apply list_lookup_insert_eq. by eapply lookup_lt_Some.
  - done.
  - intros k y Hk Hlt. rewrite list_lookup_insert_ne in Hk by lia.
    rewrite Forall_lookup in Hfresh. by eapply Hfresh.
Qed.

Lemma addjob_found s p st cmd i j :
  0 < p -> list_find (fun j => pid j = 0) (job_list s) = Some (i, j) ->
  addjob p st cmd s = Ret 1 (added i p st cmd s).
Proof.
  intros Hp Hfind. unfold addjob, added.
  destruct (Z.ltb_spec p 1); [lia|].
  unfold bind at 1. unfold get_jobs at 1. rewrite Hfind.
  unfold_shell. cbn. by destruct (verbose s).
Qed.

Lemma added_jobs i p st cmd s :
  job_list (added i p st cmd s)
  = <[i := mkjob p (nextjid s) st cmd]> (job_list s).
Proof. unfold added. by destruct (verbose s). Qed.

Lemma added_nextjid i p st cmd s :
  nextjid (added i p st cmd s)
  = if Z.of_nat MAXJOBS <? nextjid s + 1 then 1 else nextjid s + 1.
Proof. unfold added. by destruct (verbose s). Qed.

Lemma added_sio_out i p st cmd s : sio_out (added i p st cmd s) = sio_out s.
Proof. unfold added. by destruct (verbose s). Qed.

Lemma added_sent i p st cmd s : sent (added i p st cmd s) = sent s.
Proof. unfold added. by destruct (verbose s). Qed.

Lemma added_stdio_out i p st cmd s :
  stdio_out (added i p st cmd s)
  = stdio_out s +:+ added_note (verbose s) (nextjid s) p cmd.
Proof.
  unfold added, added_note. destruct (verbose s); [done|].
  cbn [stdio_out set_nextjid set_jobs]. by rewrite append_empty_r.
Qed.

Lemma added_verbose i p st cmd s : verbose (added i p st cmd s) = verbose s.
Proof. unfold added. by destruct (verbose s) eqn:E. Qed.

Lemma added_files i p st cmd s : files (added i p st cmd s) = files s.
Proof. unfold added. by destruct (verbose s). Qed.

Lemma free_slot_find jl :
  Exists (fun j => pid j = 0) jl ->
  exists i j, list_find (fun j => pid j = 0) jl = Some (i, j).
Proof.
  intros (j & Hin & Hj)%Exists_exists.
  destruct (list_find (fun j => pid j = 0) jl) as [[i j']|] eqn:E; [eauto|].
  rewrite list_find_None, Forall_forall in E. by destruct (E j Hin).
Qed.

Lemma maxjid_nonneg jl : 0 <= maxjid jl.
Proof. unfold maxjid. rewrite maxjid_from_foldr. apply foldr_max_nonneg. Qed.

Lemma initjobs_all jl : Forall (fun j => j = mkjob 0 0 UNDEF "") (initjobs jl).
Proof. unfold initjobs. induction jl; cbn; by constructor. Qed.

Lemma concat_empty (l : list string) :
  Forall (fun x => x = "") l -> String.concat "" l = "".
Proof.
  induction 1 as [|x l -> _ IH]; [done|].
  cbn [String.concat]. destruct l; [done|]. by rewrite IH.
Qed.

Lemma imap_rows_empty jl : forall (f : nat -> nat),
  Forall (fun j => pid j = 0) jl ->
  Forall (fun x => x = "") (imap (fun i => listjobs_row (f i)) jl).
Proof.
  induction jl as [|j jl IH]; intros f Hall; [by constructor|].
  apply Forall_cons in Hall as [Hj Hall]. cbn [imap]. constructor.
  - unfold listjobs_row. by rewrite decide_True.
  - apply (IH (f ∘ S)), Hall.
Qed.
End AddFind.

(** ** Launching a job *)

Section Launch.
Implicit Types (s : shell) (jl : list job_t) (j : job_t) (i : nat) (p : Z).

Lemma eval_parent_found s bg p cmd i j :
  0 < p ->
  list_find (fun j => pid j = 0) (job_list s) = Some (i, j) ->
  Forall (fun j => pid j <> p) (job_list s) ->
  eval_parent bg p cmd s
  = if decide (bg = 0) then
      Ret (WaitWhileFgIs p) (added i p (bg + 1) cmd s)
    else
      Ret Done (add_sio (job_line (nextjid s) p cmd)
                        (added i p (bg + 1) cmd s)).
Proof.
  intros Hp Hfind Hfresh. unfold eval_parent.
  rewrite (bind_Ret _ _ _ _ _ (addjob_found _ _ (bg + 1) cmd _ _ Hp Hfind)).
  unfold bind at 1. unfold get_jobs at 1.
  apply list_find_Some in Hfind as (Hi & Hj & _).
  assert (pid2jid (job_list (added i p (bg + 1) cmd s)) p = nextjid s) as ->.
  { rewrite added_jobs. unfold pid2jid. destruct (Z.ltb_spec p 1); [lia|].
    by erewrite list_find_insert_fresh. }
  destruct (decide (bg = 0)); [done|].
  unfold sio_putl, sio_puts, bind, ret. cbn.
  by rewrite !add_sio_add_sio, ?append_assoc.
Qed.

Lemma eval_launch cmd bg tok o s a :
  bg <> -1 -> argv tok !! 0%nat = Some a -> builtins tok = BUILTIN_NONE ->
  0 < fork_pid o ->
  eval cmd bg tok o s = eval_parent bg (fork_pid o) cmd s.
Proof.
  intros Hbg Ha Hb Hp. unfold eval, builtin_command.
  rewrite decide_False by done. rewrite Ha, Hb.
  unfold bind at 1. unfold ret at 1. cbn [fst snd].
  rewrite decide_True by done.
  destruct (Z.ltb_spec (fork_pid o) 0); [lia|].
  rewrite decide_False by lia. done.
Qed.
End Launch.

(** ** Decimal notation read back; the in-place reversal *)

Section ReadBack.
Local Open Scope list_scope.
Lemma sio_reverse_loop_middle (fuel : nat) :
  forall (pre mid post : list ascii),
  (length mid < fuel)%nat ->
  sio_reverse_loop fuel (Z.of_nat (length pre))
    (Z.of_nat (length pre + length mid) - 1) (pre ++ mid ++ post)
  = Some (pre ++ rev mid ++ post).
Proof.
  induction fuel as [|fuel IH]; intros pre mid post Hfuel; [lia|].
  cbn [sio_reverse_loop].
  destruct mid as [|x mid]; [|destruct mid as [|y mid _] using rev_ind].
  - cbn [length rev app]. by rewrite (proj2 (Z.ltb_ge _ _)) by lia.
  - cbn [length rev app]. by rewrite (proj2 (Z.ltb_ge _ _)) by lia.
  - rewrite length_cons, length_app in *. cbn [length] in *.
    destruct (Z.ltb_spec (Z.of_nat (length pre))
                (Z.of_nat (length pre + S (length mid + 1)) - 1)); [|lia].
    rewrite Nat2Z.id.
    replace (Z.to_nat (Z.of_nat (length pre + S (length mid + 1)) - 1))
      with (length (pre ++ x :: mid))%nat
      by (rewrite length_app; cbn [length]; lia).
    replace (pre ++ (x :: mid ++ [y]) ++ post)
      with ((pre ++ x :: mid) ++ y :: post)
      by (by simplify_list_eq).
    rewrite (list_lookup_middle (pre ++ x :: mid) post y _ eq_refl).
    rewrite <- app_assoc. cbn [app].
    rewrite (list_lookup_middle pre _ x) by done.
    replace (<[length pre := y]> (pre ++ x :: mid ++ y :: post))
      with ((pre ++ y :: mid) ++ y :: post).
    2: { rewrite <- app_assoc. cbn [app].
         rewrite <- (Nat.add_0_r (length pre)) at 1.
         by rewrite insert_app_r. }
    replace (length (pre ++ x :: mid)) with (length (pre ++ y :: mid) + 0)%nat
      by (rewrite !length_app; cbn [length]; lia).
    rewrite insert_app_r. cbn [insert list_insert].
    replace ((pre ++ y :: mid) ++ x :: post)
      with ((pre ++ [y]) ++ mid ++ (x :: post))
      by (by rewrite <- !app_assoc).
    replace (Z.of_nat (length pre) + 1) with (Z.of_nat (length (pre ++ [y])))
      by (rewrite length_app; cbn [length]; lia).
    replace (Z.of_nat (length pre + S (length mid + 1)) - 1 - 1)
      with (Z.of_nat (length (pre ++ [y]) + length mid) - 1)
      by (rewrite length_app; cbn [length]; lia).
    rewrite IH by lia.
    cbn [rev]. rewrite rev_app_distr. cbn [rev app].
    by simplify_list_eq.
Qed.


Lemma digit_val_char (d : Z) :
  0 <= d < 10 -> digit_val (char_of_Z (d + 48)) = Some d.
Proof.
  intros Hd.
  assert (d = 0 \/ d = 1 \/ d = 2 \/ d = 3 \/ d = 4 \/ d = 5 \/ d = 6 \/
          d = 7 \/ d = 8 \/ d = 9) as Hcases by lia.
  destruct_or!; by subst.
Qed.

Lemma atoi_digits_app (acc : Z) (s1 s2 : string) :
  all_chars is_digit s1 = true ->
  atoi_digits acc (s1 +:+ s2) = atoi_digits (atoi_digits acc s1) s2.
Proof.
  revert acc. induction s1 as [|c s1 IH]; intros acc; [done|].
  change (String c s1 +:+ s2) with (String c (s1 +:+ s2)). cbn.
  unfold is_digit. destruct (digit_val c); [|done]. cbn. apply IH.
Qed.

Lemma sio_ltoa_digits (v : Z) :
  0 <= v ->
  all_chars is_digit (sio_ltoa v 10) = true /\
  atoi_digits 0 (sio_ltoa v 10) = v.
Proof.
  pattern v. apply (well_founded_induction (Z.lt_wf 0)). clear v.
  intros v IH Hv. rewrite sio_ltoa_decimal by done.
  assert (0 <= v mod 10 < 10) as Hd by (apply Z.mod_pos_bound; lia).
  pose proof (digit_val_char _ Hd) as Hdigit.
  destruct (Z.ltb_spec v 10).
  - change ("" +:+ ?x) with x. cbn. rewrite Hdigit. unfold is_digit.
    rewrite (Z.mod_small v 10) in * by lia. rewrite Hdigit. split; [done|lia].
  - destruct (IH (v / 10)) as [Hall Hval].
    { split; [apply Z.div_pos; lia|apply Z.div_lt; lia]. }
    { apply Z.div_pos; lia. }
    split.
    + rewrite all_chars_append, Hall. cbn. unfold is_digit.
      by rewrite Hdigit.
    + rewrite atoi_digits_app, Hval by done. cbn. rewrite Hdigit.
      pose proof (Z.div_mod v 10). lia.
Qed.

Lemma numeral_digit_start (c : ascii) (s : string) :
  is_digit c = true -> numeral (String c s) = atoi_digits 0 (String c s).
Proof.
  unfold is_digit, digit_val, numeral, isspace.
  destruct (N.leb_spec 48 (N_of_ascii c)); [|done].
  destruct (N.leb_spec (N_of_ascii c) 57); [|done]. intros _.
  destruct (N.leb_spec (N_of_ascii c) 13); [lia|].
  rewrite andb_false_r.
  destruct (N.eqb_spec (N_of_ascii c) 32); [lia|]. cbn [orb].
  destruct (Ascii.eqb_spec c "-") as [->|]; [cbn in *; lia|].
  destruct (Ascii.eqb_spec c "+") as [->|]; [cbn in *; lia|].
  done.
Qed.

(** [atoi] answers an [int], and the number that the text denotes when
    that number is an [int]. *)
Lemma int_of_long_range (v : Z) : INT_MIN <= int_of_long v <= INT_MAX.
Proof.
  unfold int_of_long, INT_MIN, INT_MAX.
  pose proof (Z.mod_pos_bound (v + 2 ^ 31) (2 ^ 32)). lia.
Qed.

Lemma atoi_range (s : string) : INT_MIN <= atoi s <= INT_MAX.
Proof. apply int_of_long_range. Qed.

Lemma atoi_numeral (s : string) :
  INT_MIN <= numeral s <= INT_MAX -> atoi s = numeral s.
Proof.
  unfold atoi, strtol, int_of_long, INT_MIN, INT_MAX, LONG_MIN, LONG_MAX.
  intros Hv. rewrite Z.min_r, Z.max_r by lia.
  rewrite Z.mod_small by lia. lia.
Qed.

Lemma atoi_wraps :
  atoi "4294967396" = 100 /\ atoi "4294967297" = 1 /\
  atoi "4294967296" = 0 /\ atoi "2147483648" = INT_MIN /\
  atoi "9223372036854775808" = (-1) /\ atoi " -42abc" = (-42).
Proof. by vm_compute. Qed.

Lemma sio_ltoa_cons (v : Z) :
  0 <= v -> exists c s, sio_ltoa v 10 = String c s /\ is_digit c = true.
Proof.
  intros Hv. destruct (sio_ltoa_digits v Hv) as [Hall _].
  destruct (sio_ltoa v 10) as [|c s] eqn:E.
  - rewrite sio_ltoa_decimal in E by done.
    destruct (if v <? 10 then "" else sio_ltoa (v / 10) 10); done.
  - exists c, s. split; [done|]. cbn in Hall. by apply andb_prop in Hall as [? _].
Qed.

Lemma numeral_sio_ltoa (v : Z) : 0 <= v -> numeral (sio_ltoa v 10) = v.
Proof.
  intros Hv. destruct (sio_ltoa_cons v Hv) as (c & s & E & Hc).
  destruct (sio_ltoa_digits v Hv) as [_ Hval].
  rewrite E in *. by rewrite numeral_digit_start.
Qed.

Lemma atoi_sio_ltoa (v : Z) :
  0 <= v <= INT_MAX -> atoi (sio_ltoa v 10) = v.
Proof.
  intros Hv. rewrite atoi_numeral; rewrite numeral_sio_ltoa by lia;
    [done|unfold INT_MIN, INT_MAX in *; lia].
Qed.

Lemma numeral_fmt_d (v : Z) : numeral (fmt_d v) = v.
Proof.
  unfold fmt_d. destruct (Z.ltb_spec v 0).
  - change (numeral ("-" +:+ sio_ltoa (- v) 10))
      with (- atoi_digits 0 (sio_ltoa (- v) 10)).
    destruct (sio_ltoa_digits (- v)) as [_ ->]; lia.
  - by apply numeral_sio_ltoa.
Qed.

Lemma atoi_fmt_d (v : Z) :
  INT_MIN <= v <= INT_MAX -> atoi (fmt_d v) = v.
Proof.
  intros Hv. rewrite atoi_numeral; rewrite numeral_fmt_d; done.
Qed.

Lemma sio_ltoa_nonpos (v : Z) :
  v <= 0 -> sio_ltoa v 10 = String (char_of_Z (Z.rem v 10 + 48)) "".
Proof.
  intros Hv. unfold sio_ltoa. rewrite Z.log2_nonpos by done.
  change (Z.to_nat 0) with 0%nat. cbn [ltoa_loop].
  destruct (Z.ltb_spec (Z.rem v 10) 10) as [_|Hrem]; [reflexivity|].
  pose proof (Z.rem_bound_pos_neg v 10). lia.
Qed.
End ReadBack.

(** ** The builtins fg and bg on a job that exists *)

Section Resume.
Implicit Types (s : shell) (jl : list job_t) (j : job_t) (i : nat) (p : Z).

(** The argument of [fg] and [bg] is read into an [int]: [%4294967297]
    names job 1, and [%4294967296] is the job id 0. *)
Lemma fg_bg_int_argument :
  (exists s', execute_bg (bg_tok "%4294967297") two_jobs = Ret () s') /\
  execute_fg (fg_tok "%4294967296") two_jobs
  = Ret Done (add_sio ("fg: argument must be a nonzero %%jobid" +:+ nl)
                      two_jobs).
Proof. split; [eexists|]; vm_compute; reflexivity. Qed.





End Resume.

(** ** What quit and the handlers leave of the table *)

Section Frames.
Implicit Types (s : shell) (jl : list job_t) (j : job_t) (i : nat) (p : Z).

Lemma deletejob_cases p s :
  deletejob p s = Ret 0 s \/
  exists i j, list_find (fun j => pid j = p) (job_list s) = Some (i, j) /\
              0 < p /\ deletejob p s = Ret 1 (deleted i s).
Proof.
  destruct (Z.ltb_spec p 1) as [Hp|Hp].
  { left. unfold deletejob. by rewrite (proj2 (Z.ltb_lt _ _) Hp). }
  destruct (list_find (fun j => pid j = p) (job_list s)) as [[i j]|] eqn:E.
  - right. exists i, j. split_and!; [done|lia|].
    eapply deletejob_found; [lia|exact E].
  - left. apply deletejob_not_found. unfold getjobpid.
    rewrite (proj2 (Z.ltb_ge _ _) Hp). by rewrite E.
Qed.

Lemma Forall2_alter_same {A} (R : A -> A -> Prop) (f : A -> A) (l : list A) i :
  (forall x, R x x) -> (forall x, l !! i = Some x -> R x (f x)) ->
  Forall2 R l (alter f i l).
Proof.
  intros Hrefl Hf. apply Forall2_same_length_lookup. split.
  - by rewrite length_alter.
  - intros k x y Hx Hy. rewrite list_lookup_alter in Hy.
    destruct (decide (i = k)) as [->|].
    + rewrite Hx in Hy. cbn in Hy. simplify_eq. by apply Hf.
    + by simplify_eq.
Qed.

Lemma Forall2_trans_same {A} (R : A -> A -> Prop) (l1 l2 l3 : list A) :
  (forall x y z, R x y -> R y z -> R x z) ->
  Forall2 R l1 l2 -> Forall2 R l2 l3 -> Forall2 R l1 l3.
Proof.
  intros Htrans H12. revert l3.
  induction H12 as [|x y l1 l2 Hxy _ IH]; intros l3 H23.
  - by inversion H23.
  - inversion H23 as [|? z ? l3' Hyz H23']; subst. constructor; eauto.
Qed.

Lemma Forall2_refl_same {A} (R : A -> A -> Prop) (l : list A) :
  (forall x, R x x) -> Forall2 R l l.
Proof. intros Hrefl. induction l; by constructor. Qed.

Lemma slot_kept_or_cleared_trans j1 j2 j3 :
  slot_kept_or_cleared j1 j2 -> slot_kept_or_cleared j2 j3 ->
  slot_kept_or_cleared j1 j3.
Proof. intros [->| ->] [->| ->]; (by left) || by right. Qed.

Lemma slot_after_trans j1 j2 j3 :
  slot_after j1 j2 -> slot_after j2 j3 -> slot_after j1 j3.
Proof.
  unfold slot_after.
  intros [->|[[-> Hp]| ->]] [->|[[-> Hp']| ->]]; cbn in *;
    try lia; eauto.
Qed.

Lemma execute_quit_Exit evs : forall s,
  exists s',
    execute_quit evs s = Exit 0 s' /\
    sio_out s' = sio_out s /\ stdio_out s' = stdio_out s /\
    sent s' = (sent s ++ quit_signals evs)%list /\
    Forall2 slot_kept_or_cleared (job_list s) (job_list s').
Proof.
  induction evs as [|[p status] evs IH]; intros s.
  { exists s. cbn. rewrite app_nil_r. split_and!; try done.
    apply Forall2_refl_same. by left. }
  cbn [execute_quit quit_signals]. destruct (0 <? p).
  2: { exists s. rewrite app_nil_r. split_and!; try done.
       apply Forall2_refl_same. by left. }
  assert (exists s1,
    (match status with
     | WStopped _ => kill (- p) SIGINT
     | _ => run deletejob p; ret ()
     end) s = Ret () s1 /\
    sio_out s1 = sio_out s /\ stdio_out s1 = stdio_out s /\
    sent s1 = (sent s ++ match status with
                         | WStopped _ => [(- p, SIGINT)]
                         | _ => []
                         end)%list /\
    Forall2 slot_kept_or_cleared (job_list s) (job_list s1))
    as (s1 & Hs1 & Hsio & Hstd & Hsent & Hjl).
  { assert (exists s1,
      (run deletejob p; ret ()) s = Ret () s1 /\
      sio_out s1 = sio_out s /\ stdio_out s1 = stdio_out s /\
      sent s1 = (sent s ++ [])%list /\
      Forall2 slot_kept_or_cleared (job_list s) (job_list s1)) as Hdel.
    { destruct (deletejob_cases p s) as [E|(i & j & _ & _ & E)].
      - exists s. rewrite (bind_Ret _ _ _ _ _ E), app_nil_r.
        split_and!; try done. apply Forall2_refl_same. by left.
      - exists (deleted i s). rewrite (bind_Ret _ _ _ _ _ E), app_nil_r.
        split_and!; try done. rewrite deleted_jobs.
        apply Forall2_alter_same; [by left|]. intros x _. by right. }
    destruct status; try exact Hdel.
    eexists. split; [done|]. split_and!; try done.
    apply Forall2_refl_same. by left. }
  rewrite (bind_Ret _ _ _ _ _ Hs1).
  destruct (IH s1) as (s' & Hq & Hsio' & Hstd' & Hsent' & Hjl').
  exists s'. split_and!.
  - done.
  - congruence.
  - congruence.
  - rewrite Hsent', Hsent. rewrite <- app_assoc. by destruct status.
  - eapply Forall2_trans_same; [apply slot_kept_or_cleared_trans|done..].
Qed.

Lemma sigchld_reap_frame p status s s' :
  0 < p -> sigchld_reap p status s = Ret () s' ->
  sent s' = sent s /\ Forall2 slot_after (job_list s) (job_list s').
Proof.
  intros Hp H.
  assert (forall jl, Forall2 slot_after jl jl) as Hrefl
    by (intros jl; apply Forall2_refl_same; by left).
  destruct (getjobpid (job_list s) p) as [i|] eqn:Hg.
  - destruct (getjobpid_Some _ _ _ Hg) as (_ & j & Hi & Hj).
    destruct status as [sig|sig|code|].
    + rewrite (sigchld_reap_stopped _ _ _ _ sig Hg Hi) in H.
      destruct (decide (state j <> ST)); simplify_eq; [|done].
      split; [done|]. rewrite with_state_jobs.
      apply Forall2_alter_same; [by left|]. intros x Hx.
      cbn in Hx. simplify_eq. right; left. split; [done|lia].
    + rewrite (sigchld_reap_signaled _ _ _ _ sig Hg Hi) in H.
      simplify_eq. split; [done|]. rewrite deleted_jobs.
      apply Forall2_alter_same; [by left|]. intros x _. by right; right.
    + rewrite (sigchld_reap_exited _ _ _ code Hg) in H.
      simplify_eq. split; [done|]. rewrite deleted_jobs.
      apply Forall2_alter_same; [by left|]. intros x _. by right; right.
    + cbn in H. unfold ret in H. by simplify_eq.
  - destruct (sigchld_reap_untracked _ _ Hg) as (H1 & H2 & H3).
    destruct status as [sig|sig|code|].
    + by rewrite H1 in H.
    + by rewrite H2 in H.
    + rewrite H3 in H. by simplify_eq.
    + cbn in H. unfold ret in H. by simplify_eq.
Qed.

Lemma sigchld_handler_slots evs : forall s s',
  sigchld_handler evs s = Ret () s' ->
  sent s' = sent s /\ Forall2 slot_after (job_list s) (job_list s').
Proof.
  induction evs as [|[p status] evs IH]; intros s s' H.
  - cbn in H. unfold ret in H. simplify_eq. split; [done|].
    apply Forall2_refl_same. by left.
  - cbn [sigchld_handler] in H. destruct (Z.ltb_spec 0 p).
    + destruct (sigchld_reap p status s) as [[] s1| | |] eqn:E;
        unfold bind in H; rewrite E in H; [|done..].
      apply sigchld_reap_frame in E as [Hsent Hjl]; [|done].
      apply IH in H as [Hsent' Hjl']. split; [congruence|].
      eapply Forall2_trans_same; [apply slot_after_trans|done..].
    + cbn in H. unfold ret in H. simplify_eq. split; [done|].
      apply Forall2_refl_same. by left.
Qed.
End Frames.

(** ** Pids and job ids stay positive *)

Section Positive.
Implicit Types (s : shell) (jl : list job_t) (j : job_t) (i : nat) (p : Z).

Lemma execute_bg_nextjid tok s s' :
  execute_bg tok s = Ret () s' -> nextjid s' = nextjid s.
Proof.
  intros H. unfold execute_bg, store_state in H. shell_inv H; done.
Qed.

Lemma execute_fg_lookup_nextjid tok s r s' :
  execute_fg_lookup tok s = Ret r s' -> nextjid s' = nextjid s.
Proof.
  intros H. unfold execute_fg_lookup in H. shell_inv H; done.
Qed.

Lemma execute_fg_commit_nextjid tj p s s' :
  execute_fg_commit tj p s = Ret () s' -> nextjid s' = nextjid s.
Proof.
  intros H. unfold execute_fg_commit, store_state in H. shell_inv H; done.
Qed.

Lemma execute_fg_nextjid tok s w s' :
  execute_fg tok s = Ret w s' -> nextjid s' = nextjid s.
Proof.
  intros H. unfold execute_fg in H.
  destruct (execute_fg_lookup tok s) as [r s1| | |] eqn:E;
    unfold bind in H; rewrite E in H; [|done..].
  apply execute_fg_lookup_nextjid in E.
  destruct r as [[tj p]|]; [|unfold ret in H; by simplify_eq].
  destruct (execute_fg_commit tj p s1) as [[] s2| | |] eqn:E2; [|done..].
  apply execute_fg_commit_nextjid in E2. unfold ret in H. simplify_eq.
  congruence.
Qed.

Lemma eval_parent_nextjid bg p cmd s w s' :
  eval_parent bg p cmd s = Ret w s' ->
  nextjid s' = nextjid s \/ nextjid s' = 1 \/ nextjid s' = nextjid s + 1.
Proof.
  intros H. unfold eval_parent, addjob in H. shell_inv H; auto.
Qed.

Lemma eval_nextjid cmd bg tok o s w s' :
  eval cmd bg tok o s = Ret w s' ->
  nextjid s' = nextjid s \/ nextjid s' = 1 \/ nextjid s' = nextjid s + 1.
Proof.
  intros H. unfold eval in H.
  destruct (decide (bg = -1)); [left; by shell_inv H|].
  destruct (argv tok !! 0%nat); [|left; by shell_inv H].
  unfold builtin_command in H.
  destruct (builtins tok).
  - unfold bind at 1 in H. unfold ret at 1 in H. cbn [fst snd] in H.
    destruct (decide (0 = 0)); [|done].
    destruct (Z.ltb_spec (fork_pid o) 0); [by shell_inv H|].
    destruct (decide (fork_pid o = 0)); [by apply eval_child_no_Ret in H|].
    by apply eval_parent_nextjid in H.
  - exfalso.
    destruct (execute_quit (reaped o) s) as [[] s1| | |] eqn:E;
      unfold bind in H; rewrite E in H; [|done..].
    by apply execute_quit_no_Ret in E.
  - left. shell_inv H; done.
  - destruct (execute_bg tok s) as [[] s1| | |] eqn:E;
      unfold bind in H; rewrite E in H; [|done..].
    unfold ret in H. cbn in H. destruct (decide (1 = 0)); [done|].
    simplify_eq. left. by apply execute_bg_nextjid in E.
  - destruct (execute_fg tok s) as [w1 s1| | |] eqn:E;
      unfold bind in H; rewrite E in H; [|done..].
    unfold ret in H. cbn in H. destruct (decide (1 = 0)); [done|].
    simplify_eq. left. by apply execute_fg_nextjid in E.
Qed.

Lemma slot_wf_state st j : slot_wf j -> slot_wf (set_state st j).
Proof. done. Qed.

Lemma slot_wf_clearjob j : slot_wf (clearjob j).
Proof. by left. Qed.

Lemma table_wf_init v : table_wf (init_shell v).
Proof.
  split_and!; [done|done|].
  cbn. repeat constructor; by left.
Qed.

Lemma table_wf_with_state i st s : table_wf s -> table_wf (with_state i st s).
Proof.
  intros (Hlen & Hnext & Hall). split_and!.
  - by rewrite with_state_jobs, length_alter.
  - done.
  - rewrite with_state_jobs. apply Forall_alter; [done|].
    intros j _ Hj. by apply slot_wf_state.
Qed.

Lemma table_wf_deleted i s : table_wf s -> table_wf (deleted i s).
Proof.
  intros (Hlen & Hnext & Hall). split_and!.
  - by rewrite deleted_jobs, length_alter.
  - unfold deleted. cbn [nextjid set_nextjid].
    pose proof (maxjid_nonneg (alter clearjob i (job_list s))). lia.
  - rewrite deleted_jobs. apply Forall_alter; [done|].
    intros j _ _. apply slot_wf_clearjob.
Qed.

Lemma table_wf_frame s s' :
  job_list s' = job_list s -> nextjid s' = nextjid s ->
  table_wf s -> table_wf s'.
Proof. unfold table_wf. by intros -> ->. Qed.

Lemma sigchld_reap_wf p status s s' :
  sigchld_reap p status s = Ret () s' -> table_wf s -> table_wf s'.
Proof.
  intros H Hwf. destruct (getjobpid (job_list s) p) as [i|] eqn:Hg.
  - destruct (getjobpid_Some _ _ _ Hg) as (Hp & j & Hi & Hj).
    destruct status as [sig|sig|code|].
    + rewrite (sigchld_reap_stopped _ _ _ _ sig Hg Hi) in H.
      destruct (decide (state j <> ST)); simplify_eq; [|done].
      by apply table_wf_with_state.
    + rewrite (sigchld_reap_signaled _ _ _ _ sig Hg Hi) in H.
      simplify_eq. by apply table_wf_deleted.
    + rewrite (sigchld_reap_exited _ _ _ code Hg) in H.
      simplify_eq. by apply table_wf_deleted.
    + cbn in H. unfold ret in H. by simplify_eq.
  - destruct (sigchld_reap_untracked _ _ Hg) as (H1 & H2 & H3).
    destruct status as [sig|sig|code|].
    + by rewrite H1 in H.
    + by rewrite H2 in H.
    + rewrite H3 in H. by simplify_eq.
    + cbn in H. unfold ret in H. by simplify_eq.
Qed.

Lemma sigchld_handler_wf evs : forall s s',
  sigchld_handler evs s = Ret () s' -> table_wf s -> table_wf s'.
Proof.
  induction evs as [|[p status] evs IH]; intros s s' H Hwf.
  - cbn in H. unfold ret in H. by simplify_eq.
  - cbn [sigchld_handler] in H. destruct (0 <? p).
    + destruct (sigchld_reap p status s) as [[] s1| | |] eqn:E;
        unfold bind in H; rewrite E in H; [|done..].
      eapply IH; [exact H|]. by eapply sigchld_reap_wf.
    + cbn in H. unfold ret in H. by simplify_eq.
Qed.

Lemma sigtstp_handler_wf sig s s' :
  sigtstp_handler sig s = Ret () s' -> table_wf s -> table_wf s'.
Proof.
  intros H Hwf. destruct (decide (fgpid (job_list s) = 0)) as [H0|Hn0].
  - rewrite (sigtstp_handler_no_fg _ _ H0) in H. by simplify_eq.
  - destruct (getjobpid (job_list s) (fgpid (job_list s))) as [i|] eqn:Hg.
    + destruct (getjobpid_Some _ _ _ Hg) as (Hp & j & Hi & Hj).
      rewrite (sigtstp_handler_fg _ sig _ _ Hg Hi) in H. simplify_eq.
      eapply table_wf_frame; [| |by apply (table_wf_with_state i ST s)];
        done.
    + exfalso. unfold sigtstp_handler in H.
      unfold bind at 1 in H. unfold get_jobs at 1 in H. rewrite Hg in H.
      destruct (decide (fgpid (job_list s) <> 0)); [|done].
      unfold sio_putl, sio_puts, bind in H. cbn in H. done.
Qed.

Lemma sigint_handler_wf sig s s' :
  sigint_handler sig s = Ret () s' -> table_wf s -> table_wf s'.
Proof.
  intros H Hwf. unfold sigint_handler in H. shell_inv H; done.
Qed.

Lemma eval_wf cmd bg tok o s w s' :
  eval cmd bg tok o s = Ret w s' -> table_wf s -> table_wf s'.
Proof.
  intros H (Hlen & Hnext & Hall).
  pose proof (eval_nextjid _ _ _ _ _ _ _ H) as Hn.
  apply eval_Ret in H
    as [[_ Hjl]|[(_ & i & j & _ & _ & Hjl)
       |[(_ & i & j & _ & _ & Hjl)|(_ & Hp & Hjl)]]].
  - split_and!; [by rewrite Hjl|lia|by rewrite Hjl].
  - split_and!; [by rewrite Hjl, length_alter|lia|].
    rewrite Hjl. apply Forall_alter; [done|]. by intros.
  - split_and!; [by rewrite Hjl, length_alter|lia|].
    rewrite Hjl. apply Forall_alter; [done|]. by intros.
  - destruct Hjl as [Hjl|(i & j & _ & _ & Hjl)].
    + split_and!; [by rewrite Hjl|lia|by rewrite Hjl].
    + split_and!; [by rewrite Hjl, length_insert|lia|].
      rewrite Hjl. apply Forall_insert; [done|]. right. cbn. lia.
Qed.

Lemma step_wf b e c c' :
  step b e c = Some c' -> table_wf c.1 -> table_wf c'.1.
Proof.
  destruct c as [s k]. intros H Hwf. unfold step in H.
  cbn [fst snd] in *. destruct e.
  - destruct k; try done.
    destruct (eval cmd bg tok o s) as [w s1| | |] eqn:E; [|done..].
    cbn in H. simplify_eq. by eapply eval_wf.
  - destruct k; try done. destruct b; [|done].
    destruct (builtins tok); try done.
    destruct (argv tok !! 0%nat); [|done].
    destruct (execute_fg_lookup tok s) as [r s1| | |] eqn:E; [|done..].
    cbn in H. simplify_eq. cbn [fst].
    pose proof (execute_fg_lookup_nextjid _ _ _ _ E).
    apply execute_fg_lookup_Ret in E as [Hjl _].
    by eapply table_wf_frame.
  - destruct k as [| | |tj p]; try done.
    destruct (execute_fg_commit tj p s) as [[] s1| | |] eqn:E; [|done..].
    cbn in H. simplify_eq. cbn [fst].
    pose proof (execute_fg_commit_nextjid _ _ _ _ E) as Hn.
    apply execute_fg_commit_Ret in E as (i & j & _ & _ & Hjl).
    eapply table_wf_frame; [| |by apply (table_wf_with_state i FG s)];
      [|done].
    by rewrite with_state_jobs.
  - destruct k as [|p| |]; try done.
    + destruct (decide (p = fgpid (job_list s))); [done|]. by simplify_eq.
    + destruct (decide (fgpid (job_list s) <> 0)); [done|]. by simplify_eq.
  - destruct (sigchld_handler evs s) as [[] s1| | |] eqn:E; [|done..].
    cbn in H. simplify_eq. by eapply sigchld_handler_wf.
  - destruct (sigint_handler SIGINT s) as [[] s1| | |] eqn:E; [|done..].
    cbn in H. simplify_eq. by eapply sigint_handler_wf.
  - destruct (sigtstp_handler SIGTSTP s) as [[] s1| | |] eqn:E; [|done..].
    cbn in H. simplify_eq. by eapply sigtstp_handler_wf.
Qed.

Lemma table_wf_reachable b c : reachable b c -> table_wf c.1.
Proof.
  intros (v & evs & H).
  assert (Hinit : table_wf (init_shell v, AtPrompt).1)
    by apply table_wf_init.
  revert H Hinit. generalize (init_shell v, AtPrompt).
  induction evs as [|e evs IH]; intros c0 H H0.
  - cbn in H. by simplify_eq.
  - cbn [run_events] in H.
    destruct (step b e c0) as [c1|] eqn:E; [|done].
    eapply IH; [exact H|]. by eapply step_wf.
Qed.
End Positive.

(** ** From the text of a line to its effect *)

Lemma parseline_items items arg0 args :
  Forall plain_item items ->
  words items = arg0 :: args ->
  first_char_is "&" (List.last (words items) "") = false ->
  (length (infiles items) <= 1)%nat ->
  (length (outfiles items) <= 1)%nat ->
  (length (words items) < MAXARGS - 2)%nat ->
  (String.length (render items) + 2 < MAXLINE)%nat ->
  parseline (render items) = Some (mkparsed 0 (tok_of items arg0) "") /\
  parseline (render items +:+ " &") = Some (mkparsed 1 (tok_of items arg0) "").
Proof.
  intros Hplain Hwords Hlast Hin Hout Hargc Hfit.
  pose proof (rounds_length items Hplain) as Hrounds.
  split.
  - unfold parseline. rewrite c_str_render by done.
    rewrite decide_True by lia.
    rewrite <- (append_empty_r (render items)) at 2.
    rewrite parseline_loop_render; [|done|done| |done|lia].
    2: { cbn [p_argv length]. unfold MAXARGS in *. lia. }
    rewrite expect_ok by done.
    destruct (fuel_sub (String.length (render items)) (rounds items) Hrounds)
      as [m ->].
    cbn [str_tail parseline_loop parsing_state p_argv p_infile p_outfile
         option_list app].
    rewrite decide_False by (intros ?; done).
    rewrite Hlast. unfold tok_of. by rewrite Hwords.
  - unfold parseline.
    rewrite c_str_append by by apply render_nul_free.
    change (c_str " &") with " &". rewrite length_append.
    rewrite decide_True by (cbn [String.length]; lia).
    rewrite parseline_loop_render; [|done|done| |done|lia].
    2: { cbn [p_argv length]. unfold MAXARGS in *. lia. }
    rewrite expect_ok by done.
    cbn [String.length str_tail].
    destruct (fuel_sub (String.length (render items) + 2) (rounds items)) as [m Hm]; [lia|].
    replace (S (String.length (render items) + 2) - rounds items)%nat
      with (S (S (String.length (render items) + 1 - rounds items)))%nat by lia.
    rewrite <- (append_empty_r "&").
    rewrite parseline_loop_word by done.
    cbn [str_tail parseline_loop parsing_state p_argv p_infile p_outfile
         option_list app].
    rewrite decide_True by done.
    destruct (Nat.leb_spec (MAXARGS - 1) (length (words items ++ ["&"])))
      as [Hfull|_].
    { rewrite length_app in Hfull. cbn in Hfull. unfold MAXARGS in *. lia. }
    rewrite decide_False by (intros ?; done).
    cbn [p_argv p_infile p_outfile parsing_state].
    rewrite last_last, removelast_last, length_app. cbn [length].
    rewrite Hwords. cbn [app first_char_is]. change (Ascii.eqb "&" "&") with true.
    cbn match. unfold tok_of. rewrite Hwords. do 3 f_equal. lia.
Qed.

Lemma parseline_blank cmdline :
  all_chars is_delim cmdline = true ->
  (String.length cmdline < MAXLINE)%nat ->
  parseline cmdline
  = Some (mkparsed 1 (mktok 0 [] None None BUILTIN_NONE) "").
Proof.
  intros Hblank Hfit. unfold parseline. rewrite c_str_blank by done.
  rewrite decide_True by done. cbn [parseline_loop].
  rewrite skip_delims_blank by done.
  by destruct cmdline.
Qed.

Lemma parseline_diagnostic cmdline r :
  parseline cmdline = Some r -> is_bg r = -1 -> diagnostic r <> "".
Proof.
  unfold parseline. intros Hr Hbg.
  destruct (decide _) as [Hfit|]; [|done].
  destruct (parseline_loop _ _ _) as [[msg|st]|] eqn:Hloop; [| |done].
  - simplify_eq. cbn.
    apply parseline_loop_msg in Hloop as [->|[q ->]]; done.
  - repeat case_match; by simplify_eq.
Qed.

Lemma eval_cmdline_found (items : list item) (arg0 : string)
    (args : list string) (o : os) (s : shell) (i : nat) (j : job_t) :
  Forall plain_item items ->
  words items = arg0 :: args ->
  builtin_of arg0 = BUILTIN_NONE ->
  first_char_is "&" (List.last (words items) "") = false ->
  (length (infiles items) <= 1)%nat ->
  (length (outfiles items) <= 1)%nat ->
  (length (words items) < MAXARGS - 2)%nat ->
  (String.length (render items) + 2 < MAXLINE)%nat ->
  0 < fork_pid o ->
  list_find (fun j => pid j = 0) (job_list s) = Some (i, j) ->
  Forall (fun j => pid j <> fork_pid o) (job_list s) ->
  let p := fork_pid o in
  let fg_line := render items in
  let bg_line := render items +:+ " &" in
  let next := if Z.of_nat MAXJOBS <? nextjid s + 1 then 1
              else nextjid s + 1 in
  (exists s',
     eval_cmdline fg_line o s = Ret (WaitWhileFgIs p) s' /\
     job_list s' = <[i := mkjob p (nextjid s) FG fg_line]> (job_list s) /\
     sio_out s' = sio_out s /\
     stdio_out s'
     = stdio_out s +:+ added_note (verbose s) (nextjid s) p fg_line /\
     sent s' = sent s /\ nextjid s' = next /\
     verbose s' = verbose s /\ files s' = files s) /\
  (exists s',
     eval_cmdline bg_line o s = Ret Done s' /\
     job_list s' = <[i := mkjob p (nextjid s) BG bg_line]> (job_list s) /\
     sio_out s' = sio_out s +:+ job_line (nextjid s) p bg_line /\
     stdio_out s'
     = stdio_out s +:+ added_note (verbose s) (nextjid s) p bg_line /\
     sent s' = sent s /\ nextjid s' = next /\
     verbose s' = verbose s /\ files s' = files s).
Proof.
  intros Hplain Hwords Hnone Hlast Hin Hout Hargc Hfit Hp Hfind Hfresh.
  destruct (parseline_items items arg0 args) as [Hfg Hbg]; [done..|].
  cbn zeta. split.
  - eexists. unfold eval_cmdline. rewrite Hfg, c_str_render by done.
    cbn [is_bg tokens].
    erewrite eval_launch;
      [|done|unfold tok_of; cbn [argv]; by rewrite Hwords|exact Hnone|done].
    rewrite (eval_parent_found _ _ _ _ _ _ Hp Hfind Hfresh).
    rewrite decide_True by done. split; [done|].
    by rewrite added_jobs, added_sio_out, added_stdio_out, added_sent,
      added_nextjid, added_verbose, added_files.
  - eexists. unfold eval_cmdline. rewrite Hbg.
    rewrite c_str_append by by apply render_nul_free.
    change (c_str " &") with " &". cbn [is_bg tokens].
    erewrite eval_launch;
      [|done|unfold tok_of; cbn [argv]; by rewrite Hwords|exact Hnone|done].
    rewrite (eval_parent_found _ _ _ _ _ _ Hp Hfind Hfresh).
    rewrite decide_False by done. split; [done|].
    change (job_list (add_sio ?a ?b)) with (job_list b).
    change (sent (add_sio ?a ?b)) with (sent b).
    change (sio_out (add_sio ?a ?b)) with (sio_out b +:+ a).
    change (stdio_out (add_sio ?a ?b)) with (stdio_out b).
    change (nextjid (add_sio ?a ?b)) with (nextjid b).
    change (verbose (add_sio ?a ?b)) with (verbose b).
    change (files (add_sio ?a ?b)) with (files b).
    by rewrite added_jobs, added_sio_out, added_stdio_out, added_sent,
      added_nextjid, added_verbose, added_files.
Qed.

Lemma concat_cons_empty (x : string) (l : list string) :
  String.concat "" (x :: l) = x +:+ String.concat "" l.
Proof.
  cbn [String.concat]. destruct l; [by rewrite append_empty_r|done].
Qed.

Lemma parseline_builtin_line (items : list item) (arg0 : string)
    (args : list string) :
  Forall plain_item items ->
  words items = arg0 :: args ->
  first_char_is "&" (List.last (words items) "") = false ->
  (length (infiles items) <= 1)%nat ->
  (length (outfiles items) <= 1)%nat ->
  (length (words items) < MAXARGS - 2)%nat ->
  (String.length (render items) + 2 < MAXLINE)%nat ->
  forall o, eval_cmdline (render items) o
            = eval (render items) 0 (tok_of items arg0) o.
Proof.
  intros Hplain Hwords Hlast Hin Hout Hargc Hfit o.
  destruct (parseline_items items arg0 args) as [Hfg _]; [done..|].
  unfold eval_cmdline. by rewrite Hfg, c_str_render.
Qed.

Lemma eval_builtin cmd bg tok o s a :
  bg <> -1 -> argv tok !! 0%nat = Some a ->
  eval cmd bg tok o s
  = match builtins tok with
    | BUILTIN_NONE =>
        if fork_pid o <? 0 then unix_error "Fork error" (fork_err o) s
        else if decide (fork_pid o = 0) then eval_child tok o s
        else eval_parent bg (fork_pid o) cmd s
    | BUILTIN_QUIT =>
        match execute_quit (reaped o) s with
        | Ret _ s' | Fault s' => Fault s'
        | Exit c s' => Exit c s'
        | Exec f x s' => Exec f x s'
        end
    | BUILTIN_JOBS =>
        match outfile tok with
        | Some name =>
            match open_out_err o with
            | Some e => Exit 1 (add_stdio ("Open error: " +:+ e +:+ nl) s)
            | None => Ret Done (add_file name (listjobs (job_list s)) s)
            end
        | None => Ret Done (add_sio (listjobs (job_list s)) s)
        end
    | BUILTIN_FG => execute_fg tok s
    | BUILTIN_BG => (run execute_bg tok; ret Done) s
    end.
Proof.
  intros Hbg Ha. unfold eval, builtin_command.
  rewrite decide_False by done. rewrite Ha.
  destruct (builtins tok).
  - unfold bind at 1. unfold ret at 1. cbn [fst snd].
    rewrite decide_True by done.
    destruct (fork_pid o <? 0); [done|]. by destruct (decide (fork_pid o = 0)).
  - destruct (execute_quit (reaped o) s) as [[] s1| | |] eqn:E;
      unfold bind; rewrite E; [|done..].
    by apply execute_quit_no_Ret in E.
  - unfold Open, unix_error.
    destruct (outfile tok); [destruct (open_out_err o)|];
      unfold_shell; cbn; done.
  - destruct (execute_bg tok s) as [[] s1| | |] eqn:E;
      unfold bind; rewrite E; try done;
      unfold ret; cbn; by destruct (decide (1 = 0)).
  - destruct (execute_fg tok s) as [w s1| | |] eqn:E;
      unfold bind; rewrite E; try done;
      unfold ret; cbn; by destruct (decide (1 = 0)).
Qed.

Lemma listjobs_first (j : job_t) (jl : list job_t) :
  Forall (fun j => pid j = 0) jl ->
  listjobs (j :: jl) = listjobs_row 0 j.
Proof.
  intros Hall. unfold listjobs. cbn [imap]. rewrite concat_cons_empty.
  rewrite concat_empty; [apply append_empty_r|].
  by apply (imap_rows_empty _ S).
Qed.

Lemma render_app (items1 items2 : list item) :
  items1 <> [] -> items2 <> [] ->
  render (items1 ++ items2) = render items1 +:+ " " +:+ render items2.
Proof.
  intros H1 H2. induction items1 as [|it items1 IH]; [done|].
  change ((it :: items1) ++ items2)%list with (it :: (items1 ++ items2))%list.
  rewrite !render_cons. destruct items1 as [|it' items1].
  - rewrite append_empty_r. cbn [app]. by destruct items2.
  - rewrite IH by done. cbn [app]. by rewrite !append_assoc.
Qed.

Lemma words_fmap (ws : list string) : words (Word <$> ws) = ws.
Proof.
  induction ws as [|w ws IH]; [done|].
  change (words (Word <$> w :: ws)) with (w :: words (Word <$> ws)).
  by rewrite IH.
Qed.

Lemma infiles_fmap (ws : list string) : infiles (Word <$> ws) = [].
Proof.
  induction ws as [|w ws IH]; [done|].
  by change (infiles (Word <$> w :: ws)) with (infiles (Word <$> ws)).
Qed.

Lemma outfiles_fmap (ws : list string) : outfiles (Word <$> ws) = [].
Proof.
  induction ws as [|w ws IH]; [done|].
  by change (outfiles (Word <$> w :: ws)) with (outfiles (Word <$> ws)).
Qed.

Lemma rounds_fmap (ws : list string) : rounds (Word <$> ws) = length ws.
Proof.
  induction ws as [|w ws IH]; [done|].
  change (rounds (Word <$> w :: ws)) with (S (rounds (Word <$> ws))).
  by rewrite IH.
Qed.

(** * The claims *)

(** C1 (what the code does). With one argument [%<n>], where the [int]
    that [atoi] reads after the percent sign is not zero and is the id of
    no job in the table, [execute_fg] and [execute_bg] read
    [target_job->pid] through the NULL that [getjobjid] returned, before
    the test [if(!target_job)]: the shell faults, and the message of that
    test is never printed.  The number is the one that the code holds in
    [int jid]: [%4294967297] names job 1. *)
Theorem fg_bg_missing_jobid_faults
    (tok : cmdline_tokens) (str : string) (s : shell) :
  argc tok = 2 -> argv tok !! 1%nat = Some str ->
  first_char_is "%" str = true ->
  atoi (str_tail str) <> 0 ->
  getjobjid (job_list s) (atoi (str_tail str)) = None ->
  execute_fg tok s = Fault s /\ execute_bg tok s = Fault s.
Proof.
  intros Hc Ha Hpc Hn Hg. split.
  - unfold execute_fg, execute_fg_lookup.
    destruct (decide (argc tok <> 2)); [done|].
    rewrite Ha, Hpc. destruct (decide (atoi (str_tail str) = 0)); [done|].
    unfold bind, get_jobs. by rewrite Hg.
  - unfold execute_bg.
    destruct (decide (argc tok <> 2)); [done|].
    rewrite Ha, Hpc. destruct (decide (atoi (str_tail str) = 0)); [done|].
    unfold bind, get_jobs. by rewrite Hg.
Qed.

Lemma fg_bg_missing_jobid_faults_witness :
  execute_fg (fg_tok "%5") two_jobs = Fault two_jobs /\
  execute_bg (bg_tok "%5") two_jobs = Fault two_jobs /\
  execute_fg (fg_tok "%4294967301") two_jobs = Fault two_jobs.
Proof.
  split_and!.
  - apply (fg_bg_missing_jobid_faults (fg_tok "%5") "%5" two_jobs);
      [reflexivity|reflexivity|reflexivity|discriminate|reflexivity].
  - apply (fg_bg_missing_jobid_faults (bg_tok "%5") "%5" two_jobs);
      [reflexivity|reflexivity|reflexivity|discriminate|reflexivity].
  - apply (fg_bg_missing_jobid_faults (fg_tok "%4294967301") "%4294967301"
             two_jobs);
      [reflexivity|reflexivity|reflexivity|discriminate|reflexivity].
Defined.

(** C2 (what the code does). In the forked child, once the redirections
    are open, a failing [execve] makes the child write argv[0] followed by
    the text [s: Command not found.] and a newline, and then [exit(0)].
    The text starts with a stray [s], so the line is not
    [<argv0>: Command not found.]. *)
Theorem eval_child_exec_failure
    (cmd : string) (bg : Z) (tok : cmdline_tokens) (o : os) (a : string)
    (s : shell) :
  bg <> -1 -> argv tok !! 0%nat = Some a -> builtins tok = BUILTIN_NONE ->
  fork_pid o = 0 -> execve_ok o = false ->
  (infile tok = None \/ open_in_err o = None) ->
  (outfile tok = None \/ open_out_err o = None) ->
  eval cmd bg tok o s
  = Exit 0 (add_sio (a +:+ "s: Command not found." +:+ nl) s) /\
  a +:+ "s: Command not found." +:+ nl <> a +:+ ": Command not found." +:+ nl.
Proof.
  intros Hbg Ha Hb Hf He Hin Hout. split.
  - unfold eval. destruct (decide (bg = -1)); [done|]. rewrite Ha.
    unfold builtin_command. rewrite Hb.
    unfold bind at 1. unfold ret at 1. cbn [fst snd].
    destruct (decide (0 = 0)); [|done]. rewrite Hf. cbn [Z.ltb Z.compare].
    destruct (decide (0 = 0)); [|done].
    unfold eval_child. rewrite He, Ha.
    assert (Hi : (match infile tok with
                  | Some _ => Open (open_in_err o)
                  | None => ret ()
                  end) s = Ret () s).
    { destruct Hin as [->| ->]; [done|]. by destruct (infile tok). }
    assert (Ho : (match outfile tok with
                  | Some _ => Open (open_out_err o)
                  | None => ret ()
                  end) s = Ret () s).
    { destruct Hout as [->| ->]; [done|]. by destruct (outfile tok). }
    rewrite (bind_Ret _ _ _ _ _ Hi), (bind_Ret _ _ _ _ _ Ho).
    unfold bind, sio_puts_arg, sio_puts, exit.
    by rewrite add_sio_add_sio.
  - intros H. apply append_inj_l in H. discriminate H.
Qed.

Lemma eval_child_exec_failure_witness :
  exists s',
    eval "/bin/nosuch" 0 (mktok 1 ["/bin/nosuch"] None None BUILTIN_NONE)
         no_os (init_shell false) = Exit 0 s' /\
    sio_out s' = "/bin/nosuchs: Command not found." +:+ nl.
Proof.
  destruct (eval_child_exec_failure "/bin/nosuch" 0
              (mktok 1 ["/bin/nosuch"] None None BUILTIN_NONE)
              no_os "/bin/nosuch" (init_shell false)) as [H _];
    [discriminate|reflexivity|reflexivity|reflexivity|reflexivity|
     by left|by left|].
  eexists. split; [exact H|reflexivity].
Defined.

(** C3 (what the code does). When the child-status handler runs inside
    [execute_fg], between the lookup of the job and the assignment of FG,
    the shell reaches a state with two slots in state FG. *)
Theorem fg_race_two_foreground :
  exists c j0 j1,
    run_events true race_trace (init_shell false, AtPrompt) = Some c /\
    job_list c.1 !! 0%nat = Some j0 /\ job_list c.1 !! 1%nat = Some j1 /\
    state j0 = FG /\ state j1 = FG /\ pid j0 = 102 /\ pid j1 = 0 /\
    count_fg (job_list c.1) = 2%nat.
Proof.
  eexists _, _, _. split; [by vm_compute|]. by vm_compute.
Qed.

(** X1. When no handler runs inside a builtin (every command runs up to
    its return or to its wait loop before the next handler), every state
    the shell reaches has at most one slot in state FG. *)
Theorem atomic_at_most_one_fg (c : config) :
  reachable false c -> (count_fg (job_list c.1) <= 1)%nat.
Proof.
  intros (v & evs & H). apply fg_inv_count.
  eapply fg_inv_run; [apply fg_inv_init|exact H].
Qed.

Lemma atomic_at_most_one_fg_witness :
  reachable false after_untracked_launch /\
  (count_fg (job_list after_untracked_launch.1) <= 1)%nat.
Proof.
  assert (H : reachable false after_untracked_launch).
  { exists false, untracked_trace. vm_compute. reflexivity. }
  split; [exact H|]. exact (atomic_at_most_one_fg after_untracked_launch H).
Defined.

(** X2. In every state the shell reaches, also when a handler runs inside
    [execute_fg], the unused slots (pid 0) have id 0: the scan of [maxjid]
    over all sixteen slots is the maximum over the occupied ones. *)
Theorem free_slots_have_no_id (b : bool) (c : config) :
  reachable b c ->
  free_unnumbered (job_list c.1) /\
  maxjid (job_list c.1) = max_occupied_jid (job_list c.1).
Proof.
  intros H. pose proof (free_unnumbered_reachable b c H) as Hfu.
  split; [exact Hfu|]. by apply maxjid_occupied.
Qed.

Lemma free_slots_have_no_id_witness :
  reachable false after_untracked_launch /\
  maxjid (job_list after_untracked_launch.1)
  = max_occupied_jid (job_list after_untracked_launch.1).
Proof.
  assert (H : reachable false after_untracked_launch).
  { exists false, untracked_trace. vm_compute. reflexivity. }
  split; [exact H|].
  exact (proj2 (free_slots_have_no_id false after_untracked_launch H)).
Defined.

(** X3. What holds of the counter by construction: an [addjob] that does
    not wrap keeps [nextjid] above every id in use when it was above them
    before, and a [deletejob] that finds its job leaves [nextjid] one above
    the largest id in the table. *)
Theorem nextjid_above_maxjid (s : shell) :
  (forall p st cmd r s',
     addjob p st cmd s = Ret r s' ->
     maxjid (job_list s) < nextjid s ->
     nextjid s + 1 <= Z.of_nat MAXJOBS ->
     maxjid (job_list s') < nextjid s') /\
  (forall p s',
     deletejob p s = Ret 1 s' -> nextjid s' = maxjid (job_list s') + 1).
Proof.
  split.
  - intros p st cmd r s' H Habove Hnowrap. unfold addjob in H.
    destruct (p <? 1); [unfold ret in H; by simplify_eq|].
    unfold bind at 1 in H. unfold get_jobs at 1 in H.
    destruct (list_find _ (job_list s)) as [[i j]|] eqn:E.
    + assert (Hs' : job_list s' = <[i := mkjob p (nextjid s) st cmd]> (job_list s)
                    /\ nextjid s' = nextjid s + 1).
      { assert (Hw : (Z.of_nat MAXJOBS <? nextjid s + 1) = false)
          by (apply Z.ltb_ge; lia).
        unfold bind, get_nextjid in H. rewrite Hw in H.
        unfold put_jobs, put_nextjid, get_verbose, printf, ret in H.
        cbn in H. destruct (verbose s); by simplify_eq. }
      destruct Hs' as [-> ->].
      pose proof (maxjid_insert_le (job_list s) i
                    (mkjob p (nextjid s) st cmd)) as Hle.
      cbn [jid] in Hle. lia.
    + unfold bind, printf, ret in H. by simplify_eq.
  - intros p s' H. unfold deletejob in H.
    destruct (p <? 1); [unfold ret in H; by simplify_eq|].
    unfold bind at 1 in H. unfold get_jobs at 1 in H.
    destruct (list_find _ (job_list s)) as [[i j]|] eqn:E.
    + unfold bind, put_jobs, put_nextjid, ret in H. cbn in H. by simplify_eq.
    + unfold ret in H. by simplify_eq.
Qed.

(** X4. [sio_putl] writes a number that is not negative in decimal
    notation: the notation of [v / 10] when [v] has more than one digit,
    followed by the digit of [v mod 10]. *)
Theorem sio_putl_decimal (v : Z) (s : shell) :
  0 <= v ->
  sio_putl v s
  = Ret () (add_sio ((if v <? 10 then EmptyString else sio_ltoa (v / 10) 10)
                     +:+ String (char_of_Z (v mod 10 + 48)) EmptyString) s).
Proof.
  intros Hv. unfold sio_putl, sio_puts. by rewrite (sio_ltoa_decimal v Hv).
Qed.

Lemma sio_putl_decimal_witness :
  sio_out (final (sio_putl 2024 (init_shell false))) = "2024".
Proof.
  rewrite (sio_putl_decimal 2024 (init_shell false)); [|lia].
  reflexivity.
Defined.

(** C4 (what the code does). [addjob] wraps [nextjid] to 1 as soon as it
    exceeds MAXJOBS = 16, the number of slots, and not MAXJID = 65536.
    After sixteen launches the counter is 1 while the largest id in use is
    16; and after fifteen launches, the exit of the second job and two
    more launches, two occupied slots carry the same id 1. *)
Theorem nextjid_wraps_at_MAXJOBS :
  (exists c, run_events false fill_trace (init_shell false, AtPrompt) = Some c /\
             nextjid c.1 = 1 /\ maxjid (job_list c.1) = 16 /\
             Z.of_nat MAXJOBS + 1 <= MAXJID) /\
  (exists c j1 j2,
     run_events false wrap_trace (init_shell false, AtPrompt) = Some c /\
     job_list c.1 !! 0%nat = Some j1 /\ job_list c.1 !! 15%nat = Some j2 /\
     pid j1 = 100 /\ pid j2 = 116 /\ jid j1 = 1 /\ jid j2 = 1 /\
     nextjid c.1 = 2 /\ maxjid (job_list c.1) = 16).
Proof.
  split.
  - eexists. split; [by vm_compute|]. by vm_compute.
  - eexists _, _, _. split; [by vm_compute|]. by vm_compute.
Qed.

(** C5. For a pid that some job of the table has, [deletejob] clears the
    (first) slot holding it, returns 1 and sets [nextjid] to one more than
    the largest id among the slots that remain occupied, which is 1 when
    none remains; for any other pid it returns 0 and changes nothing.  The
    table is one whose unused slots have id 0, as every table the shell
    reaches is. *)
Theorem deletejob_spec (s : shell) (p : Z) :
  free_unnumbered (job_list s) ->
  (0 < p -> (exists j, j ∈ job_list s /\ pid j = p) ->
   exists i j,
     job_list s !! i = Some j /\ pid j = p /\
     (forall i' j', (i' < i)%nat -> job_list s !! i' = Some j' -> pid j' <> p) /\
     let jl' := <[i := clearjob j]> (job_list s) in
     jl' !! i = Some (mkjob 0 0 UNDEF "") /\
     deletejob p s
       = Ret 1 (set_nextjid (max_occupied_jid jl' + 1) (set_jobs jl' s)) /\
     (Forall (fun j => pid j = 0) jl' -> max_occupied_jid jl' + 1 = 1))
  /\ (~ (0 < p /\ exists j, j ∈ job_list s /\ pid j = p) ->
      deletejob p s = Ret 0 s).
Proof.
  intros Hfc. split.
  - intros Hp (j0 & Hin & Hj0). unfold deletejob.
    destruct (Z.ltb_spec p 1); [lia|].
    unfold bind, get_jobs.
    destruct (list_find (fun j => pid j = p) (job_list s)) as [[i j]|] eqn:E.
    + apply list_find_Some in E as (Hi & Hj & Hfirst).
      exists i, j. split; [done|]. split; [done|]. split; [eauto|].
      cbn zeta. split.
      { rewrite list_lookup_insert_eq; [done|]. by eapply lookup_lt_Some. }
      split.
      { unfold put_jobs, put_nextjid, ret. cbn.
        rewrite maxjid_occupied; [done|].
        apply Forall_insert; [done|]. by intros _. }
      intros Hall. by rewrite max_occupied_jid_empty.
    + apply list_find_None in E. rewrite Forall_forall in E.
      exfalso. by apply (E j0).
  - intros Hn. unfold deletejob.
    destruct (Z.ltb_spec p 1); [done|].
    unfold bind, get_jobs.
    destruct (list_find (fun j => pid j = p) (job_list s)) as [[i j]|] eqn:E;
      [|done].
    apply list_find_Some in E as (Hi & Hj & _).
    exfalso. apply Hn. split; [lia|].
    exists j. split; [|done]. by eapply list_elem_of_lookup_2.
Qed.

Lemma deletejob_spec_witness :
  free_unnumbered (job_list two_jobs) /\
  exists s', deletejob 100 two_jobs = Ret 1 s'.
Proof.
  assert (H : free_unnumbered (job_list two_jobs))
    by (vm_compute; compute_done).
  split; [exact H|].
  destruct (deletejob_spec two_jobs 100 H) as [Hpresent _].
  destruct Hpresent as (i & j & _ & _ & _ & _ & Hdel & _).
  - reflexivity.
  - exists (mkjob 100 1 BG "/bin/sleep 1 &"). split; [|reflexivity].
    vm_compute. apply list_elem_of_here.
  - eexists. exact Hdel.
Defined.

(** C6 (what the code does). The handler looks the reaped pid up with
    [getjobpid] and, in the branch of a child that a signal has killed,
    reads [job->jid] through the result without testing it.  After
    seventeen background launches the table is full and the child of the
    last one, pid 116, has no job.  When a signal kills that child the
    handler writes [Job [] and faults: the line [Job [<id>] (<pid>)
    terminated by signal <n>] is not printed, and the statuses that
    [waitpid] would report next are not reaped.  When that child exits
    normally the handler goes on with the table as it is.  For a child
    that the table holds the handler does what the claim says: X29. *)
Theorem sigchld_killed_untracked_child :
  let s := after_untracked_launch.1 in
  reachable false after_untracked_launch /\
  getjobpid (job_list s) 116 = None /\
  (forall sig evs,
     sigchld_handler ((116, WSignaled sig) :: evs) s
     = Fault (add_sio "Job [" s)) /\
  sio_out (add_sio "Job [" s) = sio_out s +:+ "Job [" /\
  job_list (add_sio "Job [" s) = job_list s /\
  (forall code evs,
     sigchld_handler ((116, WExited code) :: evs) s = sigchld_handler evs s).
Proof.
  intros s.
  assert (Hg : getjobpid (job_list s) 116 = None) by (by vm_compute).
  split; [exists false, untracked_trace; by vm_compute|].
  clearbody s.
  destruct (sigchld_reap_untracked _ _ Hg) as (_ & Hsig & Hexit).
  split_and!; [exact Hg| |reflexivity|reflexivity|].
  - intros sig evs. apply sigchld_handler_cons_Fault; [lia|apply Hsig].
  - intros code evs. apply sigchld_handler_cons; [lia|apply Hexit].
Qed.

(** C7. The stop branch of the child-status handler prints the stop
    notification and sets the state to ST only when the state is not ST
    yet; on a job that is already stopped it prints nothing and changes
    nothing.  So when the terminal-stop handler has stopped the foreground
    job, the stop that the child-status handler then reaps for the same
    job adds no second notification: the line is printed once. *)
Theorem stop_notified_once
    (s : shell) (p : Z) (i : nat) (j : job_t) (sig : Z) :
  getjobpid (job_list s) p = Some i -> job_list s !! i = Some j ->
  sigchld_handler [(p, WStopped sig)] s
  = Ret () (if decide (state j <> ST)
            then with_state i ST (add_sio (stopped_line (jid j) p sig) s)
            else s) /\
  (state j = ST -> sigchld_handler [(p, WStopped sig)] s = Ret () s) /\
  (fgpid (job_list s) = p ->
   forall tsig,
     let s1 := add_sent (- p) tsig
                 (with_state i ST (add_sio (stopped_line (jid j) p tsig) s)) in
     sigtstp_handler tsig s = Ret () s1 /\
     sio_out s1 = sio_out s +:+ stopped_line (jid j) p tsig /\
     sigchld_handler [(p, WStopped sig)] s1 = Ret () s1 /\
     (state j = FG -> count_fg (job_list s) = 1%nat ->
      sigtstp_handler tsig s1 = Ret () s1)).
Proof.
  intros Hg Hi. destruct (getjobpid_Some _ _ _ Hg) as [Hp _].
  assert (Hreap : forall s0 j0,
            getjobpid (job_list s0) p = Some i -> job_list s0 !! i = Some j0 ->
            sigchld_handler [(p, WStopped sig)] s0
            = Ret () (if decide (state j0 <> ST)
                      then with_state i ST
                             (add_sio (stopped_line (jid j0) p sig) s0)
                      else s0)).
  { intros s0 j0 Hg0 Hi0.
    by rewrite (sigchld_handler_cons _ _ _ _ _ Hp
                  (sigchld_reap_stopped _ _ _ _ sig Hg0 Hi0)). }
  split; [by apply Hreap|]. split.
  - intros Hst. rewrite (Hreap s j Hg Hi).
    by destruct (decide (state j <> ST)).
  - intros Hfg tsig s1. subst p. split; [by apply sigtstp_handler_fg|].
    split; [done|]. split.
    + rewrite (Hreap s1 (set_state ST j)).
      * by destruct (decide (state (set_state ST j) <> ST)).
      * unfold s1. change (job_list (add_sent ?a ?b ?c)) with (job_list c).
        by rewrite getjobpid_with_state.
      * unfold s1. cbn. by rewrite list_lookup_alter_eq, Hi.
    + intros Hj Hone. apply sigtstp_handler_no_fg. apply fgpid_no_fg.
      assert (Hd := count_fg_demote _ _ _ ST Hi Hj ltac:(done)).
      unfold s1. change (job_list (add_sent ?a ?b ?c)) with (job_list c).
      rewrite with_state_jobs.
      change (job_list (add_sio ?a ?c)) with (job_list c). lia.
Qed.

Lemma stop_notified_once_witness :
  exists s1,
    sigtstp_handler SIGTSTP one_foreground = Ret () s1 /\
    sio_out s1 = "Job [1] (100) stopped by signal 20" +:+ nl /\
    sigchld_handler [(100, WStopped SIGTSTP)] s1 = Ret () s1.
Proof.
  destruct (stop_notified_once one_foreground 100 0
              (mkjob 100 1 FG "/bin/sleep 9") SIGTSTP)
    as (_ & _ & H); [reflexivity|reflexivity|].
  destruct (H eq_refl SIGTSTP) as (H1 & H2 & H3 & _).
  eexists. split; [exact H1|]. split; [|exact H3].
  rewrite H2. reflexivity.
Defined.

(** C8. With a positive pid and no free slot, [addjob] returns 0, prints
    the capacity warning and changes neither a slot nor [nextjid]; [eval]
    goes on all the same: it sends the forked process no signal, keeps no
    record of it, and its foreground wait ends at once. *)
Theorem addjob_full_untracked
    (s : shell) (cmd : string) (bg : Z) (tok : cmdline_tokens) (o : os) :
  0 < fork_pid o ->
  Forall (fun j => pid j <> 0) (job_list s) ->
  Forall (fun j => pid j <> fork_pid o) (job_list s) ->
  bg <> -1 -> builtins tok = BUILTIN_NONE -> is_Some (argv tok !! 0%nat) ->
  let warned := add_stdio ("Tried to create too many jobs" +:+ nl) s in
  addjob (fork_pid o) (bg + 1) cmd s = Ret 0 warned /\
  job_list warned = job_list s /\ nextjid warned = nextjid s /\
  exists w s',
    eval cmd bg tok o s = Ret w s' /\
    job_list s' = job_list s /\ nextjid s' = nextjid s /\
    sent s' = sent s /\ stdio_out s' = stdio_out warned /\
    getjobpid (job_list s') (fork_pid o) = None /\
    pid2jid (job_list s') (fork_pid o) = 0 /\
    fgpid (job_list s') <> fork_pid o.
Proof.
  intros Hp Hfull Hfresh Hbg Hb [a Ha] warned.
  assert (Hadd : addjob (fork_pid o) (bg + 1) cmd s = Ret 0 warned).
  { unfold addjob. destruct (Z.ltb_spec (fork_pid o) 1); [lia|].
    unfold bind at 1. unfold get_jobs. by rewrite list_find_full. }
  assert (Hnone : list_find (fun j => pid j = fork_pid o) (job_list s) = None).
  { by apply list_find_None. }
  assert (Hget : getjobpid (job_list s) (fork_pid o) = None).
  { unfold getjobpid. destruct (Z.ltb_spec (fork_pid o) 1); [done|].
    by rewrite Hnone. }
  assert (Hjid : pid2jid (job_list s) (fork_pid o) = 0).
  { unfold pid2jid. destruct (Z.ltb_spec (fork_pid o) 1); [done|].
    by rewrite Hnone. }
  assert (Hfg : fgpid (job_list s) <> fork_pid o).
  { destruct (fgpid_in (job_list s)) as [->|(j & Hin & _ & <-)]; [lia|].
    rewrite Forall_forall in Hfresh. by apply Hfresh. }
  split; [exact Hadd|]. split; [done|]. split; [done|].
  unfold eval. destruct (decide (bg = -1)); [done|]. rewrite Ha.
  unfold builtin_command. rewrite Hb.
  unfold bind at 1. unfold ret at 1. cbn [fst snd].
  destruct (decide (0 = 0)); [|done].
  destruct (Z.ltb_spec (fork_pid o) 0); [lia|].
  destruct (decide (fork_pid o = 0)); [lia|].
  unfold eval_parent. unfold bind at 1. rewrite Hadd.
  unfold bind at 1. unfold get_jobs at 1.
  destruct (decide (bg = 0)).
  - exists (WaitWhileFgIs (fork_pid o)), warned. by cbn.
  - unfold_shell. cbn. eexists _, _. split; [reflexivity|]. by cbn.
Qed.

Lemma addjob_full_untracked_witness :
  exists w s',
    eval "/bin/sleep 7 &" 1
         (mktok 2 ["/bin/sleep"; "7"] None None BUILTIN_NONE)
         (mkos 200 "" [] None None true) full_table = Ret w s' /\
    job_list s' = job_list full_table.
Proof.
  destruct (addjob_full_untracked full_table "/bin/sleep 7 &" 1
              (mktok 2 ["/bin/sleep"; "7"] None None BUILTIN_NONE)
              (mkos 200 "" [] None None true))
    as (_ & _ & _ & w & s' & He & Hjl & _).
  - reflexivity.
  - vm_compute. repeat constructor; discriminate.
  - vm_compute. repeat constructor; discriminate.
  - discriminate.
  - reflexivity.
  - by eexists.
  - exists w, s'. split; [exact He|exact Hjl].
Defined.

(** C9. [sigint_handler] leaves the job table as it is: it returns, every
    slot and [nextjid] are unchanged, nothing is printed, and the only
    effect is the interrupt forwarded to the process group of the
    foreground job when there is one. *)
Theorem sigint_handler_frame (sig : Z) (s : shell) :
  exists s',
    sigint_handler sig s = Ret () s' /\
    job_list s' = job_list s /\ nextjid s' = nextjid s /\
    sio_out s' = sio_out s /\ stdio_out s' = stdio_out s /\
    sent s' = if decide (fgpid (job_list s) <> 0)
              then (sent s ++ [(- fgpid (job_list s), sig)])%list
              else sent s.
Proof.
  unfold sigint_handler. unfold_shell.
  destruct (decide (fgpid (job_list s) <> 0));
    (eexists; split; [reflexivity|]; by cbn).
Qed.


(** * Further properties of the code

    The tokenizer, the builtins on the text of a command line, the job
    table as a store, the handlers and the output helpers. *)


(** X5. [parseline] returns on every command line that fits its buffer of
    [MAXLINE] bytes, whatever the line holds: its loop needs no more rounds
    than the line has characters, and one more.  It is defined on these
    lines only: [strncpy] leaves a longer line without its NUL. *)
Theorem parseline_terminates cmdline :
  is_Some (parseline cmdline)
  <-> (String.length (c_str cmdline) < MAXLINE)%nat.
Proof.
  unfold parseline. split.
  - destruct (decide _); [done|]. by intros [? ?].
  - intros Hfit. rewrite decide_True by done.
    destruct (parseline_loop_fuel (S (String.length (c_str cmdline)))
                (c_str cmdline) (mkparse [] None None ST_NORMAL))
      as [r ->]; [lia|].
    destruct r as [msg|st]; [by eexists|].
    repeat case_match; by eexists.
Qed.

(** X6. What [parseline] returns is well formed, whatever the line: the
    value is -1, 0 or 1; [argc] is the number of arguments and at most
    [MAXARGS - 1], so that [argv[argc] = NULL] is written inside the array;
    when the value is 0 there is a last argument and it does not start
    with [&]; [builtins] is decided by [argv[0]]; and a message goes to
    stderr exactly when the value is -1. *)
Theorem parseline_shape cmdline r :
  parseline cmdline = Some r ->
  (is_bg r = -1 \/ is_bg r = 0 \/ is_bg r = 1) /\
  argc (tokens r) = Z.of_nat (length (argv (tokens r))) /\
  argc (tokens r) <= Z.of_nat MAXARGS - 1 /\
  (is_bg r = 0 ->
   exists a, last (argv (tokens r)) = Some a /\ first_char_is "&" a = false) /\
  (forall a, argv (tokens r) !! 0%nat = Some a ->
             builtins (tokens r) = builtin_of a) /\
  (is_bg r = -1 <-> diagnostic r <> "").
Proof.
  unfold parseline. intros Hr.
  destruct (decide _) as [Hfit|]; [|done].
  destruct (parseline_loop _ _ _) as [[msg|st]|] eqn:Hloop; [| |done].
  { simplify_eq. unfold parse_failure, MAXARGS.
    cbn [is_bg tokens diagnostic argc argv builtins length].
    split_and!; try done; try lia; try (by left).
    split; [intros _|done].
    apply parseline_loop_msg in Hloop as [->|[q ->]]; done. }
  apply parseline_loop_argc in Hloop; [|cbn; unfold MAXARGS; lia].
  unfold MAXARGS in *.
  destruct (decide (parsing_state st <> ST_NORMAL)).
  { simplify_eq. unfold parse_failure.
    cbn [is_bg tokens diagnostic argc argv builtins length].
    split_and!; try done; try lia; by left. }
  destruct (p_argv st) as [|arg0 args] eqn:Hargv.
  { simplify_eq. cbn [is_bg tokens diagnostic argc argv builtins length].
    split_and!; try done; try lia; by right; right. }
  destruct (first_char_is "&" (List.last (arg0 :: args) "")) eqn:Hamp;
    simplify_eq; cbn [is_bg tokens diagnostic argc argv builtins].
  - split_and!.
    + by right; right.
    + destruct args as [|arg1 args _] using rev_ind; [done|].
      rewrite app_comm_cons, removelast_last, length_app. cbn [length]. lia.
    + cbn [length] in *. lia.
    + done.
    + intros a. destruct args; [done|]. by intros [= ->].
    + done.
  - split_and!.
    + by right; left.
    + done.
    + cbn [length] in *. lia.
    + intros _. eexists. split; [by apply last_default|done].
    + by intros a [= ->].
    + done.
Qed.

Lemma parseline_shape_witness :
  parseline "/bin/ls -l &"
  = Some (mkparsed 1 (mktok 2 ["/bin/ls"; "-l"] None None BUILTIN_NONE) "")
  /\ 2 <= Z.of_nat MAXARGS - 1.
Proof.
  assert (H : parseline "/bin/ls -l &"
              = Some (mkparsed 1 (mktok 2 ["/bin/ls"; "-l"] None None
                                       BUILTIN_NONE) ""))
    by (vm_compute; reflexivity).
  split; [exact H|].
  destruct (parseline_shape _ _ H) as (_ & _ & Hle & _). exact Hle.
Defined.

(** X7. The documented form [command [arguments...] [< infile] [> outfile]
    [&]]: a line of plain words and at most one input and one output
    redirection, separated by single blanks, is split into exactly these
    words and files, with the value 0; followed by [ &] it gives the same
    tokens with the value 1.  A plain word is not empty, holds no white
    space and no NUL, and does not start with [<], [>] or a quote; the
    line has fewer than 126 words, its last word does not start with [&],
    and it fits the buffer. *)
Theorem parseline_command (items : list item) (arg0 : string)
    (args : list string) :
  Forall plain_item items ->
  words items = arg0 :: args ->
  first_char_is "&" (List.last (words items) "") = false ->
  (length (infiles items) <= 1)%nat ->
  (length (outfiles items) <= 1)%nat ->
  (length (words items) < MAXARGS - 2)%nat ->
  (String.length (render items) + 2 < MAXLINE)%nat ->
  parseline (render items) = Some (mkparsed 0 (tok_of items arg0) "") /\
  parseline (render items +:+ " &") = Some (mkparsed 1 (tok_of items arg0) "").
Proof. apply parseline_items. Qed.

Lemma parseline_command_witness :
  parseline "/bin/ls -l > out"
  = Some (mkparsed 0 (mktok 2 ["/bin/ls"; "-l"] None (Some "out")
                            BUILTIN_NONE) "").
Proof.
  destruct (parseline_command [Word "/bin/ls"; Word "-l"; Outfile "out"]
              "/bin/ls" ["-l"]) as [H _].
  - repeat constructor.
  - reflexivity.
  - reflexivity.
  - vm_compute. lia.
  - vm_compute. lia.
  - vm_compute. lia.
  - vm_compute. lia.
  - exact H.
Defined.

(** X8. A quoted token that ends the line, an opening quote [q], a text
    [body] without [q] and the closing [q], is one argument, its white
    space included; [q] is the single or the double quote. *)
Theorem parseline_quoted items arg0 args q body :
  Forall plain_item items ->
  words items = arg0 :: args ->
  (length (infiles items) <= 1)%nat ->
  (length (outfiles items) <= 1)%nat ->
  (length (words items) < MAXARGS - 2)%nat ->
  is_quote q -> strchr body q = None -> c_str body = body ->
  first_char_is "&" body = false ->
  (String.length (render items) + String.length body + 3 < MAXLINE)%nat ->
  parseline (render items +:+ " " +:+ String q (body +:+ String q ""))
  = Some (mkparsed 0
            (mktok (Z.of_nat (length (words items)) + 1)
                   (words items ++ [body])
                   (head (infiles items)) (head (outfiles items))
                   (builtin_of arg0)) "").
Proof.
  intros Hplain Hwords Hin Hout Hargc Hq Hbody Hnul Hamp Hfit.
  pose proof (rounds_length items Hplain) as Hrounds.
  assert (all_chars (fun c => negb (Ascii.eqb c zero)) (String q "") = true)
    as Hqnul by (by destruct Hq as [->| ->]).
  unfold parseline.
  rewrite c_str_append by by apply render_nul_free.
  rewrite (c_str_append " ") by done.
  change (String q (body +:+ String q ""))
    with (String q "" +:+ (body +:+ String q "")).
  rewrite c_str_append by done.
  rewrite c_str_append by by apply c_str_fixed.
  replace (c_str (String q "")) with (String q "")
    by (by destruct Hq as [->| ->]).
  change (String q "" +:+ (body +:+ String q ""))
    with (String q (body +:+ String q "")).
  rewrite !length_append. cbn [String.length]. rewrite !length_append.
  cbn [String.length].
  rewrite decide_True by lia.
  rewrite parseline_loop_render; [|done|done| |done|lia].
  2: { cbn [p_argv length]. unfold MAXARGS in *. lia. }
  rewrite expect_ok by done.
  change (str_tail (" " +:+ String q (body +:+ String q "")))
    with (String q (body +:+ String q "")).
  match goal with |- context [parseline_loop (?a - ?b)%nat] =>
    destruct (fuel_pos a (S b)) as [m Hm]; [lia|];
    replace (a - b)%nat with (S (S m)) by lia end.
  rewrite parseline_loop_quoted; [|done|done|done|].
  2: { cbn [p_argv app]. unfold MAXARGS in *. lia. }
  cbn [parseline_loop p_argv p_infile p_outfile parsing_state option_list app].
  rewrite decide_False by (intros ?; done).
  rewrite last_last, Hamp, Hwords, length_app. cbn [app length].
  do 3 f_equal. lia.
Qed.

Lemma parseline_quoted_witness :
  parseline "/bin/echo 'a b'"
  = Some (mkparsed 0 (mktok 2 ["/bin/echo"; "a b"] None None BUILTIN_NONE) "").
Proof.
  apply (parseline_quoted [Word "/bin/echo"] "/bin/echo" [] "'" "a b").
  - repeat constructor.
  - reflexivity.
  - vm_compute. lia.
  - vm_compute. lia.
  - vm_compute. lia.
  - left. reflexivity.
  - reflexivity.
  - reflexivity.
  - reflexivity.
  - vm_compute. lia.
Defined.

(** X9. Malformed lines.  Two input files, or two output files, give -1
    and [Error: Ambiguous I/O redirection]; a line that ends in [<] or in
    [>] gives -1 and [Error: must provide file name for redirection]; an
    opening quote that is not closed gives -1 and [Error: unmatched q.]. *)
Theorem parseline_rejects items :
  Forall plain_item items ->
  (length (words items) < MAXARGS - 1)%nat ->
  (String.length (render items) + 2 < MAXLINE)%nat ->
  ((1 < length (infiles items))%nat \/ (1 < length (outfiles items))%nat ->
   parseline (render items) = Some (parse_failure ambiguous)) /\
  (infiles items = [] -> (length (outfiles items) <= 1)%nat ->
   parseline (render items +:+ " <") = Some (parse_failure must_provide)) /\
  ((length (infiles items) <= 1)%nat -> outfiles items = [] ->
   parseline (render items +:+ " >") = Some (parse_failure must_provide)) /\
  (forall q body,
     is_quote q -> strchr body q = None ->
     (length (infiles items) <= 1)%nat -> (length (outfiles items) <= 1)%nat ->
     (String.length (render items) + 2 + String.length body < MAXLINE)%nat ->
     parseline (render items +:+ " " +:+ String q body)
     = Some (parse_failure (unmatched q))).
Proof.
  intros Hplain Hargc Hfit.
  pose proof (rounds_length items Hplain) as Hrounds.
  split_and!.
  - intros Hdup. unfold parseline. rewrite c_str_render by done.
    rewrite decide_True by lia.
    rewrite <- (append_empty_r (render items)) at 2.
    rewrite parseline_loop_render; [|done|done|done|done|lia].
    by rewrite expect_ambiguous.
  - intros Hin Hout. unfold parseline.
    rewrite c_str_append by by apply render_nul_free.
    change (c_str " <") with " <". rewrite length_append.
    rewrite decide_True by (cbn [String.length]; lia).
    rewrite parseline_loop_render; [|done|done|done|done|lia].
    rewrite expect_ok;
      [|done|cbn [p_infile p_outfile]; rewrite ?Hin;
             change (option_list None) with (@nil string);
             cbn [app length]; lia..].
    cbn [String.length str_tail].
    replace (S (String.length (render items) + 2) - rounds items)%nat
      with (S (S (S (String.length (render items)) - rounds items)))%nat by lia.
    rewrite parseline_loop_lt. cbn [p_infile p_outfile p_argv parsing_state].
    rewrite Hin. cbn [option_list app head].
    destruct (fuel_sub _ _ Hrounds) as [m ->]. done.
  - intros Hin Hout. unfold parseline.
    rewrite c_str_append by by apply render_nul_free.
    change (c_str " >") with " >". rewrite length_append.
    rewrite decide_True by (cbn [String.length]; lia).
    rewrite parseline_loop_render; [|done|done|done|done|lia].
    rewrite expect_ok;
      [|done|cbn [p_infile p_outfile]; rewrite ?Hout;
             change (option_list None) with (@nil string);
             cbn [app length]; lia..].
    cbn [String.length str_tail].
    replace (S (String.length (render items) + 2) - rounds items)%nat
      with (S (S (S (String.length (render items)) - rounds items)))%nat by lia.
    rewrite parseline_loop_gt. cbn [p_infile p_outfile p_argv parsing_state].
    rewrite Hout. cbn [option_list app head].
    destruct (fuel_sub _ _ Hrounds) as [m ->]. done.
  - intros q body Hq Hbody Hin Hout Hlen. unfold parseline.
    assert (all_chars (fun c => negb (Ascii.eqb c zero)) (String q "") = true)
      as Hnul by (by destruct Hq as [->| ->]).
    rewrite c_str_append by by apply render_nul_free.
    rewrite (c_str_append " ") by done.
    change (String q body) with (String q "" +:+ body).
    rewrite c_str_append by done.
    change (String q "" +:+ c_str body) with (String q (c_str body)).
    pose proof (c_str_length body) as Hc.
    rewrite !length_append. cbn [String.length].
    rewrite decide_True by lia.
    rewrite parseline_loop_render; [|done|done|done|done|lia].
    rewrite expect_ok by done.
    change (str_tail (" " +:+ String q (c_str body)))
      with (String q (c_str body)).
    match goal with |- context [parseline_loop (?a - ?b)%nat] =>
      destruct (fuel_pos a b) as [m ->]; [lia|] end.
    by rewrite parseline_loop_unmatched by by (done || apply strchr_c_str).
Qed.

Lemma parseline_rejects_witness :
  parseline "/bin/cat < a < b" = Some (parse_failure ambiguous).
Proof.
  destruct (parseline_rejects [Word "/bin/cat"; Infile "a"; Infile "b"])
    as [H _].
  - repeat constructor.
  - vm_compute. lia.
  - vm_compute. lia.
  - apply H. left. vm_compute. lia.
Defined.

(** X10. Of a line of more than [MAXARGS - 1] plain words the first
    [MAXARGS - 1 = 127] are the arguments; the words after them are
    dropped, without a message. *)
Theorem parseline_truncates (ws1 : list string) (w : string)
    (ws2 : list string) :
  Forall (fun a => plain_word a = true) (ws1 ++ w :: ws2)%list ->
  length ws1 = (MAXARGS - 2)%nat ->
  first_char_is "&" w = false ->
  (String.length (render (Word <$> (ws1 ++ w :: ws2)%list)) < MAXLINE)%nat ->
  exists arg0,
    head ws1 = Some arg0 /\
    parseline (render (Word <$> (ws1 ++ w :: ws2)%list))
    = Some (mkparsed 0
              (mktok (Z.of_nat MAXARGS - 1) (ws1 ++ [w])%list None None
                     (builtin_of arg0)) "").
Proof.
  intros Hplain Hlen Hamp Hfit.
  destruct ws1 as [|arg0 ws1']; [done|]. exists arg0. split; [done|].
  remember (arg0 :: ws1') as ws1 eqn:Hws1.
  assert (Word <$> ws1 <> []) by (by subst).
  assert (Forall plain_item (Word <$> (ws1 ++ w :: ws2)%list)) as Hitems.
  { apply Forall_fmap. eapply Forall_impl; [exact Hplain|]. by intros. }
  pose proof Hitems as Hnul%render_nul_free.
  pose proof Hitems as Hrounds%rounds_length.
  rewrite rounds_fmap, length_app in Hrounds. cbn [length] in Hrounds.
  assert (render (Word <$> (ws1 ++ w :: ws2)%list)
          = render (Word <$> ws1) +:+ " " +:+ render (Word <$> w :: ws2))
    as Hline by (rewrite fmap_app; by apply render_app).
  assert (forall d, List.last (ws1 ++ [w])%list d = w) as Hlastw
    by (intros; apply last_last).
  rewrite fmap_app in Hitems. apply Forall_app in Hitems as [Hitems1 Hitems2].
  rewrite Hline in Hnul, Hfit, Hrounds |- *.
  unfold parseline. rewrite c_str_id by done.
  rewrite decide_True by done.
  rewrite parseline_loop_render; [|done|done| |done|].
  2: { cbn [p_argv length]. rewrite words_fmap. unfold MAXARGS in *. lia. }
  2: { rewrite rounds_fmap. lia. }
  rewrite expect_ok;
    [|done|cbn [p_infile p_outfile]; rewrite ?infiles_fmap, ?outfiles_fmap;
           cbn; lia..].
  rewrite rounds_fmap, words_fmap, infiles_fmap, outfiles_fmap.
  change (str_tail (" " +:+ ?x)) with x.
  match goal with |- context [parseline_loop (?a - ?b)%nat] =>
    destruct (fuel_pos a b) as [m ->]; [lia|] end.
  change (Word <$> w :: ws2) with (Word w :: (Word <$> ws2)).
  rewrite render_cons. cbn [render_item].
  rewrite parseline_loop_word.
  2: { apply Forall_cons in Hitems2 as [Hw _]. exact Hw. }
  2: { by destruct (Word <$> ws2). }
  cbn [parsing_state p_argv p_infile p_outfile option_list app head].
  rewrite decide_True by done.
  destruct (Nat.leb_spec (MAXARGS - 1) (length (ws1 ++ [w])%list)) as [_|Hlt].
  2: { rewrite length_app in Hlt. cbn [length] in Hlt.
       unfold MAXARGS in *. lia. }
  cbn [parsing_state p_argv p_infile p_outfile].
  rewrite decide_False by (intros ?; done).
  rewrite last_last, Hamp, length_app. subst ws1. cbn [app length] in *.
  do 3 f_equal. unfold MAXARGS in *. lia.
Qed.

Lemma parseline_truncates_witness :
  exists r,
    parseline (render (Word <$> (replicate 126 "a" ++ "b" :: ["c"; "d"])%list))
    = Some r /\ argv (tokens r) = (replicate 126 "a" ++ ["b"])%list.
Proof.
  destruct (parseline_truncates (replicate 126 "a") "b" ["c"; "d"])
    as (arg0 & _ & H).
  - vm_compute. repeat constructor.
  - reflexivity.
  - reflexivity.
  - vm_compute. lia.
  - eexists. split; [exact H|reflexivity].
Defined.

(** X11. [eval] ignores a line of white space, and a line that [parseline]
    rejects: it returns at once and leaves the shell as it was; the
    rejected line has left its message on stderr. *)
Theorem eval_cmdline_ignored (cmdline : string) (o : os) (s : shell) :
  (all_chars is_delim cmdline = true ->
   (String.length cmdline < MAXLINE)%nat ->
   eval_cmdline cmdline o s = Ret Done s) /\
  (forall r, parseline cmdline = Some r -> is_bg r = -1 ->
             diagnostic r <> "" /\ eval_cmdline cmdline o s = Ret Done s).
Proof.
  split.
  - intros Hblank Hfit. unfold eval_cmdline.
    by rewrite parseline_blank by done.
  - intros r Hr Hbg. unfold eval_cmdline. rewrite Hr. split.
    + by eapply parseline_diagnostic.
    + unfold eval. by rewrite decide_True.
Qed.

Lemma eval_cmdline_ignored_witness :
  eval_cmdline "   " no_os (init_shell false) = Ret Done (init_shell false) /\
  eval_cmdline "/bin/ls > a > b" no_os (init_shell false)
  = Ret Done (init_shell false).
Proof.
  destruct (eval_cmdline_ignored "   " no_os (init_shell false)) as [H1 _].
  destruct (eval_cmdline_ignored "/bin/ls > a > b" no_os (init_shell false))
    as [_ H2].
  split.
  - apply H1; [reflexivity|vm_compute; lia].
  - eapply H2; [vm_compute; reflexivity|reflexivity].
Defined.

(** X12. The text of a builtin reaches its executor.  [quit] ends the shell
    with status 0, as [execute_quit] does; [jobs] writes the listing of the
    table on standard output and changes nothing else; [jobs > f] writes
    it to the file [f] instead, or exits with [Open error] when [f] cannot
    be opened; [fg arg] and [bg arg] are [execute_fg] and [execute_bg] on
    the tokens [fg; arg] and [bg; arg]. *)
Theorem eval_cmdline_builtins (o : os) (s : shell) :
  (exists s', execute_quit (reaped o) s = Exit 0 s' /\
              eval_cmdline "quit" o s = Exit 0 s') /\
  eval_cmdline "jobs" o s = Ret Done (add_sio (listjobs (job_list s)) s) /\
  (forall f,
     plain_word f = true -> (String.length f < 1000)%nat ->
     eval_cmdline ("jobs > " +:+ f) o s
     = match open_out_err o with
       | Some e => Exit 1 (add_stdio ("Open error: " +:+ e +:+ nl) s)
       | None => Ret Done (add_file f (listjobs (job_list s)) s)
       end) /\
  (forall arg,
     plain_word arg = true -> first_char_is "&" arg = false ->
     (String.length arg < 1000)%nat ->
     eval_cmdline ("fg " +:+ arg) o s = execute_fg (fg_tok arg) s /\
     eval_cmdline ("bg " +:+ arg) o s
     = (run execute_bg (bg_tok arg); ret Done) s).
Proof.
  split_and!.
  - destruct (execute_quit_Exit (reaped o) s) as (s' & E & _).
    exists s'. split; [done|].
    change "quit" with (render [Word "quit"]).
    rewrite (parseline_builtin_line [Word "quit"] "quit" []);
      [|by repeat constructor|done|done|cbn; lia|cbn; lia|cbn; lia
       |vm_compute; lia].
    erewrite eval_builtin; [|done..].
    change (builtins (tok_of [Word "quit"] "quit")) with BUILTIN_QUIT.
    cbn match. by rewrite E.
  - change "jobs" with (render [Word "jobs"]).
    rewrite (parseline_builtin_line [Word "jobs"] "jobs" []);
      [|by repeat constructor|done|done|cbn; lia|cbn; lia|cbn; lia
       |vm_compute; lia].
    by erewrite eval_builtin.
  - intros f Hf Hlen.
    change ("jobs > " +:+ f) with (render [Word "jobs"; Outfile f]).
    rewrite (parseline_builtin_line [Word "jobs"; Outfile f] "jobs" []);
      [|by repeat constructor|done|done|cbn; lia|cbn; lia|cbn; lia|].
    2: { change (render [Word "jobs"; Outfile f]) with ("jobs > " +:+ f).
         rewrite length_append. unfold MAXLINE. cbn [String.length]. lia. }
    by erewrite eval_builtin.
  - intros arg Harg Hamp Hlen.
    assert (forall b, (String.length b <= 2)%nat ->
                      (String.length (render [Word b; Word arg]) + 2
                       < MAXLINE)%nat) as Hfit.
    { intros b Hb.
      change (render [Word b; Word arg]) with (b +:+ " " +:+ arg).
      rewrite !length_append. unfold MAXLINE. cbn [String.length]. lia. }
    split.
    + change ("fg " +:+ arg) with (render [Word "fg"; Word arg]).
      rewrite (parseline_builtin_line [Word "fg"; Word arg] "fg" [arg]);
        [|by repeat constructor|done|done|cbn; lia|cbn; lia|cbn; lia
         |by apply Hfit].
      by erewrite eval_builtin.
    + change ("bg " +:+ arg) with (render [Word "bg"; Word arg]).
      rewrite (parseline_builtin_line [Word "bg"; Word arg] "bg" [arg]);
        [|by repeat constructor|done|done|cbn; lia|cbn; lia|cbn; lia
         |by apply Hfit].
      by erewrite eval_builtin.
Qed.

(** X13. Launching a job from the text of the line.  The command is not a
    builtin, [fork] gives a positive pid that no job has, and slot [i] is
    the first unused one.  The line as it stands puts the job (pid,
    [nextjid], FG, line) into slot [i], writes nothing with [write], and
    waits for that pid; the line followed by [ &] puts (pid, [nextjid],
    BG, line) there, writes [[jid] (pid) line] with [write] and returns.
    In both cases [printf] receives the line [Added job [jid] pid line]
    when the shell runs with [-v], and nothing otherwise; [nextjid] moves
    on by one, back to 1 once it exceeds MAXJOBS; no signal is sent, and
    the flag and the files are as before. *)
Theorem eval_cmdline_launch (items : list item) (arg0 : string)
    (args : list string) (o : os) (s : shell) (i : nat) (j : job_t) :
  Forall plain_item items ->
  words items = arg0 :: args ->
  builtin_of arg0 = BUILTIN_NONE ->
  first_char_is "&" (List.last (words items) "") = false ->
  (length (infiles items) <= 1)%nat ->
  (length (outfiles items) <= 1)%nat ->
  (length (words items) < MAXARGS - 2)%nat ->
  (String.length (render items) + 2 < MAXLINE)%nat ->
  0 < fork_pid o ->
  list_find (fun j => pid j = 0) (job_list s) = Some (i, j) ->
  Forall (fun j => pid j <> fork_pid o) (job_list s) ->
  let p := fork_pid o in
  let fg_line := render items in
  let bg_line := render items +:+ " &" in
  let next := if Z.of_nat MAXJOBS <? nextjid s + 1 then 1
              else nextjid s + 1 in
  (exists s',
     eval_cmdline fg_line o s = Ret (WaitWhileFgIs p) s' /\
     job_list s' = <[i := mkjob p (nextjid s) FG fg_line]> (job_list s) /\
     sio_out s' = sio_out s /\
     stdio_out s'
     = stdio_out s +:+ added_note (verbose s) (nextjid s) p fg_line /\
     sent s' = sent s /\ nextjid s' = next /\
     verbose s' = verbose s /\ files s' = files s) /\
  (exists s',
     eval_cmdline bg_line o s = Ret Done s' /\
     job_list s' = <[i := mkjob p (nextjid s) BG bg_line]> (job_list s) /\
     sio_out s' = sio_out s +:+ job_line (nextjid s) p bg_line /\
     stdio_out s'
     = stdio_out s +:+ added_note (verbose s) (nextjid s) p bg_line /\
     sent s' = sent s /\ nextjid s' = next /\
     verbose s' = verbose s /\ files s' = files s).
Proof. apply eval_cmdline_found. Qed.

Lemma eval_cmdline_launch_witness :
  exists s',
    eval_cmdline "/bin/sleep 100 &" (mkos 100 "" [] None None true)
                 (init_shell true) = Ret Done s' /\
    sio_out s' = "[1] (100) /bin/sleep 100 &" +:+ nl /\
    stdio_out s' = "Added job [1] 100 /bin/sleep 100 &" +:+ nl.
Proof.
  destruct (eval_cmdline_launch [Word "/bin/sleep"; Word "100"] "/bin/sleep"
              ["100"] (mkos 100 "" [] None None true) (init_shell true)
              0 (mkjob 0 0 UNDEF ""))
    as [_ (s' & H1 & _ & H2 & H3 & _)].
  - repeat constructor.
  - reflexivity.
  - reflexivity.
  - reflexivity.
  - vm_compute. lia.
  - vm_compute. lia.
  - vm_compute. lia.
  - vm_compute. lia.
  - reflexivity.
  - reflexivity.
  - vm_compute. repeat constructor; discriminate.
  - exists s'. split; [exact H1|]. rewrite H2, H3. split; reflexivity.
Defined.

(** X14. On the table that [initjobs] leaves, a background launch followed
    by [jobs] writes with [write] the launch line [[1] (pid) line] and then
    one row of the listing, [[1] (pid) Running    line], and nothing else.
    [printf] receives the line [Added job [1] pid line] of [addjob] when
    the shell runs with [-v], and nothing otherwise; [jobs] adds nothing
    to it. *)
Theorem launch_then_jobs (items : list item) (arg0 : string)
    (args : list string) (o o' : os) (v : bool) :
  Forall plain_item items ->
  words items = arg0 :: args ->
  builtin_of arg0 = BUILTIN_NONE ->
  first_char_is "&" (List.last (words items) "") = false ->
  (length (infiles items) <= 1)%nat ->
  (length (outfiles items) <= 1)%nat ->
  (length (words items) < MAXARGS - 2)%nat ->
  (String.length (render items) + 2 < MAXLINE)%nat ->
  0 < fork_pid o ->
  let line := render items +:+ " &" in
  exists s1 s2,
    eval_cmdline line o (init_shell v) = Ret Done s1 /\
    eval_cmdline "jobs" o' s1 = Ret Done s2 /\
    sio_out s2
    = ("[1] (" +:+ sio_ltoa (fork_pid o) 10 +:+ ") " +:+ line +:+ nl)
      +:+ ("[1] (" +:+ sio_ltoa (fork_pid o) 10 +:+ ") Running    "
           +:+ line +:+ nl) /\
    stdio_out s1 = added_note v 1 (fork_pid o) line /\
    stdio_out s2 = stdio_out s1.
Proof.
  intros Hplain Hwords Hnone Hlast Hin Hout Hargc Hfit Hp. cbn zeta.
  destruct (eval_cmdline_found items arg0 args o (init_shell v) 0
              (mkjob 0 0 UNDEF ""))
    as [_ (s1 & E1 & Hjl & Hsio & Hstd & _)]; [done..| |].
  { cbn. repeat constructor; cbn; lia. }
  exists s1, (add_sio (listjobs (job_list s1)) s1). split_and!.
  - done.
  - change "jobs" with (render [Word "jobs"]).
    rewrite (parseline_builtin_line [Word "jobs"] "jobs" []);
      [|by repeat constructor|done|done|cbn; lia|cbn; lia|cbn; lia
       |vm_compute; lia].
    by erewrite eval_builtin.
  - change (sio_out (add_sio ?a ?b)) with (sio_out b +:+ a).
    rewrite Hsio, Hjl.
    change (sio_out (init_shell v)) with "". rewrite append_empty_l.
    f_equal.
    change (<[0%nat := ?j]> (job_list (init_shell v)))
      with (j :: replicate 15 (mkjob 0 0 UNDEF "")).
    rewrite listjobs_first by (by repeat constructor).
    unfold listjobs_row. cbn [pid jid state cmdline].
    rewrite decide_False by lia. rewrite decide_True by done.
    unfold fmt_d. destruct (Z.ltb_spec (fork_pid o) 0); [lia|].
    by rewrite ?append_assoc.
  - rewrite Hstd. change (stdio_out (init_shell v)) with "".
    by rewrite append_empty_l.
  - done.
Qed.

Lemma launch_then_jobs_witness :
  exists s1 s2,
    eval_cmdline "/bin/echo ok &" (mkos 100 "" [] None None true)
                 (init_shell true) = Ret Done s1 /\
    eval_cmdline "jobs" no_os s1 = Ret Done s2 /\
    sio_out s2
    = "[1] (100) /bin/echo ok &" +:+ nl
      +:+ "[1] (100) Running    /bin/echo ok &" +:+ nl /\
    stdio_out s2 = "Added job [1] 100 /bin/echo ok &" +:+ nl.
Proof.
  destruct (launch_then_jobs [Word "/bin/echo"; Word "ok"] "/bin/echo"
              ["ok"] (mkos 100 "" [] None None true) no_os true)
    as (s1 & s2 & H1 & H2 & H3 & H4 & H5).
  - repeat constructor.
  - reflexivity.
  - reflexivity.
  - reflexivity.
  - vm_compute. lia.
  - vm_compute. lia.
  - vm_compute. lia.
  - vm_compute. lia.
  - reflexivity.
  - exists s1, s2. split; [exact H1|]. split; [exact H2|].
    rewrite H3, H5, H4. split; reflexivity.
Defined.

(** X15. Adding a job and looking it up.  When a slot is unused and no job
    has the pid, [addjob] returns 1; [getjobpid] then finds the slot, which
    holds the pid, the old [nextjid], the state and the command line;
    [pid2jid] gives that id; [nextjid] has moved on by one, or to 1 past
    [MAXJOBS]; the other slots are as before, and so is every lookup of
    another pid. *)
Theorem addjob_then_lookup (s : shell) (p st : Z) (cmd : string) :
  0 < p ->
  Exists (fun j => pid j = 0) (job_list s) ->
  Forall (fun j => pid j <> p) (job_list s) ->
  exists i s',
    addjob p st cmd s = Ret 1 s' /\
    getjobpid (job_list s') p = Some i /\
    job_list s' !! i = Some (mkjob p (nextjid s) st cmd) /\
    pid2jid (job_list s') p = nextjid s /\
    nextjid s' = (if Z.of_nat MAXJOBS <? nextjid s + 1 then 1
                  else nextjid s + 1) /\
    (forall k, k <> i -> job_list s' !! k = job_list s !! k) /\
    (forall q, q <> p ->
       getjobpid (job_list s') q = getjobpid (job_list s) q /\
       pid2jid (job_list s') q = pid2jid (job_list s) q).
Proof.
  intros Hp Hfree Hfresh.
  destruct (free_slot_find _ Hfree) as (i & j & Hfind).
  pose proof Hfind as (Hi & Hj & _)%list_find_Some.
  exists i, (added i p st cmd s).
  assert (list_find (fun j => pid j = p)
            (<[i := mkjob p (nextjid s) st cmd]> (job_list s))
          = Some (i, mkjob p (nextjid s) st cmd)) as Hnew
    by (by eapply list_find_insert_fresh).
  split_and!.
  - by eapply addjob_found.
  - rewrite added_jobs. unfold getjobpid.
    destruct (Z.ltb_spec p 1); [lia|]. by rewrite Hnew.
  - rewrite added_jobs. apply list_lookup_insert_eq.
    by eapply lookup_lt_Some.
  - rewrite added_jobs. unfold pid2jid.
    destruct (Z.ltb_spec p 1); [lia|]. by rewrite Hnew.
  - apply added_nextjid.
  - intros k Hk. rewrite added_jobs. by apply list_lookup_insert_ne.
  - intros q Hq. rewrite added_jobs. unfold getjobpid, pid2jid.
    destruct (Z.ltb_spec q 1); [done|].
    rewrite (list_find_insert_ne (fun j => pid j = q) _ _ j); [done|done|..].
    + rewrite Hj. lia.
    + cbn. congruence.
Qed.

Lemma addjob_then_lookup_witness :
  exists i s',
    addjob 100 BG "/bin/sleep 1 &" (init_shell false) = Ret 1 s' /\
    getjobpid (job_list s') 100 = Some i.
Proof.
  destruct (addjob_then_lookup (init_shell false) 100 BG "/bin/sleep 1 &")
    as (i & s' & H1 & H2 & _).
  - lia.
  - vm_compute. apply Exists_cons_hd. reflexivity.
  - vm_compute. repeat constructor; discriminate.
  - exists i, s'. split; [exact H1|exact H2].
Defined.

(** X16. Adding a job and deleting it again restores the table: when the
    unused slots are cleared and no job has the pid, [addjob] then
    [deletejob] both return 1, the job list is the one before, [nextjid]
    is [maxjid] of it plus one, and the pid is no longer found. *)
Theorem addjob_deletejob (s : shell) (p st : Z) (cmd : string) :
  0 < p ->
  Exists (fun j => pid j = 0) (job_list s) ->
  Forall (fun j => pid j <> p) (job_list s) ->
  Forall (fun j => pid j = 0 -> j = mkjob 0 0 UNDEF "") (job_list s) ->
  exists s1 s2,
    addjob p st cmd s = Ret 1 s1 /\
    deletejob p s1 = Ret 1 s2 /\
    job_list s2 = job_list s /\
    nextjid s2 = maxjid (job_list s) + 1 /\
    getjobpid (job_list s2) p = None.
Proof.
  intros Hp Hfree Hfresh Hclear.
  destruct (free_slot_find _ Hfree) as (i & j & Hfind).
  pose proof Hfind as (Hi & Hj & _)%list_find_Some.
  assert (j = mkjob 0 0 UNDEF "") as ->.
  { rewrite Forall_lookup in Hclear. by eapply Hclear. }
  assert (list_find (fun j => pid j = p)
            (job_list (added i p st cmd s))
          = Some (i, mkjob p (nextjid s) st cmd)) as Hnew.
  { rewrite added_jobs. by eapply list_find_insert_fresh. }
  assert (job_list (deleted i (added i p st cmd s)) = job_list s) as Hjl.
  { rewrite deleted_jobs, added_jobs.
    erewrite alter_insert
      by (apply list_lookup_insert_eq; by eapply lookup_lt_Some).
    rewrite list_insert_insert_eq. by apply list_insert_id. }
  exists (added i p st cmd s), (deleted i (added i p st cmd s)).
  split_and!.
  - by eapply addjob_found.
  - by eapply deletejob_found.
  - done.
  - unfold deleted at 1. cbn [nextjid set_nextjid].
    rewrite <- deleted_jobs. by rewrite Hjl.
  - rewrite Hjl. unfold getjobpid. destruct (Z.ltb_spec p 1); [done|].
    replace (list_find (fun j => pid j = p) (job_list s)) with
      (@None (nat * job_t)); [done|].
    symmetry. by apply list_find_None.
Qed.

Lemma addjob_deletejob_witness :
  exists s1 s2,
    addjob 100 BG "/bin/sleep 1 &" (init_shell false) = Ret 1 s1 /\
    deletejob 100 s1 = Ret 1 s2 /\
    job_list s2 = job_list (init_shell false).
Proof.
  destruct (addjob_deletejob (init_shell false) 100 BG "/bin/sleep 1 &")
    as (s1 & s2 & H1 & H2 & H3 & _).
  - lia.
  - vm_compute. apply Exists_cons_hd. reflexivity.
  - vm_compute. repeat constructor; discriminate.
  - vm_compute. repeat constructor.
  - exists s1, s2. split; [exact H1|]. split; [exact H2|exact H3].
Defined.

(** X17. The table that [initjobs] leaves is empty: there is no foreground
    pid, the largest job id is 0, no pid and no job id is found, and
    [listjobs] writes nothing. *)
Theorem initjobs_empty (jl : list job_t) (p id : Z) :
  fgpid (initjobs jl) = 0 /\
  maxjid (initjobs jl) = 0 /\
  getjobpid (initjobs jl) p = None /\
  getjobjid (initjobs jl) id = None /\
  pid2jid (initjobs jl) p = 0 /\
  listjobs (initjobs jl) = "".
Proof.
  pose proof (initjobs_all jl) as Hall.
  assert (forall (P : job_t -> Prop) `{!forall j, Decision (P j)},
            ~ P (mkjob 0 0 UNDEF "") -> list_find P (initjobs jl) = None)
    as Hnone.
  { intros P ? HP. apply list_find_None.
    eapply Forall_impl; [exact Hall|]. by intros j ->. }
  split_and!.
  - unfold fgpid. by rewrite Hnone.
  - rewrite maxjid_occupied.
    + apply max_occupied_jid_empty.
      eapply Forall_impl; [exact Hall|]. by intros j ->.
    + apply free_cleared_unnumbered, free_cleared_initjobs.
  - unfold getjobpid. destruct (Z.ltb_spec p 1); [done|].
    rewrite Hnone; [done|]. cbn. lia.
  - unfold getjobjid. destruct (Z.ltb_spec id 1); [done|].
    rewrite Hnone; [done|]. cbn. lia.
  - unfold pid2jid. destruct (Z.ltb_spec p 1); [done|].
    rewrite Hnone; [done|]. cbn. lia.
  - unfold listjobs. apply concat_empty.
    apply (imap_rows_empty _ (fun i => i)).
    eapply Forall_impl; [exact Hall|]. by intros j ->.
Qed.

(** X18. In every state that the shell reaches, also when a handler runs
    inside [execute_fg], the table has its [MAXJOBS] slots, [nextjid] is
    at least 1, and every slot is either unused with job id 0 or holds a
    job whose pid and job id are at least 1. *)
Theorem reachable_table_positive (b : bool) (c : config) :
  reachable b c ->
  length (job_list c.1) = MAXJOBS /\
  1 <= nextjid c.1 /\
  (forall i j, job_list c.1 !! i = Some j ->
     (pid j = 0 /\ jid j = 0) \/ (1 <= pid j /\ 1 <= jid j)).
Proof.
  intros (Hlen & Hnext & Hall)%table_wf_reachable.
  split_and!; [done..|]. intros i j Hi.
  rewrite Forall_lookup in Hall. exact (Hall i j Hi).
Qed.

Lemma reachable_table_positive_witness :
  reachable true (default (init_shell false, AtPrompt)
                    (run_events true race_trace (init_shell false, AtPrompt)))
  /\ 1 <= nextjid (default (init_shell false, AtPrompt)
                     (run_events true race_trace
                        (init_shell false, AtPrompt))).1.
Proof.
  assert (H : reachable true
                (default (init_shell false, AtPrompt)
                   (run_events true race_trace (init_shell false, AtPrompt)))).
  { exists false, race_trace. vm_compute. reflexivity. }
  split; [exact H|].
  destruct (reachable_table_positive true _ H) as (_ & Hn & _). exact Hn.
Defined.

(** X19. [execute_quit] always ends the shell with status 0, whatever
    [waitpid] reports: it writes nothing, sends SIGINT to the process group
    of every child reaped as stopped and nothing else, and leaves every
    slot of the table as it was or cleared. *)
Theorem execute_quit_exits (evs : list (Z * wstatus)) (s : shell) :
  exists s',
    execute_quit evs s = Exit 0 s' /\
    sio_out s' = sio_out s /\ stdio_out s' = stdio_out s /\
    sent s' = (sent s ++ quit_signals evs)%list /\
    Forall2 slot_kept_or_cleared (job_list s) (job_list s').
Proof. apply execute_quit_Exit. Qed.





(** X22. What [fg] and [bg] answer to a bad argument: with an argument
    count other than two, [<argv0> please input one and only one ID
    argument]; with [%] followed by no number or by 0, [<argv0>: argument
    must be a nonzero %%jobid] (for bg: [a %%jobid]); with no number or 0
    as pid, [<argv0>: argument must be a nonzero PID] (for bg: [a PID]);
    with a pid that no job has, [(pid): process with this pid do not
    exist].  Each is one line on standard output, the percent sign
    doubled as in the source; the table, [nextjid] and the signals sent
    are unchanged.  The number is the [int] that [atoi] returns, which is
    what the code tests, looks up and prints: [4294967296] counts as 0,
    and [4294967301] is the pid 5. *)
Theorem fg_bg_bad_argument (tok : cmdline_tokens) (s : shell) (a : string) :
  argv tok !! 0%nat = Some a ->
  let usage_line := a +:+ " please input one and only one ID argument"
                    +:+ nl in
  let no_pid p := "(" +:+ sio_ltoa p 10
                  +:+ "): process with this pid do not exist" +:+ nl in
  (argc tok <> 2 ->
   execute_fg tok s = Ret Done (add_sio usage_line s) /\
   execute_bg tok s = Ret () (add_sio usage_line s)) /\
  (forall str,
     argc tok = 2 -> argv tok !! 1%nat = Some str ->
     first_char_is "%" str = true -> atoi (str_tail str) = 0 ->
     execute_fg tok s
     = Ret Done (add_sio (a +:+ ": argument must be a nonzero %%jobid" +:+ nl)
                         s) /\
     execute_bg tok s
     = Ret () (add_sio (a +:+ ": argument must be a %%jobid" +:+ nl) s)) /\
  (forall str,
     argc tok = 2 -> argv tok !! 1%nat = Some str ->
     first_char_is "%" str = false -> atoi str = 0 ->
     execute_fg tok s
     = Ret Done (add_sio (a +:+ ": argument must be a nonzero PID" +:+ nl) s) /\
     execute_bg tok s
     = Ret () (add_sio (a +:+ ": argument must be a PID" +:+ nl) s)) /\
  (forall str,
     argc tok = 2 -> argv tok !! 1%nat = Some str ->
     first_char_is "%" str = false -> atoi str <> 0 ->
     getjobpid (job_list s) (atoi str) = None ->
     execute_fg tok s = Ret Done (add_sio (no_pid (atoi str)) s) /\
     execute_bg tok s = Ret () (add_sio (no_pid (atoi str)) s)).
Proof.
  intros Ha. cbn zeta. split_and!.
  - intros Hargc. unfold execute_fg, execute_fg_lookup, execute_bg.
    rewrite !decide_True by done. rewrite Ha.
    unfold_shell. cbn. by rewrite !add_sio_add_sio.
  - intros str Hargc Hstr Hpct Hzero.
    unfold execute_fg, execute_fg_lookup, execute_bg.
    rewrite !decide_False by (intros ?; done). rewrite Hstr, Hpct, Ha.
    rewrite !decide_True by done.
    unfold_shell. cbn. by rewrite !add_sio_add_sio.
  - intros str Hargc Hstr Hpct Hzero.
    unfold execute_fg, execute_fg_lookup, execute_bg.
    rewrite !decide_False by (intros ?; done). rewrite Hstr, Hpct, Ha.
    rewrite !decide_True by done.
    unfold_shell. cbn. by rewrite !add_sio_add_sio.
  - intros str Hargc Hstr Hpct Hnz Hnone.
    unfold execute_fg, execute_fg_lookup, execute_bg.
    rewrite !decide_False by (intros ?; done). rewrite Hstr, Hpct.
    rewrite !decide_False by done.
    unfold_shell. cbn. rewrite Hnone. cbn.
    by rewrite !add_sio_add_sio, ?append_assoc.
Qed.

Lemma fg_bg_bad_argument_witness :
  execute_fg (mktok 1 ["fg"] None None BUILTIN_FG) (init_shell false)
  = Ret Done (add_sio ("fg please input one and only one ID argument" +:+ nl)
                      (init_shell false)) /\
  execute_fg (fg_tok "4294967301") two_jobs
  = Ret Done (add_sio ("(5): process with this pid do not exist" +:+ nl)
                      two_jobs) /\
  execute_bg (bg_tok "%4294967296") two_jobs
  = Ret () (add_sio ("bg: argument must be a %%jobid" +:+ nl) two_jobs).
Proof.
  destruct (fg_bg_bad_argument (mktok 1 ["fg"] None None BUILTIN_FG)
              (init_shell false) "fg" eq_refl) as [H _].
  destruct (fg_bg_bad_argument (fg_tok "4294967301") two_jobs "fg" eq_refl)
    as (_ & _ & _ & Hpid).
  destruct (fg_bg_bad_argument (bg_tok "%4294967296") two_jobs "bg" eq_refl)
    as (_ & Hjid & _).
  split_and!.
  - destruct H as [H _]; [discriminate|]. exact H.
  - destruct (Hpid "4294967301") as [Hfg _];
      [reflexivity|reflexivity|reflexivity|discriminate|reflexivity|].
    exact Hfg.
  - destruct (Hjid "%4294967296") as [_ Hbg];
      [reflexivity|reflexivity|reflexivity|reflexivity|].
    exact Hbg.
Defined.

(** X23. What the child-status handler never does: when it returns it has
    sent no signal, and every slot of the table is as before, or the same
    job marked stopped, or cleared; so a job found after it was there
    before, with the same pid, job id and command line, in the same state
    or stopped. *)
Theorem sigchld_handler_frame (evs : list (Z * wstatus)) (s s' : shell) :
  sigchld_handler evs s = Ret () s' ->
  sent s' = sent s /\
  Forall2 slot_after (job_list s) (job_list s') /\
  (forall i j', job_list s' !! i = Some j' -> pid j' <> 0 ->
     exists j, job_list s !! i = Some j /\ pid j' = pid j /\
               jid j' = jid j /\ cmdline j' = cmdline j /\
               (state j' = state j \/ state j' = ST)).
Proof.
  intros H. apply sigchld_handler_slots in H as [Hsent Hjl].
  split_and!; [done..|].
  intros i j' Hi Hp.
  destruct (Forall2_lookup_r _ _ _ _ _ Hjl Hi) as (j & Hj & Hstep).
  exists j. split; [done|].
  destruct Hstep as [->|[[-> _]| ->]]; cbn in *; [by auto..|done].
Qed.

Lemma sigchld_handler_frame_witness :
  Forall2 slot_after (job_list two_jobs)
    (job_list (final (sigchld_handler [(100, WExited 0); (101, WStopped 20)]
                        two_jobs))).
Proof.
  destruct (sigchld_handler_frame [(100, WExited 0); (101, WStopped 20)]
              two_jobs
              (final (sigchld_handler [(100, WExited 0); (101, WStopped 20)]
                        two_jobs)))
    as (_ & H & _).
  - vm_compute. reflexivity.
  - exact H.
Defined.

(** X24. Keyboard signals reach the job that is waited for and no other.
    In the shell whose commands run up to their wait loop without
    interruption: while [main] is between two commands, [sigint_handler]
    and [sigtstp_handler] do nothing at all; while [eval] waits for the
    foreground pid [p], [sigint_handler] sends the signal to the process
    group of [p], or does nothing. *)
Theorem keyboard_signals_target (s : shell) (k : control) (sig : Z) :
  reachable false (s, k) ->
  match k with
  | AtPrompt =>
      sigint_handler sig s = Ret () s /\ sigtstp_handler sig s = Ret () s
  | InEvalWait p =>
      sigint_handler sig s = Ret () s \/
      sigint_handler sig s = Ret () (add_sent (- p) sig s)
  | _ => True
  end.
Proof.
  intros (v & evs & Hrun).
  pose proof (fg_inv_run evs _ _ (fg_inv_init v) Hrun) as [Hclear Hfg].
  cbn [fst snd] in *. destruct k as [|p| |]; [| |done..].
  - assert (fgpid (job_list s) = 0) as H0 by (by rewrite fgpid_fg_pids, Hfg).
    split; [|by apply sigtstp_handler_no_fg].
    unfold sigint_handler, bind, get_jobs. rewrite H0.
    by rewrite decide_False by (intros ?; done).
  - unfold sigint_handler, bind, get_jobs. rewrite fgpid_fg_pids.
    destruct Hfg as [-> | ->].
    + left. by rewrite decide_False by (intros ?; done).
    + change (default 0 (head [p])) with p.
      destruct (decide (p <> 0)); [by right|by left].
Qed.

Lemma keyboard_signals_target_witness :
  reachable false (one_foreground, InEvalWait 100) /\
  (sigint_handler SIGINT one_foreground = Ret () one_foreground \/
   sigint_handler SIGINT one_foreground
   = Ret () (add_sent (- 100) SIGINT one_foreground)).
Proof.
  assert (H : reachable false (one_foreground, InEvalWait 100)).
  { exists false,
      [Command "/bin/sleep 9" 0
         (mktok 2 ["/bin/sleep"; "9"] None None BUILTIN_NONE)
         (mkos 100 "" [] None None true)].
    vm_compute. reflexivity. }
  split; [exact H|].
  exact (keyboard_signals_target one_foreground (InEvalWait 100) SIGINT H).
Defined.

(** X25. The forked child stays away from the state of the shell: whatever
    the tokens and the answers of the system, it never returns into
    [eval]'s caller, it leaves the job list and [nextjid] of its copy as
    they were and sends no signal, and when [argv[0]] exists it does not
    fault: it ends in [execve] or in [exit]. *)
Theorem eval_child_confined (tok : cmdline_tokens) (o : os) (s : shell) :
  (forall w s', eval_child tok o s <> Ret w s') /\
  job_list (final (eval_child tok o s)) = job_list s /\
  nextjid (final (eval_child tok o s)) = nextjid s /\
  sent (final (eval_child tok o s)) = sent s /\
  (forall path, argv tok !! 0%nat = Some path ->
     forall s', eval_child tok o s <> Fault s').
Proof.
  split_and!.
  - intros w s'. apply eval_child_no_Ret.
  - unfold eval_child, Open, unix_error, sio_puts_arg. unfold_shell.
    destruct (infile tok), (open_in_err o), (outfile tok), (open_out_err o),
      (argv tok !! 0%nat), (execve_ok o); reflexivity.
  - unfold eval_child, Open, unix_error, sio_puts_arg. unfold_shell.
    destruct (infile tok), (open_in_err o), (outfile tok), (open_out_err o),
      (argv tok !! 0%nat), (execve_ok o); reflexivity.
  - unfold eval_child, Open, unix_error, sio_puts_arg. unfold_shell.
    destruct (infile tok), (open_in_err o), (outfile tok), (open_out_err o),
      (argv tok !! 0%nat), (execve_ok o); reflexivity.
  - intros path Hpath s'.
    unfold eval_child, Open, unix_error, sio_puts_arg. unfold_shell.
    rewrite Hpath.
    destruct (infile tok), (open_in_err o), (outfile tok), (open_out_err o),
      (execve_ok o); discriminate.
Qed.

(** X26. The numbers that the shell writes read back, as far as an [int]
    reaches.  [atoi] of what [sio_putl] writes for a number from 0 to
    INT_MAX is that number, and [atoi] of what [printf]'s [%d] writes for
    an [int] is that [int], whatever its sign: a pid or job id copied from
    a notification or from the listing names the same job to [fg] and
    [bg].  [sio_putl] takes a [long]: of a number above INT_MAX, up to
    LONG_MAX, [atoi] reads back the low 32 bits, which is another
    number. *)
Theorem atoi_reads_back (v : Z) :
  (0 <= v <= INT_MAX -> atoi (sio_ltoa v 10) = v) /\
  (INT_MIN <= v <= INT_MAX -> atoi (fmt_d v) = v) /\
  (INT_MAX < v <= LONG_MAX ->
     atoi (sio_ltoa v 10) = int_of_long v /\ atoi (sio_ltoa v 10) <> v).
Proof.
  split; [apply atoi_sio_ltoa|split; [apply atoi_fmt_d|]].
  intros Hv.
  assert (atoi (sio_ltoa v 10) = int_of_long v) as E.
  { unfold atoi, strtol. rewrite numeral_sio_ltoa.
    - f_equal. unfold INT_MAX, LONG_MIN, LONG_MAX in *. lia.
    - unfold INT_MAX in *. lia. }
  split; [done|]. pose proof (atoi_range (sio_ltoa v 10)). lia.
Qed.

Lemma atoi_reads_back_witness :
  atoi (sio_ltoa 12345 10) = 12345 /\ atoi (fmt_d (-7)) = (-7) /\
  atoi (sio_ltoa 4294967396 10) = 100.
Proof.
  destruct (atoi_reads_back 12345) as [H1 _].
  destruct (atoi_reads_back (-7)) as (_ & H2 & _).
  destruct (atoi_reads_back 4294967396) as (_ & _ & H3).
  split; [apply H1; by vm_compute|split; [apply H2; by vm_compute|]].
  destruct H3 as [-> _]; by vm_compute.
Defined.

(** X27. [sio_putl] has no sign: for a negative number its loop runs once
    and writes the single character of code [48 + (v rem 10)], between
    ['] and [0], which is not what [%d] writes. *)
Theorem sio_putl_negative (v : Z) (s : shell) :
  v < 0 ->
  sio_putl v s
  = Ret () (add_sio (String (char_of_Z (Z.rem v 10 + 48)) "") s) /\
  sio_ltoa v 10 <> fmt_d v.
Proof.
  intros Hv. rewrite <- sio_ltoa_nonpos by lia. split; [done|].
  unfold fmt_d. destruct (Z.ltb_spec v 0); [|lia].
  rewrite sio_ltoa_nonpos by lia.
  destruct (sio_ltoa_cons (- v)) as (c & r & -> & _); [lia|]. done.
Qed.

Lemma sio_putl_negative_witness :
  sio_putl (-5) (init_shell false) = Ret () (add_sio "+" (init_shell false)).
Proof.
  destruct (sio_putl_negative (-5) (init_shell false)) as [H _]; [lia|].
  exact H.
Defined.

(** X28. [sio_reverse], the loop that swaps [s[i]] and [s[j]] while [i < j],
    ends, stays inside its string and reverses it; [sio_ltoa] is the
    digit loop followed by it. *)
Theorem sio_reverse_rev (s : list ascii) (v b : Z) :
  sio_reverse s = Some (rev s) /\
  Some (sio_ltoa v b)
  = string_of_list_ascii
    <$> sio_reverse (ltoa_loop (Z.to_nat (Z.log2 v)) v b).
Proof.
  assert (forall l, sio_reverse l = Some (rev l)) as Hrev.
  { intros l. unfold sio_reverse.
    pose proof (sio_reverse_loop_middle (S (length l)) [] l []
                  (Nat.lt_succ_diag_r _)) as H.
    cbn [length app Z.of_nat Nat.add] in H.
    by rewrite !app_nil_r in H. }
  split; [apply Hrev|]. unfold sio_ltoa. by rewrite Hrev.
Qed.

(** X29. When the handler reaps a child that the table holds and that a
    signal has killed, it prints the line
    [Job [<id>] (<pid>) terminated by signal <n>] and clears the job's slot;
    when the child has exited normally it clears the slot and prints
    nothing. *)
Theorem sigchld_terminated_or_exited
    (s : shell) (p : Z) (i : nat) (j : job_t) (evs : list (Z * wstatus)) :
  getjobpid (job_list s) p = Some i -> job_list s !! i = Some j ->
  (forall sig,
     let s' := deleted i (add_sio (terminated_line (jid j) p sig) s) in
     sigchld_handler ((p, WSignaled sig) :: evs) s = sigchld_handler evs s' /\
     sio_out s' = sio_out s +:+ terminated_line (jid j) p sig /\
     stdio_out s' = stdio_out s /\
     job_list s' = <[i := mkjob 0 0 UNDEF ""]> (job_list s) /\
     nextjid s' = maxjid (job_list s') + 1) /\
  (forall code,
     let s' := deleted i s in
     sigchld_handler ((p, WExited code) :: evs) s = sigchld_handler evs s' /\
     sio_out s' = sio_out s /\
     stdio_out s' = stdio_out s /\
     job_list s' = <[i := mkjob 0 0 UNDEF ""]> (job_list s) /\
     nextjid s' = maxjid (job_list s') + 1).
Proof.
  intros Hg Hi. destruct (getjobpid_Some _ _ _ Hg) as [Hp _].
  assert (Hjl : alter clearjob i (job_list s)
                = <[i := mkjob 0 0 UNDEF ""]> (job_list s)).
  { apply list_eq. intros k. rewrite list_lookup_alter.
    destruct (decide (i = k)) as [->|].
    - rewrite list_lookup_insert_eq by (by eapply lookup_lt_Some).
      by rewrite Hi.
    - by rewrite list_lookup_insert_ne. }
  split; intros x s'.
  - split; [|by rewrite <- Hjl].
    apply sigchld_handler_cons; [done|]. by apply sigchld_reap_signaled.
  - split; [|by rewrite <- Hjl].
    apply sigchld_handler_cons; [done|]. by apply sigchld_reap_exited.
Qed.

Lemma sigchld_terminated_or_exited_witness :
  sigchld_handler [(100, WSignaled 2)] two_jobs
  = Ret () (deleted 0 (add_sio (terminated_line 1 100 2) two_jobs)) /\
  terminated_line 1 100 2 = "Job [1] (100) terminated by signal 2" +:+ nl.
Proof.
  split; [|reflexivity].
  apply (sigchld_terminated_or_exited two_jobs 100 0
           (mkjob 100 1 BG "/bin/sleep 1 &") []); reflexivity.
Defined.
